(** * acct-recon: the reconciliation engine, embedded and verified

    The development follows the code units of the repository:

    - [Js]: the JavaScript primitives the code relies on (string methods,
      the regular expressions of the parsers, truthiness, [Map],
      [Array.prototype.sort], JSON values);
    - [CrossFile]: the tracking-bucket route ([normTracking],
      [reconcileByTrackingPreferPO], [parseUploadToRows], [buildSummary],
      [POST]);
    - [Parse]: the flexible parser of lib/parse.ts ([parseFile]);
    - [TruthSource]: lib/ot.ts ([extractPackages]) and the verification
      route ([SCORE], [reconcileOne], [POST]);
    - [SingleFile]: the handler of the one-upload verification route
      ([POST]);
    - [StrictParse]: the earlier, strict parser ([parseFile]).

    Strings are sequences of ASCII characters.  A sheet is given decoded: a
    row is the list of its header and cell pairs in column order, cells are
    text, and [entries] is the order in which the engine enumerates the
    properties of such a row.  The engine's date parsing and formatting are
    parameters.  Promises are modelled by their settlement ([Resolved] or
    [Rejected]), and the calls made to the order system are recorded in a
    trace.  Which evaluations of a row throw, and with what message, is a
    parameter of the verification loops.  The facts proved about each unit
    follow the definitions. *)

From Stdlib Require Import List String Ascii Bool Arith NArith ZArith Lia Permutation.
From Stdlib Require DecimalString.
Import ListNotations.
Open Scope string_scope.

Set Implicit Arguments.

(* ================================================================== *)
(** * JavaScript values and string primitives                          *)
(* ================================================================== *)

Module Js.

(** ** Character classes *)

Definition code (c : ascii) : nat := nat_of_ascii c.

Definition between (lo hi : nat) (c : ascii) : bool :=
  (lo <=? code c)%nat && (code c <=? hi)%nat.

Definition is_digit : ascii -> bool := between 48 57.
Definition is_upper : ascii -> bool := between 65 90.
Definition is_lower : ascii -> bool := between 97 122.

(** The class [[A-Za-z0-9]]. *)
Definition is_alnum (c : ascii) : bool :=
  is_digit c || is_upper c || is_lower c.

(** The class [\s] on ASCII: tab, line feed, vertical tab, form feed,
    carriage return and space. *)
Definition is_space (c : ascii) : bool :=
  between 9 13 c || (code c =? 32)%nat.

Definition is_hyphen (c : ascii) : bool := (code c =? 45)%nat.
Definition is_underscore (c : ascii) : bool := (code c =? 95)%nat.

Definition upper_char (c : ascii) : ascii :=
  if is_lower c then ascii_of_nat (code c - 32) else c.

Definition lower_char (c : ascii) : ascii :=
  if is_upper c then ascii_of_nat (code c + 32) else c.

(** ** String primitives *)

Fixpoint smap (f : ascii -> ascii) (s : string) : string :=
  match s with
  | EmptyString => EmptyString
  | String c s' => String (f c) (smap f s')
  end.

Fixpoint sfilter (keep : ascii -> bool) (s : string) : string :=
  match s with
  | EmptyString => EmptyString
  | String c s' => if keep c then String c (sfilter keep s') else sfilter keep s'
  end.

Fixpoint sforall (p : ascii -> bool) (s : string) : bool :=
  match s with
  | EmptyString => true
  | String c s' => p c && sforall p s'
  end.

Definition toUpperCase : string -> string := smap upper_char.
Definition toLowerCase : string -> string := smap lower_char.

(** [s.replace(/[^A-Za-z0-9]/g, "")] *)
Definition strip_non_alnum : string -> string := sfilter is_alnum.

(** [s.replace(/\s|-/g, "")] *)
Definition strip_space_hyphen : string -> string :=
  sfilter (fun c => negb (is_space c || is_hyphen c)).

Fixpoint trimStart (s : string) : string :=
  match s with
  | EmptyString => EmptyString
  | String c s' => if is_space c then trimStart s' else s
  end.

Fixpoint trimEnd (s : string) : string :=
  match s with
  | EmptyString => EmptyString
  | String c s' =>
      match trimEnd s' with
      | EmptyString => if is_space c then EmptyString else String c EmptyString
      | t => String c t
      end
  end.

Definition trim (s : string) : string := trimEnd (trimStart s).

(** [s.replace(/C+/g, " ")] for a character class [C]: every maximal run
    of characters of the class becomes one space. *)
Fixpoint collapse (cls : ascii -> bool) (s : string) : string :=
  match s with
  | EmptyString => EmptyString
  | String c s' =>
      if cls c then
        match s' with
        | String c' _ => if cls c' then collapse cls s' else String " " (collapse cls s')
        | EmptyString => String " " EmptyString
        end
      else String c (collapse cls s')
  end.

(** [s.slice(0, n)] for [n >= 0]. *)
Definition slice0 (n : nat) (s : string) : string := substring 0 n s.

(** ** The regular expressions of the parsers *)

Fixpoint take_while (p : ascii -> bool) (s : string) : string :=
  match s with
  | EmptyString => EmptyString
  | String c s' => if p c then String c (take_while p s') else EmptyString
  end.

(** A match of [/[A-Z0-9]{n,}/i] at the start of [s]: the quantifier is
    greedy, so the match is the whole run. *)
Definition match_run_here (n : nat) (s : string) : option string :=
  let run := take_while is_alnum s in
  if (n <=? String.length run)%nat then Some run else None.

(** [s.match(/[A-Z0-9]{n,}/i)]: the leftmost match, [m[0]]. *)
Fixpoint match_run (n : nat) (s : string) : option string :=
  match match_run_here n s with
  | Some m => Some m
  | None =>
      match s with
      | EmptyString => None
      | String _ s' => match_run n s'
      end
  end.

(** A match of [/1Z[0-9A-Z]{16,}/i] at the start of [s]. *)
Definition match_1Z_here (s : string) : option string :=
  match s with
  | String c1 (String c2 rest) =>
      if (code c1 =? 49)%nat && ((code c2 =? 90)%nat || (code c2 =? 122)%nat) then
        match match_run_here 16 rest with
        | Some run => Some (String c1 (String c2 run))
        | None => None
        end
      else None
  | _ => None
  end.

(** [s.match(/1Z[0-9A-Z]{16,}/i)]: the leftmost match, [m[0]]. *)
Fixpoint match_1Z (s : string) : option string :=
  match s with
  | EmptyString => None
  | String _ s' =>
      match match_1Z_here s with
      | Some m => Some m
      | None => match_1Z s'
      end
  end.

(** [/^1Z[0-9A-Z]{16,}$/i.test(s)] *)
Definition test_1Z_whole (s : string) : bool :=
  match match_1Z_here s with
  | Some m => m =? s
  | None => false
  end.

(** ** Truthiness and the [||] / [??] operators on [string | null] *)

Definition nonempty (s : string) : bool := negb (s =? "").

(** [!!v] for [v : string | null | undefined]. *)
Definition truthy (v : option string) : bool :=
  match v with
  | Some s => nonempty s
  | None => false
  end.

(** [v || d] with a string default. *)
Definition or_str (v : option string) (d : string) : string :=
  match v with
  | Some s => if nonempty s then s else d
  | None => d
  end.

(** [v || w] where [w] may itself be null. *)
Definition or_opt (v w : option string) : option string :=
  if truthy v then v else w.

(** [v || null] *)
Definition or_null (v : option string) : option string :=
  if truthy v then v else None.

(** [v ?? ""] *)
Definition or_str' (v : option string) : string :=
  match v with
  | Some s => s
  | None => ""
  end.

(** [v ?? w] *)
Definition nullish {A} (v w : option A) : option A :=
  match v with
  | Some _ => v
  | None => w
  end.

(** ** [Map<string, V>]: insertion-ordered, [set] on an existing key
    keeps the key's position. *)

Definition JsMap (V : Type) : Type := list (string * V).

Fixpoint map_get {V} (k : string) (m : JsMap V) : option V :=
  match m with
  | [] => None
  | (k', v) :: m' => if k' =? k then Some v else map_get k m'
  end.

Fixpoint map_set {V} (k : string) (v : V) (m : JsMap V) : JsMap V :=
  match m with
  | [] => [(k, v)]
  | (k', v') :: m' =>
      if k' =? k then (k', v) :: m' else (k', v') :: map_set k v m'
  end.

(** ** [Array.prototype.sort] with a comparator: a stable sort. *)

Section Sort.
Variable A : Type.
Variable cmp : A -> A -> comparison.

Fixpoint insert (x : A) (l : list A) : list A :=
  match l with
  | [] => [x]
  | y :: l' =>
      match cmp x y with
      | Gt => y :: insert x l'
      | _ => x :: l
      end
  end.

Fixpoint sort (l : list A) : list A :=
  match l with
  | [] => []
  | x :: l' => insert x (sort l')
  end.

(** [head l] is below every element of [l]. *)
Definition head_least (l : list A) : Prop :=
  match l with
  | [] => True
  | h :: _ => forall y, In y l -> cmp h y <> Gt
  end.

End Sort.

(** ** The order of the properties of an object *)

(** The number written by a string of decimal digits. *)
Fixpoint digits_value (acc : N) (s : string) : N :=
  match s with
  | EmptyString => acc
  | String c s' => digits_value (acc * 10 + N.of_nat (code c - 48)) s'
  end.

(** An array index: the canonical decimal form of an integer from 0 to
    2^32 - 2. *)
Definition is_array_index (k : string) : bool :=
  match k with
  | EmptyString => false
  | String c rest =>
      sforall is_digit k
      && (negb (code c =? 48)%nat || (rest =? ""))
      && (digits_value 0 k <=? 4294967294)%N
  end.

(** [Object.entries(o)] for an object [o] given by its properties in the
    order they were added: the properties whose key is an array index come
    first, in ascending order of index, then the others in the order they
    were added.  [Object.keys] and [Object.values] follow the same order. *)
Definition entries {V} (o : JsMap V) : list (string * V) :=
  sort (fun a b => N.compare (digits_value 0 (fst a)) (digits_value 0 (fst b)))
       (filter (fun kv => is_array_index (fst kv)) o)
  ++ filter (fun kv => negb (is_array_index (fst kv))) o.

(** ** JSON values, as written by [Response.json] *)

Inductive json : Type :=
  | JNull
  | JString (s : string)
  | JNumber (z : Z).

(** An object literal: its fields in the order they are written. *)
Definition jobject : Type := list (string * json).

Definition json_str_or_null (v : option string) : json :=
  match v with
  | Some s => JString s
  | None => JNull
  end.

Definition json_num_or_null (v : option Z) : json :=
  match v with
  | Some z => JNumber z
  | None => JNull
  end.

Fixpoint json_field (k : string) (fields : jobject) : option json :=
  match fields with
  | [] => None
  | (k', v) :: fs => if k' =? k then Some v else json_field k fs
  end.

End Js.

Import Js.

(* ================================================================== *)
(** * The tracking-bucket route (route.ts, cross-file merge)            *)
(* ================================================================== *)

Module CrossFile.

Inductive SourceMode : Type := PO | ShipDocs | UPS.

Inductive SourceModeFile : Type := PO_file | ShipDocs_file | UPS_file.

Definition SourceMode_eqb (a b : SourceMode) : bool :=
  match a, b with
  | PO, PO | ShipDocs, ShipDocs | UPS, UPS => true
  | _, _ => false
  end.

Record UploadRow : Type := mkUploadRow {
  row : nat;
  tracking : option string;
  poNumber : option string;
  shipDocNumber : option string;
  vendor : option string;
  customer : option string;
  date : option string;
  sourceMode : SourceMode
}.

Record DetailRow : Type := mkDetailRow {
  d_row : string;
  d_sourceMode : SourceModeFile;
  chosenMode : SourceMode;
  orderNumber : string;
  partyUpload : option string;
  trackingUpload : string;
  assertedDate : option string;
  verdict : string;
  reason : string;
  dayDelta : option Z;
  poVerdict : option string;
  shipVerdict : option string
}.

(** [normTracking]: [if (!s) return ""; return
    s.replace(/[^A-Za-z0-9]/g, "").toUpperCase()]. *)
Definition normTracking (s : option string) : string :=
  match s with
  | None => ""
  | Some s => if nonempty s then toUpperCase (strip_non_alnum s) else ""
  end.

(** A slot of [byTracking].  An absent array ([po?: UploadRow[]]) is the
    empty list: the code reads the arrays only through
    [x && x.length > 0], [x || []] and [x?.find(...)]. *)
Record Bucket : Type := mkBucket {
  po : list UploadRow;
  ship : list UploadRow;
  ups : list UploadRow
}.

Definition emptyBucket : Bucket := mkBucket [] [] [].

(** The key of a row: [normTracking(r.tracking || "")]. *)
Definition keyOf (r : UploadRow) : string :=
  normTracking (Some (or_str (tracking r) "")).

Definition add (byTracking : JsMap Bucket) (r : UploadRow) : JsMap Bucket :=
  let k := keyOf r in
  if negb (nonempty k) then byTracking
  else
    let slot :=
      match map_get k byTracking with
      | Some b => b
      | None => emptyBucket
      end in
    let slot' :=
      match sourceMode r with
      | PO => mkBucket (po slot ++ [r]) (ship slot) (ups slot)
      | ShipDocs => mkBucket (po slot) (ship slot ++ [r]) (ups slot)
      | UPS => mkBucket (po slot) (ship slot) (ups slot ++ [r])
      end in
    map_set k slot' byTracking.

(** The comparator of the three [sort] calls:
    [(a.date || "").localeCompare(b.date || "")].  Date strings are made of
    digits and hyphens, on which [localeCompare] is the code-unit order. *)
Definition byDate (a b : UploadRow) : comparison :=
  String.compare (or_str (date a) "") (or_str (date b) "").

(** [rows?.find(r => !!r.date)?.date] *)
Definition firstDate (rows : list UploadRow) : option string :=
  match find (fun r => truthy (date r)) rows with
  | Some r => date r
  | None => None
  end.

Definition is_nil {A} (l : list A) : bool :=
  match l with
  | [] => true
  | _ => false
  end.

(** The three object literals pushed to [out]. *)
Definition poDetail (k : string) (bucket : Bucket) (pick : UploadRow) : DetailRow :=
  let fallbackDate :=
  or_null (or_opt (firstDate (ups bucket)) (firstDate (ship bucket))) in
  {| d_row := "trk:" ++ k;
   d_sourceMode := PO_file;
   chosenMode := PO;
   orderNumber := or_str (poNumber pick) "(missing PO#)";
   partyUpload := or_null (or_opt (vendor pick) (customer pick));
   trackingUpload := k;
   assertedDate := or_opt (date pick) fallbackDate;
   verdict := "MATCH_PO";
   reason := "Tracking appears on PO; ShipDocs/UPS duplicates suppressed";
   dayDelta := None;
   poVerdict := Some "match";
   shipVerdict := None |}.

Definition shipDetail (k : string) (bucket : Bucket) (pick : UploadRow) : DetailRow :=
  let fallbackDate := or_null (firstDate (ups bucket)) in
  {| d_row := "trk:" ++ k;
     d_sourceMode := ShipDocs_file;
     chosenMode := ShipDocs;
     orderNumber := or_str (shipDocNumber pick) "(missing ShipDoc#)";
     partyUpload := or_null (or_opt (customer pick) (vendor pick));
     trackingUpload := k;
     assertedDate := or_opt (date pick) fallbackDate;
     verdict := "MATCH_SHIPDOCS";
     reason := "Tracking appears on ShipDocs; no PO found for this tracking";
     dayDelta := None;
     poVerdict := None;
     shipVerdict := Some "match" |}.

Definition upsDetail (k : string) (u : UploadRow) : DetailRow :=
  {| d_row := "trk:" ++ k;
     d_sourceMode := UPS_file;
     chosenMode := UPS;
     orderNumber := "";
     partyUpload := or_null (or_opt (customer u) (vendor u));
     trackingUpload := k;
     assertedDate := or_null (date u);
     verdict := "UNMATCHED_UPS";
     reason := "Tracking not found on PO or ShipDocs";
     dayDelta := None;
     poVerdict := None;
     shipVerdict := None |}.

(** One iteration of [for (const [k, bucket] of byTracking.entries())]:
    the rows pushed to [out].  [sort(...)[0]] is read on a non-empty array. *)
Definition emit (k : string) (bucket : Bucket) : list DetailRow :=
  if negb (is_nil (po bucket)) then
    match sort byDate (po bucket) with
    | pick :: _ => [ poDetail k bucket pick ]
    | [] => []
    end
  else if negb (is_nil (ship bucket)) then
    match sort byDate (ship bucket) with
    | pick :: _ => [ shipDetail k bucket pick ]
    | [] => []
    end
  else if negb (is_nil (ups bucket)) then
    match sort byDate (ups bucket) with
    | u :: _ => [ upsDetail k u ]
    | [] => []
    end
  else [].

(** [byTracking] after [poRows.forEach(add); shipRows.forEach(add);
      upsRows.forEach(add)]. *)
Definition group (poRows shipRows upsRows : list UploadRow) : JsMap Bucket :=
  fold_left add upsRows (fold_left add shipRows (fold_left add poRows [])).

Definition reconcileByTrackingPreferPO
    (poRows shipRows upsRows : list UploadRow) : list DetailRow :=
  flat_map (fun kb => emit (fst kb) (snd kb)) (group poRows shipRows upsRows).

(** The [details] entry as serialized by [Response.json]. *)
Definition sourceModeFile_str (m : SourceModeFile) : string :=
  match m with
  | PO_file => "PO-file"
  | ShipDocs_file => "ShipDocs-file"
  | UPS_file => "UPS-file"
  end.

Definition sourceMode_str (m : SourceMode) : string :=
  match m with
  | PO => "PO"
  | ShipDocs => "ShipDocs"
  | UPS => "UPS"
  end.

Definition detailJson (d : DetailRow) : jobject :=
  [ ("row", JString (d_row d));
    ("sourceMode", JString (sourceModeFile_str (d_sourceMode d)));
    ("chosenMode", JString (sourceMode_str (chosenMode d)));
    ("orderNumber", JString (orderNumber d));
    ("partyUpload", json_str_or_null (partyUpload d));
    ("trackingUpload", JString (trackingUpload d));
    ("assertedDate", json_str_or_null (assertedDate d));
    ("verdict", JString (verdict d));
    ("reason", JString (reason d));
    ("dayDelta", json_num_or_null (dayDelta d));
    ("poVerdict", json_str_or_null (poVerdict d));
    ("shipVerdict", json_str_or_null (shipVerdict d)) ].

(** ** Parsing an upload (the variant with the UPS fallback scan) *)

(** One decoded sheet row, an object: header and cell, in the order the
    properties were added, which is column order ([sheet_to_json] with
    [defval: ""]; cells are text). *)
Definition RawRow : Type := JsMap string.

Definition trackingAliases : list string :=
  [ "tracking"; "tracking#"; "tracking number"; "trackingnumber"; "ups tracking"; "ups";
    "trk"; "awb"; "carrier tracking"; "carrier tracking number"; "package tracking number";
    "shipment tracking"; "shipment tracking number"; "tracking no."; "tracking id" ].

Definition poAliases : list string :=
  [ "po"; "po#"; "po number"; "ponumber"; "purchase order"; "purchase order number";
    "purchase order #"; "purchaseorder"; "purchase order id"; "po id" ].

Definition shipDocAliases : list string :=
  [ "shipdoc"; "ship doc"; "ship doc#"; "shipment doc"; "shipdoc number";
    "ship doc number"; "shipdoc#"; "ship document"; "shipment document";
    "so"; "so#"; "sales order"; "sales order number"; "sales order #"; "salesorder";
    "document number"; "doc number"; "doc#"; "document#"; "shipdoc id"; "ship doc id" ].

Definition vendorAliases : list string := [ "vendor"; "supplier"; "from"; "vendor name" ].

Definition customerAliases : list string :=
  [ "customer"; "bill to"; "sold to"; "ship to"; "client"; "customer name" ].

Definition dateAliases : list string :=
  [ "date"; "transaction date"; "post date"; "posted date"; "shipment date"; "ship date";
    "invoice date" ].

(** [for (const k of Object.keys(obj)) out[k.trim().toLowerCase()] = obj[k]] *)
Definition lcKeyed (obj : RawRow) : RawRow :=
  fold_left (fun out kv => map_set (toLowerCase (trim (fst kv))) (snd kv) out)
            (entries obj) [].

(** The first alias whose cell is neither null nor empty. *)
Fixpoint pickFirst (obj : RawRow) (keys : list string) : option string :=
  match keys with
  | [] => None
  | k :: keys' =>
      if truthy (map_get k obj) then map_get k obj else pickFirst obj keys'
  end.

Definition findUpsInString (s : string) : option string :=
  if negb (nonempty s) then None
  else
    match match_1Z s with
    | Some direct => Some (normTracking (Some direct))
    | None =>
        let squeezed := strip_non_alnum s in
        if test_1Z_whole squeezed then Some (toUpperCase squeezed)
        else
          match match_1Z squeezed with
          | Some embedded => Some (toUpperCase embedded)
          | None => None
          end
    end.

Fixpoint fallbackTrackingFromAnyCell_values (vs : list string) : option string :=
  match vs with
  | [] => None
  | v :: vs' =>
      if truthy (findUpsInString v) then findUpsInString v
      else fallbackTrackingFromAnyCell_values vs'
  end.

(** [for (const v of Object.values(rawLower)) ...] *)
Definition fallbackTrackingFromAnyCell (rawLower : RawRow) : option string :=
  fallbackTrackingFromAnyCell_values (map snd (entries rawLower)).

Section ParseUpload.

(** The date block of the loop ([toISODateOrNull], then [isDateLike] and
    [new Date]) applied to a non-empty cell; it rests on the engine's date
    parser. *)
Variable normalizeDate : string -> option string.

(** The body of the loop at index [i]. *)
Definition parseUploadRow (sourceMode : SourceMode) (i : nat) (rowObj : RawRow) : UploadRow :=
  let rawLower := lcKeyed rowObj in
  let trackingRaw := pickFirst rawLower trackingAliases in
  let tracking0 := option_map trim trackingRaw in
  let tracking1 := if truthy tracking0 then tracking0 else fallbackTrackingFromAnyCell rawLower in
  let tracking2 := if truthy tracking1 then Some (normTracking tracking1) else tracking1 in
  let poRaw := pickFirst rawLower poAliases in
  let shipDocRaw := pickFirst rawLower shipDocAliases in
  let vendorRaw := pickFirst rawLower vendorAliases in
  let customerRaw := pickFirst rawLower customerAliases in
  let dateRaw := pickFirst rawLower dateAliases in
  let date :=
    match dateRaw with
    | Some d => if nonempty d then normalizeDate d else None
    | None => None
    end in
  {| row := i + 1;
     tracking := tracking2;
     poNumber := option_map trim poRaw;
     shipDocNumber := option_map trim shipDocRaw;
     vendor := option_map trim vendorRaw;
     customer := option_map trim customerRaw;
     date := date;
     sourceMode := sourceMode |}.

Fixpoint parseUploadRows_from (sourceMode : SourceMode) (i : nat) (rows : list RawRow)
  : list UploadRow :=
  match rows with
  | [] => []
  | r :: rows' => parseUploadRow sourceMode i r :: parseUploadRows_from sourceMode (S i) rows'
  end.

(** [parseUploadToRows] on the rows returned by [sheetToJson]. *)
Definition parseUploadToRows (rows : list RawRow) (sourceMode : SourceMode) : list UploadRow :=
  parseUploadRows_from sourceMode 0 rows.

(** ** The summary and the handler *)

Record Summary : Type := mkSummary {
  totalRowsReturned : nat;
  count_MATCH_PO : nat;
  count_MATCH_SHIPDOCS : nat;
  count_UNMATCHED_UPS : nat
}.

Definition count_verdict (v : string) (details : list DetailRow) : nat :=
  List.length (filter (fun d => verdict d =? v) details).

Definition buildSummary (details : list DetailRow) : Summary :=
  {| totalRowsReturned := List.length details;
     count_MATCH_PO := count_verdict "MATCH_PO" details;
     count_MATCH_SHIPDOCS := count_verdict "MATCH_SHIPDOCS" details;
     count_UNMATCHED_UPS := count_verdict "UNMATCHED_UPS" details |}.

Inductive Response : Type :=
| Status400 (body : string)
| Status200 (summary : Summary) (details : list DetailRow).

(** The rows of an optional file, tagged with the role of its form field. *)
Definition rowsOf (file : option (list RawRow)) (sourceMode : SourceMode) : list UploadRow :=
  match file with
  | Some rows => parseUploadToRows rows sourceMode
  | None => []
  end.

(** [POST] on the decoded sheets of the files present in the form. *)
Definition POST (poFile shipFile upsFile : option (list RawRow)) : Response :=
  match poFile, shipFile, upsFile with
  | None, None, None =>
      Status400 "Please upload at least one file (PO and/or ShipDocs and/or UPS)."
  | _, _, _ =>
      let details :=
        reconcileByTrackingPreferPO
          (rowsOf poFile PO) (rowsOf shipFile ShipDocs) (rowsOf upsFile UPS) in
      Status200 (buildSummary details) details
  end.

End ParseUpload.

(** ** Vocabulary of the statements about the merge *)

(** The rows of source [mode] filed under key [k]. *)
Definition sel (k : string) (mode : SourceMode) (r : UploadRow) : bool :=
  (keyOf r =? k) && SourceMode_eqb (sourceMode r) mode.

(** The group of [k]: its rows per source, in upload order. *)
Definition bucketOf (k : string) (rows : list UploadRow) : Bucket :=
  mkBucket (filter (sel k PO) rows) (filter (sel k ShipDocs) rows) (filter (sel k UPS) rows).

(** [k] is the normalized tracking number of a row of [rows]. *)
Definition tracked (k : string) (rows : list UploadRow) : Prop :=
  k <> "" /\ exists r, In r rows /\ keyOf r = k.

(** Some row of source [mode] carries the tracking number [k]. *)
Definition fromSource (mode : SourceMode) (k : string) (rows : list UploadRow) : Prop :=
  exists r, In r rows /\ keyOf r = k /\ sourceMode r = mode.

(** What [byTracking] holds once [rows] have been added. *)
Record Grouped (rows : list UploadRow) (m : JsMap Bucket) : Prop := mkGrouped {
  g_nodup : NoDup (map fst m);
  g_keys : forall k, In k (map fst m) <-> tracked k rows;
  g_buckets : forall k b, In (k, b) m -> b = bucketOf k rows
}.

(** The result emitted for a group, by winning source. *)
Inductive Emitted (k : string) (b : Bucket) : DetailRow -> Prop :=
| EmitPO pick rest :
    po b <> [] -> sort byDate (po b) = pick :: rest ->
    Emitted k b (poDetail k b pick)
| EmitShip pick rest :
    po b = [] -> ship b <> [] -> sort byDate (ship b) = pick :: rest ->
    Emitted k b (shipDetail k b pick)
| EmitUPS u rest :
    po b = [] -> ship b = [] -> ups b <> [] -> sort byDate (ups b) = u :: rest ->
    Emitted k b (upsDetail k u).

(** The rows of the winning source of a group. *)
Definition winners (b : Bucket) : list UploadRow :=
  if negb (is_nil (po b)) then po b
  else if negb (is_nil (ship b)) then ship b
  else ups b.

(** The result built from the representative [pick] of a group. *)
Definition detailOf (k : string) (b : Bucket) (pick : UploadRow) : DetailRow :=
  if negb (is_nil (po b)) then poDetail k b pick
  else if negb (is_nil (ship b)) then shipDetail k b pick
  else upsDetail k pick.

(** The date string the rows are ordered by: a missing or empty date
    counts as the empty string. *)
Definition dateKey (r : UploadRow) : string := or_str (date r) "".

(** No row of [rows] has a date string below that of [r]. *)
Definition earliest_in (rows : list UploadRow) (r : UploadRow) : bool :=
  forallb (fun x => match String.compare (dateKey r) (dateKey x) with
                    | Gt => false
                    | _ => true
                    end) rows.

(** The tie-break rule: the row with the lexicographically least date
    string, the first such row in upload order. *)
Definition representative (rows : list UploadRow) : option UploadRow :=
  find (earliest_in rows) rows.

(** The date of the first row, in upload order, that has one. *)
Definition firstDated (rows : list UploadRow) : option string :=
  match filter (fun r => truthy (date r)) rows with
  | r :: _ => date r
  | [] => None
  end.


(** The same row with another date. *)
Definition redate (f : UploadRow -> option string) (r : UploadRow) : UploadRow :=
  {| row := row r;
     tracking := tracking r;
     poNumber := poNumber r;
     shipDocNumber := shipDocNumber r;
     vendor := vendor r;
     customer := customer r;
     date := f r;
     sourceMode := sourceMode r |}.

Definition redateBucket (f : UploadRow -> option string) (b : Bucket) : Bucket :=
  mkBucket (map (redate f) (po b)) (map (redate f) (ship b)) (map (redate f) (ups b)).

Definition redateMap (f : UploadRow -> option string) (m : JsMap Bucket) : JsMap Bucket :=
  map (fun kb => (fst kb, redateBucket f (snd kb))) m.

Definition keyVerdict (d : DetailRow) : string * string := (trackingUpload d, verdict d).


(** ** Sample uploads *)

Definition ex_po1 : UploadRow :=
  mkUploadRow 1 (Some "1Z999AA10123456784") None None (Some "Acme") None
              (Some "2024-01-07") PO.

Definition ex_po2 : UploadRow :=
  mkUploadRow 2 (Some "1z 999 aa1 012345 6784") (Some "PO-100") None None None
              (Some "2024-01-05") PO.

Definition ex_ups1 : UploadRow :=
  mkUploadRow 1 (Some "1Z-999-AA1-012345-6784") None None None None
              (Some "2024-01-09") UPS.

Definition ex_ship1 : UploadRow :=
  mkUploadRow 1 (Some "1z999aa10123456784") None (Some "SD-7") None (Some "Bolt Ltd")
              (Some "2024-01-06") ShipDocs.

Definition ex_detail : DetailRow :=
  poDetail "1Z999AA10123456784" (mkBucket [ex_po1; ex_po2] [] [ex_ups1]) ex_po2.

Definition ex_detail_po : DetailRow :=
  poDetail "1Z999AA10123456784" (mkBucket [ex_po2] [ex_ship1] [ex_ups1]) ex_po2.

(** The result expected for the PO rows [ex_po1; ex_po2] and the UPS row
    [ex_ups1]: it shows [ex_po2], the row with the earlier date. *)
Definition ex_result_earliest : DetailRow :=
  {| d_row := "trk:1Z999AA10123456784";
     d_sourceMode := PO_file;
     chosenMode := PO;
     orderNumber := "PO-100";
     partyUpload := None;
     trackingUpload := "1Z999AA10123456784";
     assertedDate := Some "2024-01-05";
     verdict := "MATCH_PO";
     reason := "Tracking appears on PO; ShipDocs/UPS duplicates suppressed";
     dayDelta := None;
     poVerdict := Some "match";
     shipVerdict := None |}.


(** The result expected for an undated PO row, an undated ShipDocs row and
    the UPS scans [cx_ups_late; cx_ups_early]: the date of the scan listed
    first. *)
Definition ex_result_borrowed : DetailRow :=
  {| d_row := "trk:1Z999AA10123456784";
     d_sourceMode := PO_file;
     chosenMode := PO;
     orderNumber := "PO-100";
     partyUpload := None;
     trackingUpload := "1Z999AA10123456784";
     assertedDate := Some "2024-01-07";
     verdict := "MATCH_PO";
     reason := "Tracking appears on PO; ShipDocs/UPS duplicates suppressed";
     dayDelta := None;
     poVerdict := Some "match";
     shipVerdict := None |}.

(** A PO row without a date and two UPS scans of the same parcel, the later
    scan listed first. *)
Definition cx_po : UploadRow :=
  mkUploadRow 1 (Some "1Z999AA10123456784") (Some "PO-100") None None None None PO.

Definition cx_ups_late : UploadRow :=
  mkUploadRow 1 (Some "1Z999AA10123456784") None None None None (Some "2024-01-07") UPS.

Definition cx_ups_early : UploadRow :=
  mkUploadRow 2 (Some "1Z999AA10123456784") None None None None (Some "2024-01-05") UPS.




End CrossFile.

(* ================================================================== *)
(** * The flexible parser (lib/parse.ts)                                *)
(* ================================================================== *)

(** A function that returns or throws an [Error] with a message. *)
Inductive result (A : Type) : Type :=
| Return (a : A)
| Throw (msg : string).

Arguments Return {A} a.
Arguments Throw {A} msg.

Module Parse.

(** One decoded row, an object: header and cell, in the order the
    properties were added, which is column order.  Cells are text
    ([dynamicTyping: false]; [defval: ""]). *)
Definition RawRow : Type := JsMap string.

(** [raw[h]] *)
Definition prop (raw : RawRow) (h : string) : option string := map_get h raw.

Module H.

Definition ORDER : list string :=
  [ "po number"; "po #"; "po no"; "po no."; "so number"; "so #"; "so no"; "so no.";
    "order number"; "order #"; "order no"; "order no."; "order"; "no."; "no";
    "document number"; "document no"; "document no."; "vendor invoice/so"; "associated so";
    "invoice number"; "invoice #"; "invoice no"; "invoice no.";
    "ship doc"; "ship doc #"; "ship doc no"; "ship doc no."; "shipdoc";
    "shipment number"; "shipment #"; "shipment no"; "shipment no." ].

Definition TRACKING : list string :=
  [ "tracking"; "tracking number"; "tracking #"; "tracking no"; "tracking no.";
    "tracking id"; "tracking code"; "tracking details"; "tracking status";
    "shipment tracking"; "ups tracking"; "carrier tracking" ].

Definition PARTY : list string :=
  [ "vendor"; "vendor name"; "supplier"; "supplier name"; "customer"; "customer name";
    "party"; "sold to"; "bill to"; "account name" ].

Definition DATE : list string :=
  [ "date"; "transaction date"; "po promise date"; "promise date"; "ship date";
    "shipment date"; "invoice date"; "asserted date"; "estimated delivery window";
    "delivery window" ].

End H.

(** [(v ?? "").toString().trim()] *)
Definition norm (v : option string) : string :=
  trim (match v with Some s => s | None => "" end).

(** [s.toLowerCase().replace(/[\s_]+/g, " ").trim()] *)
Definition keyify (s : string) : string :=
  trim (collapse (fun c => is_space c || is_underscore c) (toLowerCase s)).

Definition pickHeaders (headers : list string) (candidates : list string) : list string :=
  let map := fold_left (fun m h => map_set (keyify h) h m) headers [] in
  flat_map (fun c => if truthy (map_get c map)
                     then match map_get c map with Some real => [real] | None => [] end
                     else [])
           candidates.

(** [hs.map((h) => norm(raw[h])).find(Boolean) || undefined] *)
Definition firstCell (raw : RawRow) (hs : list string) : option string :=
  find nonempty (map (fun h => norm (prop raw h)) hs).

Definition trackingPool : list string :=
  [ "Tracking"; "Tracking Number"; "Tracking No"; "Tracking NO"; "Tracking No.";
    "Tracking #"; "Tracking Details"; "Tracking Status"; "UPS Tracking";
    "Carrier Tracking"; "Shipment Tracking" ].

Definition extractFirstTracking (raw : RawRow) : option string :=
  let pool :=
    String.concat " " (filter nonempty (map (fun k => norm (prop raw k)) trackingPool)) in
  if negb (nonempty pool) then None
  else option_map toUpperCase (match_run 10 pool).

(** [if (!orderNumber && raw[key]) orderNumber = norm(raw[key])] *)
Definition orderFallback (raw : RawRow) (orderNumber : option string) (key : string)
  : option string :=
  if negb (truthy orderNumber) && truthy (prop raw key)
  then Some (norm (prop raw key))
  else orderNumber.

Definition orderFallbackKeys : list string :=
  [ "No."; "No"; "Associated SO"; "Vendor Invoice/SO"; "Ship Doc No"; "Ship Doc No.";
    "ShipDoc"; "Shipment Number"; "Shipment No"; "Shipment No." ].

Definition dateFallbackKeys : list string :=
  [ "PO Promise date"; "Promise Date"; "Ship Date"; "Shipment Date"; "Date";
    "Estimated Delivery Window" ].

Section WithDate.

(** [Date] objects.  The range pattern and [Date.parse] are the engine's:
    [parseDateText] is what they make of a trimmed, non-empty text. *)
Variable Date : Type.
Variable parseDateText : string -> option Date.

(** [parseDateLike] on a text cell. *)
Definition parseDateLike (v : option string) : option Date :=
  match v with
  | None => None
  | Some s0 =>
      if negb (nonempty s0) then None
      else
        let s := norm v in
        if negb (nonempty s) then None else parseDateText s
  end.

Record UploadRow : Type := mkUploadRow {
  orderNumber : option string;
  partyName : option string;
  trackingNumber : option string;
  assertedDate : option Date;
  _raw : RawRow
}.

(** The first key whose cell parses to a date ([for ... break], and the
    [a || b || ... || null] chain). *)
Fixpoint firstDate (raw : RawRow) (keys : list string) : option Date :=
  match keys with
  | [] => None
  | h :: keys' =>
      match parseDateLike (prop raw h) with
      | Some d => Some d
      | None => firstDate raw keys'
      end
  end.

Record Headers : Type := mkHeaders {
  orderHeaders : list string;
  trackingHeaders : list string;
  partyHeaders : list string;
  dateHeaders : list string
}.

Definition headersOf (headers : list string) : Headers :=
  {| orderHeaders := pickHeaders headers H.ORDER;
     trackingHeaders := pickHeaders headers H.TRACKING;
     partyHeaders := pickHeaders headers H.PARTY;
     dateHeaders := pickHeaders headers H.DATE |}.

Definition orderNumberOf (hs : Headers) (raw : RawRow) : option string :=
  let o1 := fold_left (orderFallback raw) orderFallbackKeys (firstCell raw (orderHeaders hs)) in
  if truthy o1 then option_map (fun s => trim (collapse is_space s)) o1 else o1.

Definition trackingNumberOf (hs : Headers) (raw : RawRow) : option string :=
  let t0 := firstCell raw (trackingHeaders hs) in
  let t1 := if truthy t0 then t0 else extractFirstTracking raw in
  if truthy t1 then option_map toUpperCase t1 else t1.

Definition assertedDateOf (hs : Headers) (raw : RawRow) : option Date :=
  match firstDate raw (dateHeaders hs) with
  | Some d => Some d
  | None => firstDate raw dateFallbackKeys
  end.

(** The body of [for (const r of rows)]: what is pushed to [out]. *)
Definition parseRow (hs : Headers) (r : RawRow) : list UploadRow :=
  let raw := r in
  let orderNumber := orderNumberOf hs raw in
  let trackingNumber := trackingNumberOf hs raw in
  let partyName := firstCell raw (partyHeaders hs) in
  let assertedDate := assertedDateOf hs raw in
  if negb (truthy orderNumber) && negb (truthy trackingNumber) then []
  else [ {| orderNumber := orderNumber;
            partyName := partyName;
            trackingNumber := trackingNumber;
            assertedDate := assertedDate;
            _raw := raw |} ].

(** [parseFile] on the rows returned by [csvToRows] / [xlsxToRows]. *)
Definition parseFile (rows : list RawRow) : result (list UploadRow) :=
  match rows with
  | [] => Return []
  | first :: _ =>
      let headers := map fst (entries first) in
      let hs := headersOf headers in
      let out := flat_map (parseRow hs) rows in
      if CrossFile.is_nil out then
        Throw ("Missing required column(s): orderNumber or trackingNumber. Found headers: "
               ++ String.concat " | " headers)
      else Return out
  end.

(** ** Vocabulary of the statements about parsing *)

(** A row with an order number or a tracking number. *)
Definition usable (hs : Headers) (r : RawRow) : bool :=
  truthy (orderNumberOf hs r) || truthy (trackingNumberOf hs r).

(** The invariant of a parsed row. *)
Definition identified (u : UploadRow) : Prop :=
  truthy (orderNumber u) = true \/ truthy (trackingNumber u) = true.

End WithDate.

(** The headers of a sheet: [Object.keys] of its first row. *)
Definition headerRow (rows : list RawRow) : list string :=
  match rows with
  | [] => []
  | first :: _ => map fst (entries first)
  end.

(** ** Sample sheets *)

(** A sheet whose only row holds a note. *)
Definition cx_note_sheet : list (JsMap string) := [ [("Notes", "call vendor")] ].

(** A sheet whose only row has an empty order cell. *)
Definition cx_blank_sheet : list (JsMap string) :=
  [ [("PO Number", ""); ("Notes", "call vendor")] ].

(** A sheet with an order row, a row holding only a note, and a row with
    only a tracking number. *)
Definition ex_sheet : list (JsMap string) :=
  [ [("PO Number", "PO-100"); ("Tracking", ""); ("Notes", "")];
    [("PO Number", ""); ("Tracking", ""); ("Notes", "call vendor")];
    [("PO Number", ""); ("Tracking", "1z999aa10123456784"); ("Notes", "")] ].

(** A sheet whose tracking cell holds a slash, and a date parser that knows
    the one date of the samples. *)
Definition cx_slash_sheet : list (JsMap string) :=
  [ [("Tracking", "1z 999-aa1/0123456784"); ("Date", "2024-02-01")] ].

Definition ex_parseDateText (s : string) : option string :=
  if s =? "2024-02-01" then Some "2024-02-01T00:00:00.000Z" else None.

End Parse.

(* ================================================================== *)
(** * The verification route (reconcile/route.ts, lib/ot.ts)            *)
(* ================================================================== *)

Module TruthSource.

Inductive Mode : Type := PO | SO.

Definition mode_str (m : Mode) : string :=
  match m with
  | PO => "PO"
  | SO => "SO"
  end.

(** ** The order system's client *)

(** How a promise settles. *)
Inductive settled (A : Type) : Type :=
| Resolved (a : A)
| Rejected.

Arguments Resolved {A} a.
Arguments Rejected {A}.

(** [p.catch(() => null)] *)
Definition catch_null {A} (p : settled (option A)) : option A :=
  match p with
  | Resolved v => v
  | Rejected => None
  end.

(** The response bodies, as far as the route reads them.  [None] stands for
    a falsy body or an absent property. *)
Record Order : Type := mkOrder {
  o_partyName : option string;
  o_vendorName : option string;
  o_customerName : option string
}.

Record RawPackage : Type := mkRawPackage {
  p_trackingNumber : option string;
  p_tracking : option string
}.

Record Doc : Type := mkDoc {
  doc_date : option string;
  doc_shipDate : option string;
  doc_receiptDate : option string;
  doc_packages : option (list RawPackage)
}.

Record Activity : Type := mkActivity {
  docs : option (list Doc)
}.

Record Package : Type := mkPackage {
  tracking : string;
  date : option string
}.

(** [xs ?? []] *)
Definition or_nil {A} (xs : option (list A)) : list A :=
  match xs with
  | Some l => l
  | None => []
  end.

Definition extractPackages (activity : option Activity) : list Package :=
  match activity with
  | None => []
  | Some a =>
      flat_map
        (fun doc =>
           let date := nullish (doc_date doc) (nullish (doc_shipDate doc) (doc_receiptDate doc)) in
           flat_map
             (fun p =>
                let t :=
                  strip_space_hyphen
                    (toUpperCase
                       (match nullish (p_trackingNumber p) (p_tracking p) with
                        | Some s => s
                        | None => ""
                        end)) in
                if nonempty t then [ {| tracking := t; date := date |} ] else [])
             (or_nil (doc_packages doc)))
        (or_nil (docs a))
  end.

(** The client of the order system.  [getOrder] and [getActivity] perform
    HTTP requests; [findByTracking] and [extractParty] are imported by the
    route from the same module. *)
Record Client : Type := mkClient {
  getOrder : Mode -> string -> settled (option Order);
  getActivity : Mode -> string -> settled (option Activity);
  findByTracking : Mode -> string -> option string -> settled (option Activity);
  extractParty : option Activity -> option string
}.

(** ** Calls to the order system, recorded in order *)

Inductive Call : Type :=
| CallGetOrder (mode : Mode) (orderNumber : string)
| CallGetActivity (mode : Mode) (orderNumber : string)
| CallFindByTracking (mode : Mode) (tracking : string) (hint : option string).

Definition IO (A : Type) : Type := (A * list Call)%type.

Definition ret {A} (a : A) : IO A := (a, []).

Definition bind {A B} (m : IO A) (k : A -> IO B) : IO B :=
  let (b, t) := k (fst m) in (b, (snd m ++ t)%list).

Definition value {A} (m : IO A) : A := fst m.
Definition calls {A} (m : IO A) : list Call := snd m.

Notation "x <- m ;; k" := (bind m (fun x => k))
  (at level 61, m at next level, right associativity).

Definition await_getOrder (ot : Client) (mode : Mode) (n : string) : IO (settled (option Order)) :=
  (getOrder ot mode n, [CallGetOrder mode n]).

Definition await_getActivity (ot : Client) (mode : Mode) (n : string)
  : IO (settled (option Activity)) :=
  (getActivity ot mode n, [CallGetActivity mode n]).

Definition await_findByTracking (ot : Client) (mode : Mode) (t : string) (hint : option string)
  : IO (settled (option Activity)) :=
  (findByTracking ot mode t hint, [CallFindByTracking mode t hint]).

(** ** The score table *)

Definition SCORE (v : string) : option nat :=
  if v =? "OK" then Some 3
  else if v =? "MISMATCH" then Some 2
  else if v =? "NOT_FOUND" then Some 1
  else if v =? "ERROR" then Some 0
  else None.

(** [SCORE[v] ?? 0] *)
Definition score (v : string) : nat :=
  match SCORE v with
  | Some n => n
  | None => 0
  end.

Section Route.

(** [Date] objects with [toISOString] (the dates of parsed rows are valid
    dates), and the decision function of lib/decide, a pure function. *)
Variable Date : Type.
Variable toISOString : Date -> string.

Record Row : Type := mkRow {
  orderNumber : option string;
  partyName : option string;
  trackingNumber : option string;
  assertedDate : option Date;
  sourceMode : option Mode
}.

Record DecideInput : Type := mkDecideInput {
  di_mode : Mode;
  di_partyUpload : option string;
  di_trackingUpload : option string;
  di_assertedDate : option Date;
  orderExists : bool;
  packages : list Package;
  partyOT : option string
}.

Record Decision : Type := mkDecision {
  dec_verdict : string;
  dec_reason : option string;
  dec_dayDelta : option Z
}.

Variable decide : DecideInput -> Decision.

Record ModeResult : Type := mkModeResult {
  mode : Mode;
  verdict : string;
  reason : string;
  dayDelta : option Z
}.

(** [d.toISOString().slice(0, 10)] *)
Definition isoDay (d : Date) : string := slice0 10 (toISOString d).

(** The lookups of [reconcileOne]: [orderExists], [packages], [partyOT]. *)
Definition lookup (ot : Client) (mode : Mode) (r : Row)
  : IO (bool * list Package * option string) :=
  if truthy (orderNumber r) then
    let n := or_str (orderNumber r) "" in
    p <- await_getOrder ot mode n ;;
    let order := catch_null p in
    let orderExists := match order with Some _ => true | None => false end in
    let partyOT :=
      match order with
      | Some o => nullish (o_partyName o) (nullish (o_vendorName o) (o_customerName o))
      | None => None
      end in
    activity <- (if orderExists
                 then (q <- await_getActivity ot mode n ;; ret (catch_null q))
                 else ret None) ;;
    ret (orderExists, extractPackages activity, partyOT)
  else if truthy (trackingNumber r) then
    let tracking := strip_space_hyphen (toUpperCase (or_str (trackingNumber r) "")) in
    q <- await_findByTracking ot mode tracking (option_map isoDay (assertedDate r)) ;;
    let activity := catch_null q in
    let packages := extractPackages activity in
    ret (negb (CrossFile.is_nil packages), packages, extractParty ot activity)
  else ret (false, [], None).

Definition reconcileOne (ot : Client) (mode : Mode) (r : Row) : IO ModeResult :=
  found <- lookup ot mode r ;;
  let '(orderExists, packages, partyOT) := found in
  let ver :=
    decide {| di_mode := mode;
              di_partyUpload := partyName r;
              di_trackingUpload := trackingNumber r;
              di_assertedDate := assertedDate r;
              orderExists := orderExists;
              packages := packages;
              partyOT := partyOT |} in
  ret {| mode := mode;
         verdict := dec_verdict ver;
         reason := match dec_reason ver with Some s => s | None => "" end;
         dayDelta := dec_dayDelta ver |}.

(** ** The loop of [POST] *)

(** What [await reconcileOne(mode, r)] gives inside the [try] of the loop:
    a result, or the value thrown, of which the [catch] reads the
    [message]. *)
Inductive Outcome : Type :=
| Returned (res : ModeResult)
| Threw (message : option string).

(** [reconcileOne] has no [try]: it throws when [extractPackages] meets an
    answer of the order system that it cannot iterate or read, and when
    [extractParty] or [decide] throws.  Each of these comes after the
    requests of the evaluation.  [thrown ot mode r] tells whether the
    evaluation of [r] under [mode] throws, and then the [message] of the
    value thrown ([None] when it has none). *)
Variable thrown : Client -> Mode -> Row -> option (option string).

Definition attempt (ot : Client) (mode : Mode) (r : Row) : IO Outcome :=
  match thrown ot mode r with
  | Some message => (Threw message, calls (lookup ot mode r))
  | None => res <- reconcileOne ot mode r ;; ret (Returned res)
  end.

(** The two evaluations inside [try]: both results, or the message of the
    value thrown by the first evaluation that throws; the second evaluation
    is not made when the first one throws. *)
Definition attempts (ot : Client) (first second : Mode) (r : Row)
  : IO (ModeResult * ModeResult + option string) :=
  a <- attempt ot first r ;;
  match a with
  | Threw message => ret (inr message)
  | Returned resFirst =>
      b <- attempt ot second r ;;
      match b with
      | Threw message => ret (inr message)
      | Returned resSecond => ret (inl (resFirst, resSecond))
      end
  end.

(** One entry of [details].  [None] stands for a key that the object
    literal does not have, except in [chosenMode], where it stands for
    [""]. *)
Record Detail : Type := mkDetail {
  d_row : nat;
  d_sourceMode : option string;
  chosenMode : option Mode;
  d_orderNumber : string;
  partyUpload : string;
  trackingUpload : string;
  d_assertedDate : string;
  d_verdict : string;
  d_reason : string;
  d_dayDelta : option (option Z);
  poVerdict : option string;
  soVerdict : option string
}.

(** [(SCORE[resOther.verdict] ?? 0) > (SCORE[resPref.verdict] ?? 0)
      ? resOther : resPref] *)
Definition pick (resPref resOther : ModeResult) : ModeResult :=
  if (score (verdict resPref) <? score (verdict resOther))%nat then resOther else resPref.

Definition preferOf (r : Row) : Mode :=
  match sourceMode r with
  | Some m => m
  | None => PO
  end.

Definition otherOf (prefer : Mode) : Mode :=
  match prefer with
  | PO => SO
  | SO => PO
  end.

(** The body of the loop of the two-file [POST] at index [i]: the [try]
    block and its [catch]. *)
Definition reconcileRow (ot : Client) (i : nat) (r : Row) : IO Detail :=
  let prefer := preferOf r in
  let other := otherOf prefer in
  tried <- attempts ot prefer other r ;;
  match tried with
  | inl (resPref, resOther) =>
      let pick := pick resPref resOther in
      ret {| d_row := i + 1;
             d_sourceMode :=
               Some (match sourceMode r with Some m => mode_str m | None => "" end);
             chosenMode := Some (mode pick);
             d_orderNumber := or_str' (orderNumber r);
             partyUpload := or_str' (partyName r);
             trackingUpload := or_str' (trackingNumber r);
             d_assertedDate := match assertedDate r with Some d => isoDay d | None => "" end;
             d_verdict := verdict pick;
             d_reason := reason pick;
             d_dayDelta := Some (dayDelta pick);
             poVerdict :=
               Some (match mode resPref with PO => verdict resPref | SO => verdict resOther end);
             soVerdict :=
               Some (match mode resPref with SO => verdict resPref | PO => verdict resOther end)
          |}
  | inr message =>
      ret {| d_row := i + 1;
             d_sourceMode :=
               Some (match sourceMode r with Some m => mode_str m | None => "" end);
             chosenMode := None;
             d_orderNumber := or_str' (orderNumber r);
             partyUpload := or_str' (partyName r);
             trackingUpload := or_str' (trackingNumber r);
             d_assertedDate := match assertedDate r with Some d => isoDay d | None => "" end;
             d_verdict := "ERROR";
             d_reason := match message with Some m => m | None => "Unknown error" end;
             d_dayDelta := None;
             poVerdict := None;
             soVerdict := None |}
  end.

(** A key written only when the object literal has it. *)
Definition opt_field {A} (k : string) (f : A -> json) (v : option A) : jobject :=
  match v with
  | Some a => [(k, f a)]
  | None => []
  end.

(** An entry of [details] as serialized by [Response.json]. *)
Definition detailJson (d : Detail) : jobject :=
  ([ ("row", JNumber (Z.of_nat (d_row d))) ]
   ++ opt_field "sourceMode" JString (d_sourceMode d)
   ++ [ ("chosenMode", JString (match chosenMode d with Some m => mode_str m | None => "" end));
        ("orderNumber", JString (d_orderNumber d));
        ("partyUpload", JString (partyUpload d));
        ("trackingUpload", JString (trackingUpload d));
        ("assertedDate", JString (d_assertedDate d));
        ("verdict", JString (d_verdict d));
        ("reason", JString (d_reason d)) ]
   ++ opt_field "dayDelta" json_num_or_null (d_dayDelta d)
   ++ opt_field "poVerdict" JString (poVerdict d)
   ++ opt_field "soVerdict" JString (soVerdict d))%list.

(** The loop of [POST]: [details], in row order. *)
Fixpoint reconcileRows (ot : Client) (i : nat) (rows : list Row) : IO (list Detail) :=
  match rows with
  | [] => ret []
  | r :: rows' =>
      d <- reconcileRow ot i r ;;
      ds <- reconcileRows ot (S i) rows' ;;
      ret (d :: ds)
  end.

(** [counts[v] = (counts[v] ?? 0) + 1] *)
Definition bump (counts : JsMap nat) (v : string) : JsMap nat :=
  map_set v (match map_get v counts with Some n => n | None => 0 end + 1) counts.

Definition summaryOf (details : list Detail) : JsMap nat :=
  fold_left (fun counts d => bump counts (d_verdict d)) details [].

Inductive Response : Type :=
| Status400 (body : string)
| Status500 (body : string)
| Status200 (summary : JsMap nat) (details : list Detail).

Variable parseDateText : string -> option Date.

(** [parseAndTag]: the rows of a file, tagged with the role of its field. *)
Definition parseAndTag (file : option (list Parse.RawRow)) (tag : Mode)
  : result (list Row) :=
  match file with
  | None => Return []
  | Some sheet =>
      match Parse.parseFile parseDateText sheet with
      | Throw msg => Throw msg
      | Return parsed =>
          Return (map (fun u => {| orderNumber := Parse.orderNumber u;
                                   partyName := Parse.partyName u;
                                   trackingNumber := Parse.trackingNumber u;
                                   assertedDate := Parse.assertedDate u;
                                   sourceMode := Some tag |})
                      parsed)
      end
  end.

(** [POST] of the two-file route, on the decoded sheets of the files
    present in the form. *)
Definition POST (ot : Client) (poFile soFile : option (list Parse.RawRow)) : IO Response :=
  match poFile, soFile with
  | None, None => ret (Status400 "Upload at least one file: 'poFile' and/or 'soFile'")
  | _, _ =>
      match parseAndTag poFile PO with
      | Throw msg => ret (Status500 ("Fatal error: " ++ msg))
      | Return poRows =>
          match parseAndTag soFile SO with
          | Throw msg => ret (Status500 ("Fatal error: " ++ msg))
          | Return soRows =>
              let rows := (poRows ++ soRows)%list in
              if CrossFile.is_nil rows then ret (Status400 "No data rows found in uploads.")
              else
                details <- reconcileRows ot 0 rows ;;
                ret (Status200 (summaryOf details) details)
          end
      end
  end.

End Route.

(** ** Sample order systems and rows *)

(** Dates as their ISO timestamps. *)
Definition ex_toISOString (d : string) : string := d.

(** An order system that is down: every request is rejected. *)
Definition downClient : Client :=
  {| getOrder := fun _ _ => Rejected;
     getActivity := fun _ _ => Rejected;
     findByTracking := fun _ _ _ => Rejected;
     extractParty := fun _ => None |}.

(** An order system that answers and knows no order and no parcel. *)
Definition emptyClient : Client :=
  {| getOrder := fun _ _ => Resolved None;
     getActivity := fun _ _ => Resolved None;
     findByTracking := fun _ _ _ => Resolved None;
     extractParty := fun _ => None |}.

(** An order system that knows the order only as a sales order. *)
Definition soOnlyClient : Client :=
  {| getOrder := fun mode _ =>
       match mode with
       | PO => Resolved None
       | SO => Resolved (Some (mkOrder None None (Some "Acme")))
       end;
     getActivity := fun _ _ => Resolved None;
     findByTracking := fun _ _ _ => Resolved None;
     extractParty := fun _ => None |}.

(** A decision function that reports [NOT_FOUND] when nothing exists and
    [OK] otherwise. *)
Definition ex_decide (i : DecideInput string) : Decision :=
  if orderExists i then mkDecision "OK" None None
  else mkDecision "NOT_FOUND" (Some "not found") None.


(** No evaluation throws. *)
Definition ex_no_throw (_ : Client) (_ : Mode) (_ : Row string) : option (option string) :=
  None.

(** Every evaluation as a sales order throws an error. *)
Definition ex_so_throws (_ : Client) (mode : Mode) (_ : Row string)
  : option (option string) :=
  match mode with
  | PO => None
  | SO => Some (Some "docs is not iterable")
  end.

Definition ex_order_row : Row string :=
  {| orderNumber := Some "PO-200";
     partyName := Some "Acme";
     trackingNumber := None;
     assertedDate := Some "2024-02-01T00:00:00.000Z";
     sourceMode := Some PO |}.

Definition ex_undated_row : Row string :=
  {| orderNumber := Some "SO-7";
     partyName := None;
     trackingNumber := None;
     assertedDate := None;
     sourceMode := Some SO |}.


Definition ex_tracking_row : Row string :=
  {| orderNumber := None;
     partyName := None;
     trackingNumber := Some "1Z 999-AA1/0123456784";
     assertedDate := Some "2024-02-01T00:00:00.000Z";
     sourceMode := None |}.

End TruthSource.

(* ================================================================== *)
(** * The single-file verification route (route.ts, one upload)         *)
(* ================================================================== *)

Module SingleFile.

Import TruthSource.

Section Route.

Variable Date : Type.
Variable toISOString : Date -> string.
Variable decide : DecideInput Date -> Decision.
Variable thrown : Client -> Mode -> Row Date -> option (option string).
Variable parseDateText : string -> option Date.

Inductive Response : Type :=
| Status400 (body : string)
| Status200 (summary : JsMap nat) (details : list Detail).

(** A parsed row as the loop reads it: it has no [sourceMode]. *)
Definition rowOf (u : Parse.UploadRow Date) : Row Date :=
  {| orderNumber := Parse.orderNumber u;
     partyName := Parse.partyName u;
     trackingNumber := Parse.trackingNumber u;
     assertedDate := Parse.assertedDate u;
     sourceMode := None |}.

(** The body of the loop at index [i]: the [try] block, which evaluates the
    row as a purchase order and then as a sales order, and its [catch].  The
    object literals have no [sourceMode]. *)
Definition reconcileRow (ot : Client) (i : nat) (r : Row Date) : IO Detail :=
  tried <- attempts toISOString decide thrown ot PO SO r ;;
  match tried with
  | inl (resPO, resSO) =>
      let pick :=
        if (score (verdict resPO) <? score (verdict resSO))%nat then resSO else resPO in
      ret {| d_row := i + 1;
             d_sourceMode := None;
             chosenMode := Some (mode pick);
             d_orderNumber := or_str' (orderNumber r);
             partyUpload := or_str' (partyName r);
             trackingUpload := or_str' (trackingNumber r);
             d_assertedDate :=
               match assertedDate r with Some d => isoDay toISOString d | None => "" end;
             d_verdict := verdict pick;
             d_reason := reason pick;
             d_dayDelta := Some (dayDelta pick);
             poVerdict := Some (verdict resPO);
             soVerdict := Some (verdict resSO) |}
  | inr message =>
      ret {| d_row := i + 1;
             d_sourceMode := None;
             chosenMode := None;
             d_orderNumber := or_str' (orderNumber r);
             partyUpload := or_str' (partyName r);
             trackingUpload := or_str' (trackingNumber r);
             d_assertedDate :=
               match assertedDate r with Some d => isoDay toISOString d | None => "" end;
             d_verdict := "ERROR";
             d_reason := match message with Some m => m | None => "Unknown error" end;
             d_dayDelta := None;
             poVerdict := None;
             soVerdict := None |}
  end.

(** The loop of [POST]: [details], in row order. *)
Fixpoint reconcileRows (ot : Client) (i : nat) (rows : list (Row Date)) : IO (list Detail) :=
  match rows with
  | [] => ret []
  | r :: rows' =>
      d <- reconcileRow ot i r ;;
      ds <- reconcileRows ot (S i) rows' ;;
      ret (d :: ds)
  end.

(** [POST] on the decoded sheet of the form field [file], when present. *)
Definition POST (ot : Client) (file : option (list Parse.RawRow)) : IO Response :=
  match file with
  | None => ret (Status400 "Missing file (form field 'file')")
  | Some sheet =>
      match Parse.parseFile parseDateText sheet with
      | Throw msg => ret (Status400 ("Parse error: " ++ msg))
      | Return rows =>
          details <- reconcileRows ot 0 (map rowOf rows) ;;
          ret (Status200 (summaryOf details) details)
      end
  end.

End Route.

End SingleFile.

(* ================================================================== *)
(** * The strict parser (the earlier lib/parse.ts)                      *)
(* ================================================================== *)

Module StrictParse.

Import TruthSource.

Definition RawRow : Type := JsMap string.

Inductive Field : Type := F_orderNumber | F_partyName | F_trackingNumber | F_assertedDate.

Definition HEADER_MAP : JsMap Field :=
  [ ("ordernumber", F_orderNumber); ("order #", F_orderNumber); ("order", F_orderNumber);
    ("po", F_orderNumber); ("ponumber", F_orderNumber); ("po number", F_orderNumber);
    ("so", F_orderNumber); ("sonumber", F_orderNumber); ("so number", F_orderNumber);
    ("invoice", F_orderNumber); ("invoicenumber", F_orderNumber);
    ("invoice number", F_orderNumber); ("document", F_orderNumber);
    ("documentnumber", F_orderNumber);
    ("party", F_partyName); ("partyname", F_partyName); ("vendor", F_partyName);
    ("vendorname", F_partyName); ("customer", F_partyName); ("customername", F_partyName);
    ("tracking", F_trackingNumber); ("trackingnumber", F_trackingNumber);
    ("tracking number", F_trackingNumber); ("trk", F_trackingNumber);
    ("date", F_assertedDate); ("shipdate", F_assertedDate); ("ship date", F_assertedDate);
    ("invoicedate", F_assertedDate); ("invoice date", F_assertedDate);
    ("receiveddate", F_assertedDate); ("receiptdate", F_assertedDate) ].

(** [h.toLowerCase().replace(/[^a-z0-9]+/g, " ").trim()] *)
Definition normalizeHeader (h : string) : string :=
  trim (collapse (fun c => negb (is_lower c || is_digit c)) (toLowerCase h)).

(** [mapping]: standard key to original header. *)
Record Mapping : Type := mkMapping {
  m_orderNumber : option string;
  m_partyName : option string;
  m_trackingNumber : option string;
  m_assertedDate : option string
}.

Definition setField (std : Field) (h : string) (m : Mapping) : Mapping :=
  match std with
  | F_orderNumber => mkMapping (Some h) (m_partyName m) (m_trackingNumber m) (m_assertedDate m)
  | F_partyName => mkMapping (m_orderNumber m) (Some h) (m_trackingNumber m) (m_assertedDate m)
  | F_trackingNumber => mkMapping (m_orderNumber m) (m_partyName m) (Some h) (m_assertedDate m)
  | F_assertedDate => mkMapping (m_orderNumber m) (m_partyName m) (m_trackingNumber m) (Some h)
  end.

Definition mapHeaders (rawHeaders : list string) : Mapping :=
  fold_left
    (fun mapping h =>
       match map_get (normalizeHeader h) HEADER_MAP with
       | Some std => setField std h mapping
       | None => mapping
       end)
    rawHeaders (mkMapping None None None None).

(** [r[h]] where [h] may be [undefined] (the property named "undefined"). *)
Definition cell (r : RawRow) (h : option string) : option string :=
  map_get (match h with Some h => h | None => "undefined" end) r.

(** The order cell of a row, as the strict parser reads it. *)
Definition orderCell (map : Mapping) (r : RawRow) : string :=
  trim (or_str' (nullish (cell r (m_orderNumber map))
                         (nullish (map_get "orderNumber" r) (Some "")))).

Definition decimal (n : nat) : string :=
  DecimalString.NilEmpty.string_of_uint (Nat.to_uint n).

Section WithDate.

Variable Date : Type.
Variable newDate : string -> Date.

Record UploadRow : Type := mkUploadRow {
  mode : Mode;
  orderNumber : string;
  partyName : option string;
  trackingNumber : option string;
  assertedDate : option Date
}.

(** The callback of [rows.map((r, idx) => ...)]. *)
Definition parseRow (map : Mapping) (mode : Mode) (idx : nat) (r : RawRow) : result UploadRow :=
  let orderNumber :=
    trim (or_str' (nullish (cell r (m_orderNumber map))
                           (nullish (map_get "orderNumber" r) (Some "")))) in
  if negb (nonempty orderNumber) then
    Throw ("Row " ++ decimal (idx + 1) ++ ": missing orderNumber")
  else
    let partyName :=
      or_null (Some (trim (or_str' (nullish (cell r (m_partyName map))
                                            (nullish (map_get "partyName" r) (Some "")))))) in
    let trackingNumber :=
      or_null (Some (trim (or_str' (nullish (cell r (m_trackingNumber map))
                                            (nullish (map_get "trackingNumber" r) (Some "")))))) in
    let rawDate := nullish (cell r (m_assertedDate map)) (map_get "assertedDate" r) in
    let assertedDate := if truthy rawDate then option_map newDate rawDate else None in
    Return {| mode := mode;
              orderNumber := orderNumber;
              partyName := partyName;
              trackingNumber := trackingNumber;
              assertedDate := assertedDate |}.

Fixpoint mapRows (map : Mapping) (mode : Mode) (idx : nat) (rows : list RawRow)
  : result (list UploadRow) :=
  match rows with
  | [] => Return []
  | r :: rows' =>
      match parseRow map mode idx r with
      | Throw msg => Throw msg
      | Return u =>
          match mapRows map mode (S idx) rows' with
          | Throw msg => Throw msg
          | Return us => Return (u :: us)
          end
      end
  end.

(** [parseFile] once the sheet is read: [headers] is the header row,
    [rows] the decoded rows. *)
Definition parseFile (headers : list string) (rows : list RawRow) (mode : Mode)
  : result (list UploadRow) :=
  if CrossFile.is_nil rows then Throw "No data rows found."
  else
    let map := mapHeaders headers in
    if negb (truthy (m_orderNumber map)) then
      Throw ("Missing required column(s): "
             ++ "orderNumber (poNumber/soNumber/invoiceNumber also OK)"
             ++ ". Found headers: " ++ String.concat " | " headers)
    else mapRows map mode 0 rows.

End WithDate.

End StrictParse.

(* ================================================================== *)
(** * Vocabulary of the further statements                              *)
(* ================================================================== *)

Module Vocabulary.

(** A digit or an upper-case letter. *)
Definition is_upper_digit (c : ascii) : bool := is_digit c || is_upper c.

(** The distinct non-empty strings of a list, each at its first
    occurrence. *)
Fixpoint firstKeys (ks : list string) : list string :=
  match ks with
  | [] => []
  | k :: ks' =>
      if nonempty k
      then k :: filter (fun x => negb (x =? k)) (firstKeys ks')
      else firstKeys ks'
  end.


(** The shape of a UPS tracking number as the parsers return it: ["1Z"] and
    at least sixteen more characters, all digits or upper-case letters. *)
Definition ups_shaped (t : string) : Prop :=
  exists rest,
    t = String "1" (String "Z" rest) /\
    16 <= String.length rest /\
    sforall is_upper_digit rest = true.

(** Every whitespace character is one space, and no two are adjacent;
    [prev] tells whether the character before was whitespace. *)
Fixpoint spaced (prev : bool) (s : string) : bool :=
  match s with
  | EmptyString => true
  | String c s' =>
      if is_space c then negb prev && (code c =? 32)%nat && spaced true s'
      else spaced false s'
  end.

(** Whitespace in normal form: every whitespace character is a single
    space between two other characters. *)
Fixpoint single_spaced_from (prev_space : bool) (s : string) : bool :=
  match s with
  | EmptyString => negb prev_space
  | String c s' =>
      if is_space c
      then negb prev_space && (code c =? 32)%nat && single_spaced_from true s'
      else single_spaced_from false s'
  end.

Definition single_spaced (s : string) : bool :=
  match s with
  | EmptyString => true
  | _ => single_spaced_from true s
  end.

Definition Field_eqb (a b : StrictParse.Field) : bool :=
  match a, b with
  | StrictParse.F_orderNumber, StrictParse.F_orderNumber
  | StrictParse.F_partyName, StrictParse.F_partyName
  | StrictParse.F_trackingNumber, StrictParse.F_trackingNumber
  | StrictParse.F_assertedDate, StrictParse.F_assertedDate => true
  | _, _ => false
  end.

(** [mapping[f]] *)
Definition fieldOf (f : StrictParse.Field) (m : StrictParse.Mapping) : option string :=
  match f with
  | StrictParse.F_orderNumber => StrictParse.m_orderNumber m
  | StrictParse.F_partyName => StrictParse.m_partyName m
  | StrictParse.F_trackingNumber => StrictParse.m_trackingNumber m
  | StrictParse.F_assertedDate => StrictParse.m_assertedDate m
  end.

(** The header [h] is a name of field [f]. *)
Definition names (f : StrictParse.Field) (h : string) : bool :=
  match map_get (StrictParse.normalizeHeader h) StrictParse.HEADER_MAP with
  | Some g => Field_eqb g f
  | None => false
  end.

(** A lower-case letter, a digit or a space. *)
Definition is_key_char (c : ascii) : bool :=
  is_lower c || is_digit c || (code c =? 32)%nat.

(** The mode under which a row is evaluated first: the one it declares,
    PO when it declares none. *)
Definition declared {Date} (r : TruthSource.Row Date) : TruthSource.Mode :=
  match TruthSource.sourceMode r with
  | Some m => m
  | None => TruthSource.PO
  end.

(** The other mode. *)
Definition opposite (m : TruthSource.Mode) : TruthSource.Mode :=
  match m with
  | TruthSource.PO => TruthSource.SO
  | TruthSource.SO => TruthSource.PO
  end.

(** The ranks of the verdicts, as the specification gives them. *)
Inductive ranked : string -> nat -> Prop :=
| rank_OK : ranked "OK" 3
| rank_MISMATCH : ranked "MISMATCH" 2
| rank_NOT_FOUND : ranked "NOT_FOUND" 1
| rank_ERROR : ranked "ERROR" 0.





End Vocabulary.

Import Vocabulary.

(* ================================================================== *)
(** * Facts about the JavaScript primitives                             *)
(* ================================================================== *)

Section StringOrder.

Lemma ascii_compare_refl (a : ascii) : Ascii.compare a a = Eq.
Proof. unfold Ascii.compare. apply N.compare_refl. Qed.

Lemma ascii_compare_lt_trans (a b c : ascii) :
  Ascii.compare a b = Lt -> Ascii.compare b c = Lt -> Ascii.compare a c = Lt.
Proof.
  unfold Ascii.compare. rewrite !N.compare_lt_iff. apply N.lt_trans.
Qed.

(** The code-unit order on strings is transitive. *)
Lemma string_compare_le_trans (s1 : string) :
  forall s2 s3,
    String.compare s1 s2 <> Gt -> String.compare s2 s3 <> Gt ->
    String.compare s1 s3 <> Gt.
Proof.
  induction s1 as [| a s1 IH]; intros [| b s2] [| c s3]; simpl; try congruence.
  destruct (Ascii.compare a b) eqn:Hab; try congruence;
    destruct (Ascii.compare b c) eqn:Hbc; try congruence; intros H12 H23.
  - apply Ascii.compare_eq_iff in Hab, Hbc. subst.
    rewrite ascii_compare_refl. eauto.
  - apply Ascii.compare_eq_iff in Hab. subst. now rewrite Hbc.
  - apply Ascii.compare_eq_iff in Hbc. subst. now rewrite Hab.
  - now rewrite (ascii_compare_lt_trans _ _ _ Hab Hbc).
Qed.

End StringOrder.

Section SortFacts.

Local Open Scope list_scope.

Variable A : Type.
Variable cmp : A -> A -> comparison.

Lemma insert_not_nil (x : A) (l : list A) : insert cmp x l <> [].
Proof. destruct l as [| y l]; simpl; [| destruct (cmp x y)]; discriminate. Qed.

Lemma sort_nil_inv (l : list A) : sort cmp l = [] -> l = [].
Proof.
  destruct l as [| x l]; simpl; auto.
  intros H. now apply insert_not_nil in H.
Qed.

Lemma insert_perm (x : A) (l : list A) : Permutation (x :: l) (insert cmp x l).
Proof.
  induction l as [| y l IH]; simpl; auto.
  destruct (cmp x y); auto.
  rewrite perm_swap. now constructor.
Qed.

Lemma sort_perm (l : list A) : Permutation l (sort cmp l).
Proof.
  induction l as [| x l IH]; simpl; auto.
  rewrite <- insert_perm. now constructor.
Qed.

Lemma sort_In (l : list A) (x : A) : In x (sort cmp l) <-> In x l.
Proof.
  split; apply Permutation_in; [symmetry |]; apply sort_perm.
Qed.

(** The sort is stable: its first element stands in the array after
    elements that are all strictly above it. *)
Lemma sort_head_first (l : list A) (pick : A) (rest : list A) :
  sort cmp l = pick :: rest ->
  exists before after,
    l = before ++ pick :: after /\ forall y, In y before -> cmp y pick = Gt.
Proof.
  revert pick rest. induction l as [| x l IH]; simpl; intros pick rest E; [discriminate |].
  destruct (sort cmp l) as [| h t] eqn:Es.
  - apply sort_nil_inv in Es. subst l. simpl in E. injection E as <- _.
    exists [], []. split; [reflexivity | intros y []].
  - simpl in E. destruct (IH h t eq_refl) as (before & after & -> & Hb).
    destruct (cmp x h) eqn:Hxh; injection E as <- _.
    + exists [], (before ++ h :: after). split; [reflexivity | intros y []].
    + exists [], (before ++ h :: after). split; [reflexivity | intros y []].
    + exists (x :: before), after. split; [reflexivity |].
      intros y [<- | Hy]; auto.
Qed.

Hypothesis cmp_trans :
  forall x y z, cmp x y <> Gt -> cmp y z <> Gt -> cmp x z <> Gt.
Hypothesis cmp_gt_lt : forall x y, cmp x y = Gt -> cmp y x <> Gt.
Hypothesis cmp_refl : forall x, cmp x x <> Gt.

Lemma insert_head_least (x : A) (l : list A) :
  head_least cmp l -> head_least cmp (insert cmp x l).
Proof.
  destruct l as [| h t]; simpl.
  - intros _ y [<- | []]. apply cmp_refl.
  - intros Hh. destruct (cmp x h) eqn:Hxh; simpl.
    + intros y [<- | Hy]; [apply cmp_refl |].
      apply cmp_trans with h; [congruence | now apply Hh].
    + intros y [<- | Hy]; [apply cmp_refl |].
      apply cmp_trans with h; [congruence | now apply Hh].
    + intros y [<- | Hy]; [apply cmp_refl |].
      apply (Permutation_in _ (Permutation_sym (insert_perm x t))) in Hy.
      destruct Hy as [<- | Hy]; [now apply cmp_gt_lt |].
      apply Hh. now right.
Qed.

Lemma sort_head_least (l : list A) : head_least cmp (sort cmp l).
Proof.
  induction l as [| x l IH]; simpl; [exact I |].
  now apply insert_head_least.
Qed.

(** The first element of the sorted array is an element of the array that
    no element precedes. *)
Lemma sort_head (l : list A) (pick : A) (rest : list A) :
  sort cmp l = pick :: rest ->
  In pick l /\ forall y, In y l -> cmp pick y <> Gt.
Proof.
  intros E. split.
  - apply sort_In. rewrite E. now left.
  - intros y Hy. pose proof (sort_head_least l) as H. rewrite E in H.
    apply H. rewrite <- E. now apply sort_In.
Qed.

End SortFacts.

Section MapFacts.

Variable V : Type.
Implicit Types (m : JsMap V) (k : string) (v : V).

Lemma map_get_None m k : map_get k m = None <-> ~ In k (map fst m).
Proof.
  induction m as [| [k' v'] m IH]; simpl; [tauto |].
  destruct (String.eqb_spec k' k) as [-> | Hne].
  - split; [discriminate | tauto].
  - rewrite IH. tauto.
Qed.

Lemma map_get_In m k v : map_get k m = Some v -> In (k, v) m.
Proof.
  induction m as [| [k' v'] m IH]; simpl; [discriminate |].
  destruct (String.eqb_spec k' k) as [-> | Hne]; [intros [= <-]; now left | auto].
Qed.

Lemma map_set_keys m k v x :
  In x (map fst (map_set k v m)) <-> x = k \/ In x (map fst m).
Proof.
  induction m as [| [k' v'] m IH]; simpl; [intuition congruence |].
  destruct (String.eqb_spec k' k) as [-> | Hne]; simpl;
    [| rewrite IH]; intuition congruence.
Qed.

Lemma map_set_NoDup m k v : NoDup (map fst m) -> NoDup (map fst (map_set k v m)).
Proof.
  induction m as [| [k' v'] m IH]; simpl; intros Hnd.
  - constructor; [tauto | constructor].
  - inversion_clear Hnd as [| ? ? Hk' Hnd'].
    destruct (String.eqb_spec k' k) as [-> | Hne]; simpl.
    + now constructor.
    + constructor; [| auto]. rewrite map_set_keys. intros [-> | H]; tauto.
Qed.

Lemma map_set_In m k v k' v' :
  NoDup (map fst m) ->
  In (k', v') (map_set k v m) ->
  (k' = k /\ v' = v) \/ (k' <> k /\ In (k', v') m).
Proof.
  induction m as [| [k0 v0] m IH]; simpl; intros Hnd.
  - intros [[= <- <-] | []]. now left.
  - inversion_clear Hnd as [| ? ? Hk0 Hnd'].
    destruct (String.eqb_spec k0 k) as [-> | Hne]; simpl.
    + intros [[= <- <-] | H]; [now left |].
      right. split; [| now right].
      intros ->. apply Hk0. now apply (in_map fst) in H.
    + intros [[= <- <-] | H]; [right; split; [congruence | now left] |].
      destruct (IH Hnd' H) as [? | [? ?]]; [now left | right; split; auto].
Qed.

End MapFacts.

(* ================================================================== *)
(** * The cross-file merge: grouping                                    *)
(* ================================================================== *)

Module CrossFileFacts.

Import CrossFile.
Local Open Scope list_scope.

Lemma SourceMode_eqb_eq (a b : SourceMode) : SourceMode_eqb a b = true <-> a = b.
Proof. destruct a, b; simpl; split; congruence. Qed.

Lemma sel_true (k : string) (mode : SourceMode) (r : UploadRow) :
  sel k mode r = true <-> keyOf r = k /\ sourceMode r = mode.
Proof.
  unfold sel. now rewrite andb_true_iff, String.eqb_eq, SourceMode_eqb_eq.
Qed.

Lemma sel_other_key (k : string) (mode : SourceMode) (r : UploadRow) :
  keyOf r <> k -> sel k mode r = false.
Proof.
  intros H. unfold sel. apply String.eqb_neq in H. now rewrite H.
Qed.

Lemma filter_snoc {A} (f : A -> bool) (l : list A) (x : A) :
  filter f (l ++ [x]) = filter f l ++ (if f x then [x] else []).
Proof. now rewrite filter_app. Qed.

Lemma filter_all_false {A} (f : A -> bool) (l : list A) :
  (forall x, In x l -> f x = false) -> filter f l = [].
Proof.
  induction l as [| x l IH]; simpl; intros H; auto.
  rewrite (H x) by now left. apply IH. intros y Hy. apply H. now right.
Qed.

Lemma filter_nonempty {A} (f : A -> bool) (l : list A) :
  filter f l <> [] <-> exists x, In x l /\ f x = true.
Proof.
  split.
  - destruct (filter f l) as [| x t] eqn:E; [congruence | intros _].
    exists x. apply filter_In. rewrite E. now left.
  - intros (x & Hx & Hf) E.
    assert (In x (filter f l)) as H by now apply filter_In.
    now rewrite E in H.
Qed.

Lemma bucketOf_snoc_other (k : string) (rows : list UploadRow) (r : UploadRow) :
  keyOf r <> k -> bucketOf k (rows ++ [r]) = bucketOf k rows.
Proof.
  intros H. unfold bucketOf. rewrite !filter_snoc, !sel_other_key by assumption.
  now rewrite !app_nil_r.
Qed.

Lemma bucketOf_snoc_same (rows : list UploadRow) (r : UploadRow) :
  bucketOf (keyOf r) (rows ++ [r]) =
  let slot := bucketOf (keyOf r) rows in
  match sourceMode r with
  | PO => mkBucket (po slot ++ [r]) (ship slot) (ups slot)
  | ShipDocs => mkBucket (po slot) (ship slot ++ [r]) (ups slot)
  | UPS => mkBucket (po slot) (ship slot) (ups slot ++ [r])
  end.
Proof.
  unfold bucketOf, sel. rewrite !filter_snoc, String.eqb_refl.
  destruct (sourceMode r); simpl; now rewrite !app_nil_r.
Qed.

Lemma bucketOf_absent (k : string) (rows : list UploadRow) :
  (forall r, In r rows -> keyOf r <> k) -> bucketOf k rows = emptyBucket.
Proof.
  intros H. unfold bucketOf, emptyBucket.
  rewrite !filter_all_false; auto; intros r Hr; apply sel_other_key; auto.
Qed.

Lemma tracked_snoc (k : string) (rows : list UploadRow) (r : UploadRow) :
  tracked k (rows ++ [r]) <-> tracked k rows \/ (k <> "" /\ keyOf r = k).
Proof.
  unfold tracked. split.
  - intros (Hk & x & Hx & E). apply in_app_or in Hx.
    destruct Hx as [Hx | [<- | []]]; [left | right]; eauto.
  - intros [(Hk & x & Hx & E) | (Hk & E)]; split; auto.
    + exists x. split; auto. apply in_or_app. now left.
    + exists r. split; auto. apply in_or_app. right. now left.
Qed.

Lemma Grouped_nil : Grouped [] [].
Proof.
  constructor; simpl.
  - constructor.
  - intros k. split; [tauto | intros (_ & r & [] & _)].
  - tauto.
Qed.

(** [add] files one more row. *)
Lemma Grouped_add (rows : list UploadRow) (m : JsMap Bucket) (r : UploadRow) :
  Grouped rows m -> Grouped (rows ++ [r]) (add m r).
Proof.
  intros [Hnd Hkeys Hb]. unfold add.
  destruct (String.eqb_spec (keyOf r) "") as [Hempty | Hne].
  - (* no tracking number: the row is skipped *)
    unfold nonempty. rewrite Hempty. simpl. constructor; auto.
    + intros k. rewrite tracked_snoc, Hkeys. intuition congruence.
    + intros k b Hin. rewrite bucketOf_snoc_other; auto.
      assert (tracked k rows) as [Hk _] by (apply Hkeys; now apply (in_map fst) in Hin).
      congruence.
  - unfold nonempty. apply String.eqb_neq in Hne. rewrite Hne. simpl.
    apply String.eqb_neq in Hne.
    assert (match map_get (keyOf r) m with Some b => b | None => emptyBucket end
            = bucketOf (keyOf r) rows) as ->.
    { destruct (map_get (keyOf r) m) as [b |] eqn:G.
      - apply Hb. now apply map_get_In.
      - symmetry. apply bucketOf_absent. intros x Hx E.
        apply map_get_None in G. apply G, Hkeys. split; eauto. }
    pose proof (bucketOf_snoc_same rows r) as Hsame. cbv zeta in Hsame. rewrite <- Hsame.
    constructor.
    + now apply map_set_NoDup.
    + intros k. rewrite map_set_keys, tracked_snoc, Hkeys. intuition congruence.
    + intros k b Hin. apply map_set_In in Hin; auto.
      destruct Hin as [[-> ->] | [Hk Hin]]; auto.
      rewrite bucketOf_snoc_other; auto.
Qed.

Lemma Grouped_fold (rs rows : list UploadRow) (m : JsMap Bucket) :
  Grouped rows m -> Grouped (rows ++ rs) (fold_left add rs m).
Proof.
  revert rows m. induction rs as [| r rs IH]; simpl; intros rows m H.
  - now rewrite app_nil_r.
  - replace (rows ++ r :: rs) with ((rows ++ [r]) ++ rs) by now rewrite <- app_assoc.
    apply IH. now apply Grouped_add.
Qed.

Lemma group_Grouped (poRows shipRows upsRows : list UploadRow) :
  Grouped (poRows ++ shipRows ++ upsRows) (group poRows shipRows upsRows).
Proof.
  unfold group. rewrite app_assoc.
  apply Grouped_fold, Grouped_fold.
  apply (Grouped_fold poRows (rows := [])), Grouped_nil.
Qed.

(* ------------------------------------------------------------------ *)
(** ** What the loop over the groups emits                               *)

Lemma Emitted_tracking (k : string) (b : Bucket) (d : DetailRow) :
  Emitted k b d -> trackingUpload d = k.
Proof. now destruct 1. Qed.

Lemma sort_cons {A} (cmp : A -> A -> comparison) (l : list A) :
  l <> [] -> exists pick rest, sort cmp l = pick :: rest.
Proof.
  intros H. destruct (sort cmp l) as [| pick rest] eqn:E; eauto.
  now apply sort_nil_inv in E.
Qed.

Lemma emit_one (k : string) (b : Bucket) :
  po b <> [] \/ ship b <> [] \/ ups b <> [] ->
  exists d, emit k b = [d] /\ Emitted k b d.
Proof.
  intros H. unfold emit.
  destruct (po b) as [| p ps] eqn:Ep; cbn [is_nil negb].
  - destruct (ship b) as [| s ss] eqn:Es; cbn [is_nil negb].
    + destruct (ups b) as [| u us] eqn:Eu; cbn [is_nil negb]; [intuition congruence |].
      destruct (sort_cons byDate (l := u :: us)) as (x & rest & E); [discriminate |].
      rewrite E. eexists. split; [reflexivity |].
      eapply EmitUPS; rewrite ?Ep, ?Es, ?Eu; eauto; discriminate.
    + destruct (sort_cons byDate (l := s :: ss)) as (x & rest & E); [discriminate |].
      rewrite E. eexists. split; [reflexivity |].
      eapply EmitShip; rewrite ?Ep, ?Es; eauto; discriminate.
  - destruct (sort_cons byDate (l := p :: ps)) as (x & rest & E); [discriminate |].
    rewrite E. eexists. split; [reflexivity |].
    eapply EmitPO; rewrite ?Ep; eauto; discriminate.
Qed.

Lemma fromSource_bucket (mode : SourceMode) (k : string) (rows : list UploadRow) :
  fromSource mode k rows <-> filter (sel k mode) rows <> [].
Proof.
  rewrite filter_nonempty. unfold fromSource.
  split; intros (r & Hr & H); exists r; split; auto; now apply sel_true.
Qed.

Lemma tracked_bucket (k : string) (rows : list UploadRow) :
  tracked k rows ->
  po (bucketOf k rows) <> [] \/ ship (bucketOf k rows) <> [] \/ ups (bucketOf k rows) <> [].
Proof.
  intros (_ & r & Hr & E). simpl.
  destruct (sourceMode r) eqn:Em; [left | right; left | right; right];
    apply fromSource_bucket; exists r; auto.
Qed.

Section Emission.

Variables (rows : list UploadRow) (m : JsMap Bucket).
Hypothesis HG : Grouped rows m.

Let out : list DetailRow := flat_map (fun kb => emit (fst kb) (snd kb)) m.

Lemma group_emits (k : string) (b : Bucket) :
  In (k, b) m -> exists d, emit k b = [d] /\ Emitted k (bucketOf k rows) d.
Proof.
  intros Hin. pose proof (g_buckets HG _ _ Hin) as ->.
  apply emit_one, tracked_bucket, (g_keys HG).
  now apply (in_map fst) in Hin.
Qed.

Lemma out_keys : map trackingUpload out = map fst m.
Proof.
  subst out. pose proof group_emits as H. clear HG.
  induction m as [| [k b] m' IH]; simpl; auto.
  destruct (H k b) as (d & E & Hd); [now left |].
  rewrite map_app, E, IH; simpl.
  - now rewrite (Emitted_tracking Hd).
  - intros k' b' Hin. apply H. now right.
Qed.

Lemma out_emitted (d : DetailRow) :
  In d out ->
  tracked (trackingUpload d) rows /\
  Emitted (trackingUpload d) (bucketOf (trackingUpload d) rows) d.
Proof.
  subst out. rewrite in_flat_map. intros ([k b] & Hin & Hd). simpl in Hd.
  destruct (group_emits _ _ Hin) as (d' & E & He).
  rewrite E in Hd. destruct Hd as [<- | []].
  rewrite (Emitted_tracking He). split; auto.
  apply (g_keys HG). now apply (in_map fst) in Hin.
Qed.

End Emission.

Lemma reconcile_keys (poRows shipRows upsRows : list UploadRow) :
  map trackingUpload (reconcileByTrackingPreferPO poRows shipRows upsRows)
  = map fst (group poRows shipRows upsRows).
Proof. apply out_keys with (rows := poRows ++ shipRows ++ upsRows), group_Grouped. Qed.

Lemma reconcile_emitted (poRows shipRows upsRows : list UploadRow) (d : DetailRow) :
  In d (reconcileByTrackingPreferPO poRows shipRows upsRows) ->
  tracked (trackingUpload d) (poRows ++ shipRows ++ upsRows) /\
  Emitted (trackingUpload d)
          (bucketOf (trackingUpload d) (poRows ++ shipRows ++ upsRows)) d.
Proof. apply out_emitted, group_Grouped. Qed.

(* ------------------------------------------------------------------ *)
(** ** The representative row of a group                                 *)

Lemma is_nil_false {A} (l : list A) : l <> [] -> is_nil l = false.
Proof. now destruct l. Qed.

Lemma Emitted_representative (k : string) (b : Bucket) (d : DetailRow) :
  Emitted k b d ->
  exists pick rest, sort byDate (winners b) = pick :: rest /\ d = detailOf k b pick.
Proof.
  unfold winners, detailOf.
  destruct 1 as [pick rest Hp E | pick rest Hp Hs E | u rest Hp Hs Hu E];
    exists pick || exists u; exists rest.
  - now rewrite (is_nil_false Hp).
  - rewrite Hp in *. now rewrite (is_nil_false Hs).
  - rewrite Hp, Hs in *. simpl. auto.
Qed.

Lemma byDate_trans (x y z : UploadRow) :
  byDate x y <> Gt -> byDate y z <> Gt -> byDate x z <> Gt.
Proof. apply string_compare_le_trans. Qed.

Lemma byDate_gt_lt (x y : UploadRow) : byDate x y = Gt -> byDate y x <> Gt.
Proof.
  unfold byDate. rewrite String.compare_antisym.
  destruct (String.compare (or_str (date y) "") (or_str (date x) "")); simpl; congruence.
Qed.

Lemma byDate_refl (x : UploadRow) : byDate x x <> Gt.
Proof.
  unfold byDate. pose proof (String.compare_antisym (or_str (date x) "") (or_str (date x) "")) as H.
  destruct (String.compare (or_str (date x) "") (or_str (date x) "")); simpl in H; congruence.
Qed.

Lemma byDate_head (l : list UploadRow) (pick : UploadRow) (rest : list UploadRow) :
  sort byDate l = pick :: rest ->
  In pick l /\ forall r, In r l -> String.compare (dateKey pick) (dateKey r) <> Gt.
Proof.
  apply sort_head.
  - exact byDate_trans.
  - exact byDate_gt_lt.
  - exact byDate_refl.
Qed.

Lemma or_str_empty (v : option string) : or_str v "" = "" <-> truthy v = false.
Proof.
  destruct v as [s |]; simpl; [| tauto].
  unfold nonempty. destruct (String.eqb_spec s ""); simpl; intuition congruence.
Qed.

Lemma compare_empty_r (s : string) : String.compare s "" <> Gt -> s = "".
Proof. destruct s; simpl; congruence. Qed.

(** Each result is built from a row of its winning source that sorts first. *)
Lemma reconcile_representative (poRows shipRows upsRows : list UploadRow) (d : DetailRow) :
  In d (reconcileByTrackingPreferPO poRows shipRows upsRows) ->
  let rows := poRows ++ shipRows ++ upsRows in
  let b := bucketOf (trackingUpload d) rows in
  exists pick,
    In pick (winners b) /\
    (forall r, In r (winners b) -> String.compare (dateKey pick) (dateKey r) <> Gt) /\
    d = detailOf (trackingUpload d) b pick.
Proof.
  intros Hd rows b. apply reconcile_emitted in Hd. destruct Hd as [_ He].
  apply Emitted_representative in He. destruct He as (pick & rest & E & Hd).
  apply byDate_head in E. destruct E as [Hin Hmin]. eauto.
Qed.

(** The representative is the first of the rows that sort first. *)
Lemma reconcile_representative_first
    (poRows shipRows upsRows : list UploadRow) (d : DetailRow) :
  In d (reconcileByTrackingPreferPO poRows shipRows upsRows) ->
  let rows := poRows ++ shipRows ++ upsRows in
  let b := bucketOf (trackingUpload d) rows in
  exists pick before after,
    winners b = before ++ pick :: after /\
    (forall r, In r before -> String.compare (dateKey pick) (dateKey r) = Lt) /\
    (forall r, In r (winners b) -> String.compare (dateKey pick) (dateKey r) <> Gt) /\
    d = detailOf (trackingUpload d) b pick.
Proof.
  intros Hd rows b. apply reconcile_emitted in Hd. destruct Hd as [_ He].
  apply Emitted_representative in He. destruct He as (pick & rest & E & Hd).
  destruct (sort_head_first _ _ E) as (before & after & Hw & Hb).
  apply byDate_head in E. destruct E as [_ Hmin].
  exists pick, before, after. split; [exact Hw |]. split; [| split; [exact Hmin | exact Hd]].
  intros r Hr. apply Hb in Hr. unfold byDate in Hr. fold (dateKey r) (dateKey pick) in Hr.
  rewrite String.compare_antisym, Hr. reflexivity.
Qed.

Lemma In_unique_key {A B} (f : A -> B) (l : list A) (x y : A) :
  NoDup (map f l) -> In x l -> In y l -> f x = f y -> x = y.
Proof.
  induction l as [| a l IH]; simpl; [tauto |].
  intros Hnd Hx Hy E. inversion_clear Hnd as [| ? ? Ha Hnd'].
  destruct Hx as [-> | Hx], Hy as [-> | Hy]; auto.
  - exfalso. apply Ha. rewrite E. now apply in_map.
  - exfalso. apply Ha. rewrite <- E. now apply in_map.
Qed.

(** Rows without a tracking number leave [byTracking] unchanged. *)
Lemma fold_add_tracked_only (rs : list UploadRow) (m : JsMap Bucket) :
  fold_left add (filter (fun r => nonempty (keyOf r)) rs) m = fold_left add rs m.
Proof.
  revert m. induction rs as [| r rs IH]; intros m; cbn [filter fold_left]; auto.
  assert (nonempty (keyOf r) = false -> add m r = m) as Hskip
    by (intros E; unfold add; now rewrite E).
  destruct (nonempty (keyOf r)); cbn [fold_left]; [apply IH |].
  rewrite Hskip by reflexivity. apply IH.
Qed.

(* ------------------------------------------------------------------ *)
(** ** Precedence, deduplication, tie-break and placeholders             *)

Lemma verdict_by_source (poRows shipRows upsRows : list UploadRow) (d : DetailRow) :
  In d (reconcileByTrackingPreferPO poRows shipRows upsRows) ->
  let rows := poRows ++ shipRows ++ upsRows in
  let k := trackingUpload d in
  (fromSource PO k rows -> verdict d = "MATCH_PO") /\
  (~ fromSource PO k rows -> fromSource ShipDocs k rows ->
     verdict d = "MATCH_SHIPDOCS") /\
  (~ fromSource PO k rows -> ~ fromSource ShipDocs k rows ->
     fromSource UPS k rows /\ verdict d = "UNMATCHED_UPS").
Proof.
  intros Hd rows k. apply reconcile_emitted in Hd. destruct Hd as [_ He].
  fold rows k in He. rewrite !fromSource_bucket.
  revert He. generalize k. clear k. intros k He.
  destruct He as [pick rest Hp E | pick rest Hp Hs E | u rest Hp Hs Hu E];
    simpl in *; (split; [| split]); intros; try tauto;
    try (split; [tauto |]); try reflexivity.
Qed.

Lemma rowsOf_sourceMode (normalizeDate : string -> option string)
    (file : option (list RawRow)) (mode : SourceMode) :
  Forall (fun r => sourceMode r = mode) (rowsOf normalizeDate file mode).
Proof.
  destruct file as [rows |]; simpl; [| constructor].
  unfold parseUploadToRows. generalize 0.
  induction rows as [| r rows IH]; intros i; simpl; constructor; auto.
Qed.

(** C2 — Every tracking-number group has a result, and the verdict of a
    group's result follows strict precedence: [MATCH_PO] if a PO-sourced row
    carries the tracking number; otherwise [MATCH_SHIPDOCS] if a
    ShipDocs-sourced row does; otherwise the group has only UPS-sourced rows
    and the verdict is [UNMATCHED_UPS].  A tracking number present on both a
    PO row and a ShipDocs row resolves to [MATCH_PO], never
    [MATCH_SHIPDOCS]; in the handler, so does every tracking number found in
    the PO file. *)
Theorem precedence_merge (poRows shipRows upsRows : list UploadRow) :
  let rows := poRows ++ shipRows ++ upsRows in
  let out := reconcileByTrackingPreferPO poRows shipRows upsRows in
  (forall k, tracked k rows -> exists d, In d out /\ trackingUpload d = k) /\
  (forall d, In d out ->
     let k := trackingUpload d in
     (fromSource PO k rows -> verdict d = "MATCH_PO") /\
     (~ fromSource PO k rows -> fromSource ShipDocs k rows ->
        verdict d = "MATCH_SHIPDOCS") /\
     (~ fromSource PO k rows -> ~ fromSource ShipDocs k rows ->
        fromSource UPS k rows /\ verdict d = "UNMATCHED_UPS") /\
     (fromSource PO k rows -> fromSource ShipDocs k rows ->
        verdict d = "MATCH_PO" /\ verdict d <> "MATCH_SHIPDOCS")) /\
  (forall normalizeDate poFile shipFile upsFile,
     poRows = rowsOf normalizeDate poFile PO ->
     shipRows = rowsOf normalizeDate shipFile ShipDocs ->
     upsRows = rowsOf normalizeDate upsFile UPS ->
     forall d, In d out ->
       (exists r, In r poRows /\ keyOf r = trackingUpload d) ->
       verdict d = "MATCH_PO").
Proof.
  intros rows out. split; [| split].
  - intros k Hk.
    assert (In k (map trackingUpload out)) as Hin.
    { subst out. rewrite reconcile_keys. now apply (g_keys (group_Grouped _ _ _)). }
    apply in_map_iff in Hin. destruct Hin as (d & E & Hd). eauto.
  - intros d Hd k.
    destruct (verdict_by_source _ _ _ _ Hd) as (Hpo & Hship & Hups).
    fold rows k in Hpo, Hship, Hups.
    split; [exact Hpo |]. split; [exact Hship |]. split; [exact Hups |].
    intros H _. rewrite (Hpo H). split; [reflexivity | discriminate].
  - intros normalizeDate poFile shipFile upsFile Epo _ _ d Hd (r & Hr & Hk).
    apply (verdict_by_source _ _ _ _ Hd). exists r.
    split; [apply in_or_app; now left |]. split; [exact Hk |].
    pose proof (rowsOf_sourceMode normalizeDate poFile PO) as Hall.
    rewrite <- Epo in Hall. rewrite Forall_forall in Hall. now apply Hall.
Qed.

Lemma precedence_merge_witness :
  let rows := [ex_po2] ++ [ex_ship1] ++ [ex_ups1] in
  fromSource PO (trackingUpload ex_detail_po) rows /\
  fromSource ShipDocs (trackingUpload ex_detail_po) rows /\
  In ex_detail_po (reconcileByTrackingPreferPO [ex_po2] [ex_ship1] [ex_ups1]) /\
  verdict ex_detail_po = "MATCH_PO" /\ verdict ex_detail_po <> "MATCH_SHIPDOCS".
Proof.
  intros rows.
  assert (fromSource PO (trackingUpload ex_detail_po) rows) as Hpo
    by (exists ex_po2; vm_compute; auto).
  assert (fromSource ShipDocs (trackingUpload ex_detail_po) rows) as Hship
    by (exists ex_ship1; vm_compute; auto).
  assert (In ex_detail_po (reconcileByTrackingPreferPO [ex_po2] [ex_ship1] [ex_ups1]))
    as Hin by (vm_compute; left; reflexivity).
  split; [exact Hpo |]. split; [exact Hship |]. split; [exact Hin |].
  destruct (precedence_merge [ex_po2] [ex_ship1] [ex_ups1]) as (_ & Hcases & _).
  destruct (Hcases ex_detail_po Hin) as (_ & _ & _ & Hboth).
  exact (Hboth Hpo Hship).
Defined.

(** The handler on a PO sheet and a UPS sheet that name the same parcel:
    one result, under the PO. *)
Example POST_po_and_ups :
  POST (fun s => Some s)
       (Some [ [("PO", "PO-100"); ("Tracking", "1Z999AA10123456784"); ("Date", "2024-01-05")] ])
       None
       (Some [ [("Tracking", "1Z 999 AA1 012345 6784"); ("Date", "2024-01-07")] ])
  = Status200
      (mkSummary 1 1 0 0)
      [ {| d_row := "trk:1Z999AA10123456784";
           d_sourceMode := PO_file;
           chosenMode := PO;
           orderNumber := "PO-100";
           partyUpload := None;
           trackingUpload := "1Z999AA10123456784";
           assertedDate := Some "2024-01-05";
           verdict := "MATCH_PO";
           reason := "Tracking appears on PO; ShipDocs/UPS duplicates suppressed";
           dayDelta := None;
           poVerdict := Some "match";
           shipVerdict := None |} ].
Proof. reflexivity. Qed.

(** C3 — The merge emits exactly one result per distinct non-empty
    normalized tracking number of the input rows, however many rows share
    it; rows whose normalized tracking number is empty contribute nothing:
    removing them leaves the output unchanged. *)
Theorem dedup_one_result_per_tracking (poRows shipRows upsRows : list UploadRow) :
  let rows := poRows ++ shipRows ++ upsRows in
  let out := reconcileByTrackingPreferPO poRows shipRows upsRows in
  let hasKey := fun r => nonempty (keyOf r) in
  NoDup (map trackingUpload out) /\
  (forall k, In k (map trackingUpload out) <-> tracked k rows) /\
  (forall d d', In d out -> In d' out -> trackingUpload d = trackingUpload d' -> d = d') /\
  List.length out = List.length (nodup string_dec (filter nonempty (map keyOf rows))) /\
  reconcileByTrackingPreferPO
    (filter hasKey poRows) (filter hasKey shipRows) (filter hasKey upsRows) = out.
Proof.
  intros rows out hasKey.
  pose proof (group_Grouped poRows shipRows upsRows) as HG. fold rows in HG.
  assert (map trackingUpload out = map fst (group poRows shipRows upsRows)) as Hkeys
    by apply reconcile_keys.
  assert (NoDup (map trackingUpload out)) as Hnd by (rewrite Hkeys; apply HG).
  assert (forall k, In k (map trackingUpload out) <-> tracked k rows) as Hmem
    by (intros k; rewrite Hkeys; apply HG).
  split; [exact Hnd |]. split; [exact Hmem |]. split; [| split].
  - intros d d'. now apply In_unique_key.
  - rewrite <- (length_map trackingUpload out).
    apply Permutation_length, NoDup_Permutation; auto using NoDup_nodup.
    intros k. rewrite Hmem, nodup_In, filter_In, in_map_iff.
    unfold tracked, nonempty. rewrite negb_true_iff, String.eqb_neq.
    split; [intros (Hk & r & Hr & E) | intros ((r & E & Hr) & Hk)]; eauto.
  - subst out. unfold reconcileByTrackingPreferPO, group.
    now rewrite !fold_add_tracked_only.
Qed.

Lemma dedup_one_result_per_tracking_witness :
  List.length (reconcileByTrackingPreferPO [ex_po1; ex_po2] [ex_ship1] [ex_ups1]) = 1 /\
  List.length ([ex_po1; ex_po2] ++ [ex_ship1] ++ [ex_ups1]) = 4.
Proof.
  split; [| reflexivity].
  destruct (dedup_one_result_per_tracking [ex_po1; ex_po2] [ex_ship1] [ex_ups1])
    as (_ & _ & _ & Hlen & _).
  rewrite Hlen. reflexivity.
Defined.

(* ------------------------------------------------------------------ *)
(** ** What a result shows of its representative row                     *)

Lemma or_null_cases (v : option string) :
  or_null v = None \/ truthy (or_null v) = true.
Proof. unfold or_null. destruct (truthy v) eqn:E; auto. Qed.

Lemma or_opt_true (v w : option string) : truthy v = true -> or_opt v w = v.
Proof. unfold or_opt. now intros ->. Qed.

Lemma or_opt_false (v w : option string) : truthy v = false -> or_opt v w = w.
Proof. unfold or_opt. now intros ->. Qed.

Lemma compare_lt_gt (x y : string) : String.compare x y = Lt -> String.compare y x = Gt.
Proof. intros H. now rewrite String.compare_antisym, H. Qed.

Lemma earliest_in_spec (rows : list UploadRow) (r : UploadRow) :
  earliest_in rows r = true <->
  forall x, In x rows -> String.compare (dateKey r) (dateKey x) <> Gt.
Proof.
  unfold earliest_in. rewrite forallb_forall. split; intros H x Hx; specialize (H x Hx).
  - now destruct (String.compare (dateKey r) (dateKey x)).
  - now destruct (String.compare (dateKey r) (dateKey x)).
Qed.

Lemma find_first {A} (p : A -> bool) (before after : list A) (x : A) :
  (forall y, In y before -> p y = false) -> p x = true ->
  find p (before ++ x :: after) = Some x.
Proof.
  intros Hb Hx. induction before as [| y before IH]; cbn [app find].
  - now rewrite Hx.
  - rewrite (Hb y) by now left. apply IH. intros z Hz. apply Hb. now right.
Qed.

(** The row that sorts first is the representative of the tie-break rule. *)
Lemma sort_representative (l : list UploadRow) (pick : UploadRow) (rest : list UploadRow) :
  sort byDate l = pick :: rest ->
  representative l = Some pick /\
  exists before after,
    l = before ++ pick :: after /\
    (forall r, In r l -> String.compare (dateKey pick) (dateKey r) <> Gt) /\
    (forall r, In r before -> String.compare (dateKey pick) (dateKey r) = Lt).
Proof.
  intros E. destruct (sort_head_first _ _ E) as (before & after & Hl & Hb).
  apply byDate_head in E. destruct E as [_ Hmin].
  assert (forall r, In r before -> String.compare (dateKey pick) (dateKey r) = Lt) as Hlt.
  { intros r Hr. apply Hb in Hr. unfold byDate in Hr. fold (dateKey r) (dateKey pick) in Hr.
    rewrite String.compare_antisym, Hr. reflexivity. }
  split; [| exists before, after; auto].
  unfold representative. rewrite Hl at 2. apply find_first.
  - intros r Hr. destruct (earliest_in l r) eqn:Et; [| reflexivity].
    rewrite earliest_in_spec in Et.
    assert (In pick l) as Hp by (rewrite Hl; apply in_elt).
    elim (Et pick Hp). apply compare_lt_gt. now apply Hlt.
  - now apply earliest_in_spec.
Qed.

Lemma firstDate_firstDated (l : list UploadRow) : firstDate l = firstDated l.
Proof.
  unfold firstDate, firstDated. induction l as [| r l IH]; cbn [find filter]; auto.
  now destruct (truthy (date r)).
Qed.

Lemma firstDated_truthy (l : list UploadRow) :
  firstDated l = None \/ truthy (firstDated l) = true.
Proof.
  unfold firstDated. destruct (filter _ l) as [| r t] eqn:E; [now left | right].
  assert (In r (filter (fun r => truthy (date r)) l)) as Hin by (rewrite E; now left).
  apply filter_In in Hin. apply Hin.
Qed.

(** [a || b || null] and [a || null] on dates read by [firstDated]. *)
Lemma borrowed_two (l l' : list UploadRow) :
  or_null (or_opt (firstDate l) (firstDate l'))
  = match firstDated l with Some s => Some s | None => firstDated l' end.
Proof.
  rewrite !firstDate_firstDated. unfold or_null, or_opt.
  destruct (firstDated_truthy l) as [-> | H].
  - cbn [truthy]. destruct (firstDated_truthy l') as [-> | H']; [reflexivity |].
    rewrite H'. now destruct (firstDated l').
  - rewrite H, H. now destruct (firstDated l).
Qed.

Lemma borrowed_one (l : list UploadRow) : or_null (firstDate l) = firstDated l.
Proof.
  rewrite firstDate_firstDated. unfold or_null.
  destruct (firstDated_truthy l) as [-> | H]; [reflexivity | now rewrite H].
Qed.

(** What the result of a group shows: the fields of the row that sorts
    first in the winning source, by winning source. *)
Lemma Emitted_shows (k : string) (b : Bucket) (d : DetailRow) :
  Emitted k b d ->
  exists pick rest,
    sort byDate (winners b) = pick :: rest /\
    (po b <> [] ->
       verdict d = "MATCH_PO" /\
       orderNumber d = or_str (poNumber pick) "(missing PO#)" /\
       partyUpload d = or_null (or_opt (vendor pick) (customer pick)) /\
       assertedDate d
       = or_opt (date pick)
                (match firstDated (ups b) with
                 | Some s => Some s
                 | None => firstDated (ship b)
                 end)) /\
    (po b = [] -> ship b <> [] ->
       verdict d = "MATCH_SHIPDOCS" /\
       orderNumber d = or_str (shipDocNumber pick) "(missing ShipDoc#)" /\
       partyUpload d = or_null (or_opt (customer pick) (vendor pick)) /\
       assertedDate d = or_opt (date pick) (firstDated (ups b))) /\
    (po b = [] -> ship b = [] ->
       verdict d = "UNMATCHED_UPS" /\
       orderNumber d = "" /\
       partyUpload d = or_null (or_opt (customer pick) (vendor pick)) /\
       assertedDate d = or_null (date pick)).
Proof.
  unfold winners.
  destruct 1 as [pick rest Hp E | pick rest Hp Hs E | u rest Hp Hs Hu E];
    exists pick || exists u; exists rest;
    cbn [verdict orderNumber partyUpload assertedDate poDetail shipDetail upsDetail].
  - rewrite (is_nil_false Hp). cbn [negb]. split; [exact E |].
    rewrite borrowed_two. split; [auto |]. split; intros; congruence.
  - rewrite Hp. cbn [is_nil negb]. rewrite (is_nil_false Hs). cbn [negb].
    split; [exact E |]. rewrite borrowed_one.
    split; [intros H; now elim H |]. split; [auto | intros; congruence].
  - rewrite Hp, Hs. cbn [is_nil negb]. split; [exact E |].
    split; [intros H; now elim H |]. split; [intros _ H; now elim H | auto].
Qed.

Lemma reconcile_shows (poRows shipRows upsRows : list UploadRow) (d : DetailRow) :
  In d (reconcileByTrackingPreferPO poRows shipRows upsRows) ->
  let rows := poRows ++ shipRows ++ upsRows in
  let b := bucketOf (trackingUpload d) rows in
  exists pick rest,
    sort byDate (winners b) = pick :: rest /\
    (po b <> [] ->
       verdict d = "MATCH_PO" /\
       orderNumber d = or_str (poNumber pick) "(missing PO#)" /\
       partyUpload d = or_null (or_opt (vendor pick) (customer pick)) /\
       assertedDate d
       = or_opt (date pick)
                (match firstDated (ups b) with
                 | Some s => Some s
                 | None => firstDated (ship b)
                 end)) /\
    (po b = [] -> ship b <> [] ->
       verdict d = "MATCH_SHIPDOCS" /\
       orderNumber d = or_str (shipDocNumber pick) "(missing ShipDoc#)" /\
       partyUpload d = or_null (or_opt (customer pick) (vendor pick)) /\
       assertedDate d = or_opt (date pick) (firstDated (ups b))) /\
    (po b = [] -> ship b = [] ->
       verdict d = "UNMATCHED_UPS" /\
       orderNumber d = "" /\
       partyUpload d = or_null (or_opt (customer pick) (vendor pick)) /\
       assertedDate d = or_null (date pick)).
Proof.
  intros Hd rows b. apply reconcile_emitted in Hd. destruct Hd as [_ He].
  now apply Emitted_shows with (k := trackingUpload d).
Qed.



(** C9 — The result of a group shows the representative row of the winning
    source: the row whose date string is lexicographically least among the
    rows of that source in the group, the first such row in upload order.  A
    missing or empty date counts as the empty string, so a row without a date
    is preferred to every dated row.  The order number, the party and, when
    it has one, the date of the result are those of that row. *)
Theorem tie_break_earliest_date
    (poRows shipRows upsRows : list UploadRow) (d : DetailRow) :
  In d (reconcileByTrackingPreferPO poRows shipRows upsRows) ->
  let rows := poRows ++ shipRows ++ upsRows in
  let b := bucketOf (trackingUpload d) rows in
  exists pick,
    representative (winners b) = Some pick /\
    (exists before after,
        winners b = before ++ pick :: after /\
        (forall r, In r (winners b) -> String.compare (dateKey pick) (dateKey r) <> Gt) /\
        (forall r, In r before -> String.compare (dateKey pick) (dateKey r) = Lt)) /\
    ((exists r, In r (winners b) /\ truthy (date r) = false) -> truthy (date pick) = false) /\
    (po b <> [] ->
       orderNumber d = or_str (poNumber pick) "(missing PO#)" /\
       partyUpload d = or_null (or_opt (vendor pick) (customer pick))) /\
    (po b = [] -> ship b <> [] ->
       orderNumber d = or_str (shipDocNumber pick) "(missing ShipDoc#)" /\
       partyUpload d = or_null (or_opt (customer pick) (vendor pick))) /\
    (po b = [] -> ship b = [] ->
       partyUpload d = or_null (or_opt (customer pick) (vendor pick))) /\
    (truthy (date pick) = true -> assertedDate d = date pick).
Proof.
  intros Hd rows b.
  destruct (reconcile_shows _ _ _ _ Hd) as (pick & rest & E & Hpo & Hship & Hups).
  fold rows b in E, Hpo, Hship, Hups.
  destruct (sort_representative _ E) as (Hrep & before & after & Hw & Hmin & Hfirst).
  exists pick. split; [exact Hrep |]. split; [exists before, after; auto |].
  split; [| split; [| split; [| split]]].
  - intros (r & Hr & Hnone). apply or_str_empty, compare_empty_r.
    apply or_str_empty in Hnone. fold (dateKey r) in Hnone.
    pose proof (Hmin r Hr) as H. now rewrite Hnone in H.
  - intros H. destruct (Hpo H) as (_ & Ho & Hp & _). auto.
  - intros H H'. destruct (Hship H H') as (_ & Ho & Hp & _). auto.
  - intros H H'. destruct (Hups H H') as (_ & _ & Hp & _). auto.
  - intros Ht.
    destruct (po b) as [| p ps] eqn:Ep; [destruct (ship b) as [| x xs] eqn:Es |].
    + destruct (Hups eq_refl eq_refl) as (_ & _ & _ & ->). unfold or_null. now rewrite Ht.
    + destruct (Hship eq_refl) as (_ & _ & _ & ->); [discriminate |]. now apply or_opt_true.
    + destruct Hpo as (_ & _ & _ & ->); [discriminate |]. now apply or_opt_true.
Qed.


(* ------------------------------------------------------------------ *)
(** ** Worked uploads                                                    *)

(** Two PO rows and a UPS row for one parcel: the result shows the PO row
    with the earlier date, which is listed second. *)
Lemma tie_break_earliest_date_witness :
  let b := bucketOf "1Z999AA10123456784" ([ex_po1; ex_po2] ++ [] ++ [ex_ups1]) in
  reconcileByTrackingPreferPO [ex_po1; ex_po2] [] [ex_ups1] = [ex_result_earliest] /\
  winners b = [ex_po1; ex_po2] /\
  representative (winners b) = Some ex_po2 /\
  orderNumber ex_result_earliest = or_str (poNumber ex_po2) "(missing PO#)" /\
  partyUpload ex_result_earliest = or_null (or_opt (vendor ex_po2) (customer ex_po2)) /\
  assertedDate ex_result_earliest = date ex_po2.
Proof.
  intros b.
  assert (reconcileByTrackingPreferPO [ex_po1; ex_po2] [] [ex_ups1] = [ex_result_earliest])
    as Hout by (vm_compute; reflexivity).
  assert (In ex_result_earliest (reconcileByTrackingPreferPO [ex_po1; ex_po2] [] [ex_ups1]))
    as Hin by (rewrite Hout; left; reflexivity).
  split; [exact Hout |]. split; [vm_compute; reflexivity |].
  destruct (tie_break_earliest_date _ _ _ _ Hin)
    as (pick & Hrep & _ & _ & Hpo & _ & _ & Hdate).
  assert (pick = ex_po2) as -> by (vm_compute in Hrep; injection Hrep as <-; reflexivity).
  split; [vm_compute; reflexivity |].
  destruct Hpo as [Ho Hp]; [vm_compute; discriminate |].
  split; [exact Ho |]. split; [exact Hp |]. apply Hdate. reflexivity.
Defined.


(* ------------------------------------------------------------------ *)
(** ** The displayed date                                                *)

(** [firstDate] reads the first row, in upload order, that has a date. *)
Lemma firstDate_first (l : list UploadRow) (s : string) :
  firstDate l = Some s ->
  exists before r after,
    l = before ++ r :: after /\ date r = Some s /\ s <> "" /\
    Forall (fun x => truthy (date x) = false) before.
Proof.
  unfold firstDate. induction l as [| x l IH]; simpl; [discriminate |].
  destruct (truthy (date x)) eqn:Hx.
  - intros E. exists [], x, l. repeat split; auto.
    rewrite E in Hx. simpl in Hx. unfold nonempty in Hx.
    intros ->. discriminate.
  - intros E. destruct (IH E) as (before & r & after & -> & Hr & Hs & Hall).
    exists (x :: before), r, after. repeat split; auto.
Qed.

Lemma map_get_redate (f : UploadRow -> option string) (k : string) (m : JsMap Bucket) :
  map_get k (redateMap f m) = option_map (redateBucket f) (map_get k m).
Proof.
  induction m as [| [k' b] m IH]; simpl; auto.
  now destruct (k' =? k)%string.
Qed.

Lemma map_set_redate (f : UploadRow -> option string) (k : string) (b : Bucket)
    (m : JsMap Bucket) :
  map_set k (redateBucket f b) (redateMap f m) = redateMap f (map_set k b m).
Proof.
  induction m as [| [k' b'] m IH]; simpl; auto.
  destruct (k' =? k)%string; simpl; auto. now rewrite IH.
Qed.

Lemma add_redate (f : UploadRow -> option string) (m : JsMap Bucket) (r : UploadRow) :
  add (redateMap f m) (redate f r) = redateMap f (add m r).
Proof.
  unfold add. change (keyOf (redate f r)) with (keyOf r).
  destruct (negb (nonempty (keyOf r))); auto.
  rewrite map_get_redate, <- map_set_redate. f_equal.
  change (sourceMode (redate f r)) with (sourceMode r).
  destruct (map_get (keyOf r) m) as [b |]; simpl;
    destruct (sourceMode r); unfold redateBucket; simpl; now rewrite ?map_app.
Qed.

Lemma fold_add_redate (f : UploadRow -> option string) (rs : list UploadRow)
    (m : JsMap Bucket) :
  fold_left add (map (redate f) rs) (redateMap f m) = redateMap f (fold_left add rs m).
Proof.
  revert m. induction rs as [| r rs IH]; simpl; intros m; auto.
  now rewrite add_redate, IH.
Qed.

Lemma emit_redate (f : UploadRow -> option string) (k : string) (b : Bucket) :
  map keyVerdict (emit k (redateBucket f b)) = map keyVerdict (emit k b).
Proof.
  assert (forall l, l <> [] ->
            exists x xs y ys, sort byDate (map (redate f) l) = x :: xs /\
                              sort byDate l = y :: ys) as Hs.
  { intros l Hl. destruct (sort_cons byDate Hl) as (y & ys & Ey).
    destruct (sort_cons byDate (l := map (redate f) l)) as (x & xs & Ex).
    - destruct l; [congruence | discriminate].
    - eauto 6. }
  unfold emit, redateBucket. cbn [po ship ups].
  destruct (po b) as [| p ps] eqn:Ep; cbn [map is_nil negb].
  - destruct (ship b) as [| s ss] eqn:Es; cbn [map is_nil negb].
    + destruct (ups b) as [| u us] eqn:Eu; cbn [map is_nil negb]; auto.
      destruct (Hs (u :: us)) as (x & xs & y & ys & Ex & Ey); [discriminate |].
      cbn [map] in Ex. now rewrite Ex, Ey.
    + destruct (Hs (s :: ss)) as (x & xs & y & ys & Ex & Ey); [discriminate |].
      cbn [map] in Ex. now rewrite Ex, Ey.
  - destruct (Hs (p :: ps)) as (x & xs & y & ys & Ex & Ey); [discriminate |].
    cbn [map] in Ex. now rewrite Ex, Ey.
Qed.

(** The verdicts do not depend on any date of the upload. *)
Lemma verdicts_ignore_dates (f : UploadRow -> option string)
    (poRows shipRows upsRows : list UploadRow) :
  map keyVerdict
      (reconcileByTrackingPreferPO
         (map (redate f) poRows) (map (redate f) shipRows) (map (redate f) upsRows))
  = map keyVerdict (reconcileByTrackingPreferPO poRows shipRows upsRows).
Proof.
  unfold reconcileByTrackingPreferPO, group.
  change (@nil (string * Bucket)) with (redateMap f []) at 1.
  rewrite !fold_add_redate.
  generalize (fold_left add upsRows (fold_left add shipRows (fold_left add poRows []))).
  intros m. induction m as [| [k b] m IH]; simpl; auto.
  now rewrite !map_app, emit_redate, IH.
Qed.

(** [firstDated] reads the first row, in upload order, that has a date. *)
Lemma firstDated_first (l : list UploadRow) (s : string) :
  firstDated l = Some s ->
  exists before r after,
    l = before ++ r :: after /\ date r = Some s /\ s <> "" /\
    Forall (fun x => truthy (date x) = false) before.
Proof. rewrite <- firstDate_firstDated. apply firstDate_first. Qed.

(** C6 (amended) — The displayed date of a group is the date of the
    representative row of its winning source when that row has one.
    Otherwise it is borrowed from the first row in upload order that has a
    date: among the group's UPS rows, then among its ShipDocs rows, for a PO
    group; among its UPS rows for a ShipDocs group; a UPS group borrows
    nothing and shows null.  No date of the upload changes any verdict. *)
Theorem displayed_date
    (poRows shipRows upsRows : list UploadRow) (d : DetailRow) :
  In d (reconcileByTrackingPreferPO poRows shipRows upsRows) ->
  let rows := poRows ++ shipRows ++ upsRows in
  let b := bucketOf (trackingUpload d) rows in
  (exists pick,
     representative (winners b) = Some pick /\
     (truthy (date pick) = true -> assertedDate d = date pick) /\
     (truthy (date pick) = false ->
        (po b <> [] ->
           assertedDate d = match firstDated (ups b) with
                            | Some s => Some s
                            | None => firstDated (ship b)
                            end) /\
        (po b = [] -> ship b <> [] -> assertedDate d = firstDated (ups b)) /\
        (po b = [] -> ship b = [] -> assertedDate d = None))) /\
  (forall l s,
     firstDated l = Some s ->
     exists before r after,
       l = before ++ r :: after /\ date r = Some s /\ s <> "" /\
       Forall (fun x => truthy (date x) = false) before) /\
  (forall f,
     map keyVerdict
         (reconcileByTrackingPreferPO
            (map (redate f) poRows) (map (redate f) shipRows) (map (redate f) upsRows))
     = map keyVerdict (reconcileByTrackingPreferPO poRows shipRows upsRows)).
Proof.
  intros Hd rows b. split; [| split].
  - destruct (reconcile_shows _ _ _ _ Hd) as (pick & rest & E & Hpo & Hship & Hups).
    fold rows b in E, Hpo, Hship, Hups.
    destruct (sort_representative _ E) as (Hrep & _).
    exists pick. split; [exact Hrep |]. split.
    + intros Ht.
      destruct (po b) as [| p ps] eqn:Ep; [destruct (ship b) as [| x xs] eqn:Es |].
      * destruct (Hups eq_refl eq_refl) as (_ & _ & _ & ->). unfold or_null. now rewrite Ht.
      * destruct (Hship eq_refl) as (_ & _ & _ & ->); [discriminate |]. now apply or_opt_true.
      * destruct Hpo as (_ & _ & _ & ->); [discriminate |]. now apply or_opt_true.
    + intros Ht. split; [| split].
      * intros H. destruct (Hpo H) as (_ & _ & _ & ->). now apply or_opt_false.
      * intros H H'. destruct (Hship H H') as (_ & _ & _ & ->). now apply or_opt_false.
      * intros H H'. destruct (Hups H H') as (_ & _ & _ & ->). unfold or_null. now rewrite Ht.
  - exact firstDated_first.
  - intros f. apply verdicts_ignore_dates.
Qed.

(** An undated PO row and two UPS scans, the later scan listed first: the
    result borrows the date of the scan listed first. *)
Lemma displayed_date_witness :
  let b := bucketOf "1Z999AA10123456784" ([cx_po] ++ [] ++ [cx_ups_late; cx_ups_early]) in
  reconcileByTrackingPreferPO [cx_po] [] [cx_ups_late; cx_ups_early] = [ex_result_borrowed] /\
  representative (winners b) = Some cx_po /\
  truthy (date cx_po) = false /\
  firstDated (ups b) = Some "2024-01-07" /\
  assertedDate ex_result_borrowed = Some "2024-01-07".
Proof.
  intros b.
  assert (reconcileByTrackingPreferPO [cx_po] [] [cx_ups_late; cx_ups_early]
          = [ex_result_borrowed]) as Hout by (vm_compute; reflexivity).
  assert (In ex_result_borrowed
             (reconcileByTrackingPreferPO [cx_po] [] [cx_ups_late; cx_ups_early]))
    as Hin by (rewrite Hout; left; reflexivity).
  split; [exact Hout |].
  destruct (displayed_date _ _ _ _ Hin) as ((pick & Hrep & _ & Hborrow) & _ & _).
  assert (pick = cx_po) as -> by (vm_compute in Hrep; injection Hrep as <-; reflexivity).
  split; [vm_compute; reflexivity |]. split; [reflexivity |].
  split; [vm_compute; reflexivity |].
  destruct (Hborrow eq_refl) as (Hpo & _ & _).
  rewrite Hpo; [vm_compute; reflexivity | vm_compute; discriminate].
Defined.

(** C6 as stated fails: the date borrowed is the first one listed,
    2024-01-07, although the same group holds the earlier UPS date
    2024-01-05. *)
Lemma displayed_date_counterexample :
  exists d,
    reconcileByTrackingPreferPO [cx_po] [] [cx_ups_late; cx_ups_early] = [d] /\
    verdict d = "MATCH_PO" /\
    assertedDate d = Some "2024-01-07" /\
    In cx_ups_early
       (ups (bucketOf (trackingUpload d) ([cx_po] ++ [] ++ [cx_ups_late; cx_ups_early]))) /\
    date cx_ups_early = Some "2024-01-05" /\
    String.compare "2024-01-05" "2024-01-07" = Lt.
Proof.
  eexists. split; [vm_compute; reflexivity |].
  vm_compute. repeat split; auto.
Qed.

End CrossFileFacts.

(* ================================================================== *)
(** * The verification route: lookups and scoring                       *)
(* ================================================================== *)

Module TruthSourceFacts.

Import TruthSource.
Local Open Scope list_scope.

(** ** Upper-casing and the two ways of stripping a tracking number *)

Lemma upper_char_class (c : ascii) :
  is_space (upper_char c) = is_space c /\
  is_hyphen (upper_char c) = is_hyphen c /\
  is_alnum (upper_char c) = is_alnum c /\
  (is_alnum c = true -> is_space c || is_hyphen c = false).
Proof.
  destruct c as [[] [] [] [] [] [] [] []]; vm_compute; repeat split; congruence.
Qed.

(** On a value made of letters, digits, whitespace and hyphens, removing
    whitespace and hyphens after upper-casing is the full normalization. *)
Lemma strip_space_hyphen_norm (t : string) :
  sforall (fun c => is_alnum c || is_space c || is_hyphen c) t = true ->
  strip_space_hyphen (toUpperCase t) = toUpperCase (strip_non_alnum t).
Proof.
  unfold strip_space_hyphen, toUpperCase, strip_non_alnum.
  induction t as [| c t IH]; simpl; auto.
  rewrite andb_true_iff. intros [Hc Ht].
  destruct (upper_char_class c) as (Hs & Hh & Ha & Hdis).
  rewrite Hs, Hh. destruct (is_alnum c) eqn:Hc'.
  - rewrite (Hdis eq_refl). simpl. now rewrite IH.
  - simpl in Hc. rewrite Hc. simpl. now apply IH.
Qed.

Section Route.

Variable Date : Type.
Variable toISOString : Date -> string.
Variable decide : DecideInput Date -> Decision.
Variable thrown : Client -> Mode -> Row Date -> option (option string).

Local Abbreviation lookup := (lookup toISOString).
Local Abbreviation reconcileOne := (reconcileOne toISOString decide).
Local Abbreviation attempts := (attempts toISOString decide thrown).
Local Abbreviation reconcileRow := (reconcileRow toISOString decide thrown).

(** [reconcileOne] is the decision on what [lookup] found. *)
Lemma reconcileOne_lookup (ot : Client) (mode : Mode) (r : Row Date) :
  let found := value (lookup ot mode r) in
  let ver :=
    decide {| di_mode := mode;
              di_partyUpload := partyName r;
              di_trackingUpload := trackingNumber r;
              di_assertedDate := assertedDate r;
              orderExists := fst (fst found);
              packages := snd (fst found);
              partyOT := snd found |} in
  reconcileOne ot mode r
  = ({| mode := mode;
        verdict := dec_verdict ver;
        reason := match dec_reason ver with Some s => s | None => "" end;
        dayDelta := dec_dayDelta ver |},
     calls (lookup ot mode r)).
Proof.
  unfold TruthSource.reconcileOne, bind, ret, value, calls.
  destruct (TruthSource.lookup toISOString ot mode r) as [[[e p] o] t]. simpl.
  now rewrite app_nil_r.
Qed.

Lemma reconcileOne_mode (ot : Client) (mode0 : Mode) (r : Row Date) :
  mode (value (reconcileOne ot mode0 r)) = mode0.
Proof. now rewrite reconcileOne_lookup. Qed.

(** Without an order in hand, whether the request failed or the answer
    was empty, nothing more is asked and nothing is found. *)
Lemma lookup_no_order (ot : Client) (mode : Mode) (r : Row Date) :
  truthy (orderNumber r) = true ->
  catch_null (getOrder ot mode (or_str (orderNumber r) "")) = None ->
  lookup ot mode r
  = ((false, [], None), [CallGetOrder mode (or_str (orderNumber r) "")]).
Proof.
  intros Ho E. unfold TruthSource.lookup, bind, ret, await_getOrder.
  rewrite Ho. simpl. now rewrite E.
Qed.

Lemma reconcileOne_no_order (ot ot' : Client) (mode : Mode) (r : Row Date) :
  truthy (orderNumber r) = true ->
  catch_null (getOrder ot mode (or_str (orderNumber r) "")) = None ->
  catch_null (getOrder ot' mode (or_str (orderNumber r) "")) = None ->
  reconcileOne ot mode r = reconcileOne ot' mode r.
Proof.
  intros Ho E E'. now rewrite !reconcileOne_lookup, !lookup_no_order.
Qed.

(** C1 (amended) — When the order lookup of a row with an order number
    fails, the failure is swallowed: the row is decided exactly as when the
    order system answers that there is no such order (no order, no packages,
    no party), after the same single call.  The result carries nothing that
    tells the two apart. *)
Theorem lookup_failure_as_not_found
    (otFail otNone : Client) (mode : Mode) (r : Row Date) :
  truthy (orderNumber r) = true ->
  getOrder otFail mode (or_str (orderNumber r) "") = Rejected ->
  getOrder otNone mode (or_str (orderNumber r) "") = Resolved None ->
  reconcileOne otFail mode r = reconcileOne otNone mode r /\
  lookup otFail mode r
  = ((false, [], None), [CallGetOrder mode (or_str (orderNumber r) "")]).
Proof.
  intros Ho Hfail Hnone. split.
  - apply reconcileOne_no_order; auto; [now rewrite Hfail | now rewrite Hnone].
  - apply lookup_no_order; auto. now rewrite Hfail.
Qed.

(** C7 (amended) — For a row with a tracking number and no order number the
    order system is called once, through the tracking search, with the
    uploaded value upper-cased and with whitespace and hyphens removed (other
    punctuation stays), and with the asserted day as hint.  [orderExists] is
    true exactly when packages are extracted from the answer; a failed search
    counts as no answer. *)
Theorem tracking_only_search (ot : Client) (mode : Mode) (r : Row Date) (t : string) :
  truthy (orderNumber r) = false ->
  trackingNumber r = Some t ->
  t <> "" ->
  let q := strip_space_hyphen (toUpperCase t) in
  let hint := option_map (isoDay toISOString) (assertedDate r) in
  let activity := catch_null (findByTracking ot mode q hint) in
  let pk := extractPackages activity in
  calls (reconcileOne ot mode r) = [CallFindByTracking mode q hint] /\
  value (lookup ot mode r) = (negb (CrossFile.is_nil pk), pk, extractParty ot activity) /\
  (fst (fst (value (lookup ot mode r))) = true <-> pk <> []) /\
  (findByTracking ot mode q hint = Rejected -> fst (fst (value (lookup ot mode r))) = false) /\
  (sforall (fun c => is_alnum c || is_space c || is_hyphen c) t = true ->
   q = CrossFile.normTracking (Some t)).
Proof.
  intros Ho Ht Hne q hint activity pk.
  assert (lookup ot mode r
          = ((negb (CrossFile.is_nil pk), pk, extractParty ot activity),
             [CallFindByTracking mode q hint])) as H.
  { unfold TruthSource.lookup, bind, ret, await_findByTracking.
    rewrite Ho, Ht. simpl. apply String.eqb_neq in Hne. unfold nonempty.
    rewrite Hne. simpl. reflexivity. }
  split; [| split; [| split; [| split]]].
  - rewrite reconcileOne_lookup. now rewrite H.
  - now rewrite H.
  - rewrite H. simpl. destruct pk; simpl; split; congruence.
  - intros Hrej. rewrite H. simpl. subst pk activity. now rewrite Hrej.
  - intros Hcls. subst q. rewrite (strip_space_hyphen_norm _ Hcls). simpl.
    apply String.eqb_neq in Hne. unfold nonempty. now rewrite Hne.
Qed.

Lemma reconcileOne_calls_lookup (ot : Client) (mode : Mode) (r : Row Date) :
  calls (reconcileOne ot mode r) = calls (lookup ot mode r).
Proof. now rewrite reconcileOne_lookup. Qed.

(** The [try] block, by what throws. *)
Lemma attempts_cases (ot : Client) (first second : Mode) (r : Row Date) :
  attempts ot first second r
  = match thrown ot first r with
    | Some message => (inr message, calls (lookup ot first r))
    | None =>
        match thrown ot second r with
        | Some message =>
            (inr message, calls (lookup ot first r) ++ calls (lookup ot second r))
        | None =>
            (inl (value (reconcileOne ot first r), value (reconcileOne ot second r)),
             calls (lookup ot first r) ++ calls (lookup ot second r))
        end
    end.
Proof.
  unfold TruthSource.attempts, attempt.
  destruct (thrown ot first r) as [m |].
  - unfold bind, ret. cbn [fst snd]. now rewrite app_nil_r.
  - rewrite (reconcileOne_lookup ot first r).
    destruct (thrown ot second r) as [m |].
    + unfold bind, ret, value, calls. cbn [fst snd]. now rewrite !app_nil_r.
    + rewrite (reconcileOne_lookup ot second r).
      unfold bind, ret, value, calls. cbn [fst snd]. now rewrite !app_nil_r.
Qed.






Lemma ranked_score (v : string) (n : nat) : ranked v n -> score v = n.
Proof. now destruct 1. Qed.

(** The detail of a row whose two evaluations return. *)
Lemma reconcileRow_returned (ot : Client) (i : nat) (r : Row Date) :
  thrown ot (preferOf r) r = None ->
  thrown ot (otherOf (preferOf r)) r = None ->
  let resPref := value (reconcileOne ot (preferOf r) r) in
  let resOther := value (reconcileOne ot (otherOf (preferOf r)) r) in
  let d := value (reconcileRow ot i r) in
  chosenMode d = Some (mode (pick resPref resOther)) /\
  d_verdict d = verdict (pick resPref resOther) /\
  poVerdict d
  = Some (match preferOf r with PO => verdict resPref | SO => verdict resOther end) /\
  soVerdict d
  = Some (match preferOf r with SO => verdict resPref | PO => verdict resOther end) /\
  calls (reconcileRow ot i r)
  = calls (reconcileOne ot (preferOf r) r) ++ calls (reconcileOne ot (otherOf (preferOf r)) r).
Proof.
  intros H1 H2. cbv zeta. unfold TruthSource.reconcileRow. cbv zeta.
  rewrite attempts_cases, H1, H2.
  pose proof (reconcileOne_mode ot (preferOf r) r) as Hm.
  rewrite !(reconcileOne_calls_lookup ot).
  set (a := value (reconcileOne ot (preferOf r) r)) in *.
  set (b := value (reconcileOne ot (otherOf (preferOf r)) r)) in *.
  unfold bind, ret, value, calls. cbn [fst snd chosenMode d_verdict poVerdict soVerdict].
  rewrite Hm, app_nil_r. repeat split.
Qed.


End Route.

(* ------------------------------------------------------------------ *)
(** ** Worked lookups                                                    *)

Lemma lookup_failure_as_not_found_witness :
  truthy (orderNumber ex_order_row) = true /\
  getOrder downClient PO (or_str (orderNumber ex_order_row) "") = Rejected /\
  getOrder emptyClient PO (or_str (orderNumber ex_order_row) "") = Resolved None /\
  reconcileOne ex_toISOString ex_decide downClient PO ex_order_row
  = reconcileOne ex_toISOString ex_decide emptyClient PO ex_order_row /\
  lookup ex_toISOString downClient PO ex_order_row
  = ((false, [], None), [CallGetOrder PO (or_str (orderNumber ex_order_row) "")]).
Proof.
  repeat (split; [reflexivity |]).
  apply (lookup_failure_as_not_found ex_toISOString ex_decide downClient emptyClient
                                     PO ex_order_row); reflexivity.
Defined.


(** C1 as stated fails: whatever the decision function, the row whose
    lookup is rejected and the row whose order does not exist cannot get the
    verdicts [ERROR] and [NOT_FOUND] respectively. *)
Lemma lookup_failure_counterexample :
  ~ exists decide : DecideInput string -> Decision,
      verdict (value (reconcileOne ex_toISOString decide downClient PO ex_order_row))
      = "ERROR" /\
      verdict (value (reconcileOne ex_toISOString decide emptyClient PO ex_order_row))
      = "NOT_FOUND".
Proof.
  intros (decide & Hfail & Hnone).
  rewrite (reconcileOne_no_order ex_toISOString decide downClient emptyClient
                                 PO ex_order_row) in Hfail by reflexivity.
  rewrite Hnone in Hfail. discriminate.
Qed.

Lemma tracking_only_search_witness :
  let t := "1Z 999-AA1/0123456784" in
  truthy (orderNumber ex_tracking_row) = false /\
  trackingNumber ex_tracking_row = Some t /\
  t <> "" /\
  let q := strip_space_hyphen (toUpperCase t) in
  let hint := option_map (isoDay ex_toISOString) (assertedDate ex_tracking_row) in
  let activity := catch_null (findByTracking emptyClient SO q hint) in
  let pk := extractPackages activity in
  calls (reconcileOne ex_toISOString ex_decide emptyClient SO ex_tracking_row)
  = [CallFindByTracking SO q hint] /\
  value (lookup ex_toISOString emptyClient SO ex_tracking_row)
  = (negb (CrossFile.is_nil pk), pk, extractParty emptyClient activity) /\
  (fst (fst (value (lookup ex_toISOString emptyClient SO ex_tracking_row))) = true
   <-> pk <> []) /\
  (findByTracking emptyClient SO q hint = Rejected ->
   fst (fst (value (lookup ex_toISOString emptyClient SO ex_tracking_row))) = false) /\
  (sforall (fun c => is_alnum c || is_space c || is_hyphen c) t = true ->
   q = CrossFile.normTracking (Some t)).
Proof.
  intros t. split; [reflexivity |]. split; [reflexivity |]. split; [discriminate |].
  apply (tracking_only_search ex_toISOString ex_decide emptyClient SO ex_tracking_row
                              (t := t)).
  - reflexivity.
  - reflexivity.
  - discriminate.
Defined.

(** C7 as stated fails: a tracking cell with a slash is parsed to a row
    whose slash reaches the search, while stripping every non-alphanumeric
    character would remove it. *)
Lemma tracking_only_search_counterexample :
  Parse.parseFile Parse.ex_parseDateText Parse.cx_slash_sheet
  = Return [ Parse.mkUploadRow None None (trackingNumber ex_tracking_row)
                               (assertedDate ex_tracking_row)
                               [("Tracking", "1z 999-aa1/0123456784");
                                ("Date", "2024-02-01")] ] /\
  calls (reconcileOne ex_toISOString ex_decide emptyClient SO ex_tracking_row)
  = [CallFindByTracking SO "1Z999AA1/0123456784" (Some "2024-02-01")] /\
  toUpperCase (strip_non_alnum "1Z 999-AA1/0123456784") = "1Z999AA10123456784" /\
  "1Z999AA1/0123456784" <> "1Z999AA10123456784".
Proof.
  split; [reflexivity |]. split; [reflexivity |]. split; [reflexivity | discriminate].
Qed.

End TruthSourceFacts.

(* ================================================================== *)
(** * Dates in the serialized responses                                 *)
(* ================================================================== *)

Module WireFormat.

Import CrossFile CrossFileFacts.
Local Open Scope list_scope.

Section Provenance.

Variables (k : string) (rows : list UploadRow).







End Provenance.







End WireFormat.

(* ================================================================== *)
(** * Parsing: which rows survive                                       *)
(* ================================================================== *)

Module ParseFacts.

Local Open Scope list_scope.

Section Flexible.

Import Parse.

Variable Date : Type.
Variable parseDateText : string -> option Date.

Local Abbreviation parseRow := (parseRow parseDateText).
Local Abbreviation parseFile := (parseFile parseDateText).

Lemma parseRow_usable (hs : Headers) (r : RawRow) :
  (usable hs r = false /\ parseRow hs r = []) \/
  (usable hs r = true /\
   exists u, parseRow hs r = [u] /\ identified u /\ _raw u = r).
Proof.
  unfold Parse.parseRow, usable, identified.
  destruct (truthy (orderNumberOf hs r)) eqn:Ho;
    destruct (truthy (trackingNumberOf hs r)) eqn:Ht; cbn [negb andb orb]; auto;
    right; (split; [reflexivity |]); eexists; (split; [reflexivity |]);
    cbn [orderNumber trackingNumber _raw]; auto.
Qed.

Lemma parseRows_usable (hs : Headers) (rows : list RawRow) :
  Forall (@identified Date) (flat_map (parseRow hs) rows) /\
  map (@_raw Date) (flat_map (parseRow hs) rows) = filter (usable hs) rows.
Proof.
  induction rows as [| r rows [IHf IHm]]; cbn [flat_map filter];
    [split; [constructor | reflexivity] |].
  destruct (parseRow_usable hs r) as [[Hu ->] | (Hu & u & -> & Hid & Hraw)];
    rewrite Hu; cbn [app map]; [now split |].
  split; [now constructor | now rewrite Hraw, IHm].
Qed.

Lemma parseFile_cases (rows : list RawRow) :
  let out := flat_map (parseRow (headersOf (headerRow rows))) rows in
  (rows <> [] /\ out = [] /\ exists msg, parseFile rows = Throw msg) \/
  ((rows = [] \/ out <> []) /\ parseFile rows = Return out).
Proof.
  destruct rows as [| first rest]; [right; split; auto |].
  cbv zeta. unfold Parse.parseFile, headerRow.
  generalize (headersOf (map fst (entries first))). intros hs.
  destruct (flat_map (parseRow hs) (first :: rest)) as [| u us] eqn:E;
    cbn [CrossFile.is_nil].
  - left. split; [discriminate |]. split; eauto.
  - right. split; [right; discriminate | reflexivity].
Qed.

Lemma parseFile_identified (rows : list RawRow) (out : list (UploadRow Date)) :
  parseFile rows = Return out -> Forall (@identified Date) out.
Proof.
  intros E. pose proof (parseFile_cases rows) as Hc. cbv zeta in Hc.
  destruct Hc as [(_ & _ & msg & E') | (_ & E')]; [congruence |].
  rewrite E' in E. injection E as <-. apply parseRows_usable.
Qed.

End Flexible.

Section CrossFileParser.

Import CrossFile.

Variable normalizeDate : string -> option string.

Lemma parseUploadRows_from_all (mode : SourceMode) (rows : list RawRow) (i : nat) :
  List.length (parseUploadRows_from normalizeDate mode i rows) = List.length rows /\
  Forall (fun u => sourceMode u = mode) (parseUploadRows_from normalizeDate mode i rows).
Proof.
  revert i. induction rows as [| r rows IH]; intros i; simpl; [split; auto |].
  destruct (IH (S i)) as [-> Hall]. split; auto.
Qed.

End CrossFileParser.

Section Strict.

Import StrictParse.

Variable Date : Type.
Variable newDate : string -> Date.

Lemma parseRow_order (map : Mapping) (mode : TruthSource.Mode) (idx : nat) (r : RawRow) :
  (nonempty (orderCell map r) = false /\
   parseRow newDate map mode idx r
   = Throw ("Row " ++ decimal (idx + 1) ++ ": missing orderNumber")%string) \/
  (nonempty (orderCell map r) = true /\
   exists u, parseRow newDate map mode idx r = Return u /\ orderNumber u = orderCell map r).
Proof.
  unfold StrictParse.parseRow. fold (orderCell map r).
  destruct (nonempty (orderCell map r)); simpl; [right | left]; eauto.
Qed.

Lemma mapRows_Return (map : Mapping) (mode : TruthSource.Mode) (rows : list RawRow) :
  forall idx out,
    mapRows newDate map mode idx rows = Return out ->
    List.length out = List.length rows /\
    Forall (fun u => nonempty (orderNumber u) = true) out /\
    Forall (fun r => nonempty (orderCell map r) = true) rows.
Proof.
  induction rows as [| r rows IH]; simpl; intros idx out.
  - intros [= <-]. auto.
  - destruct (parseRow_order map mode idx r) as [[Hn ->] | (Hn & u & -> & Hu)];
      [discriminate |].
    destruct (mapRows newDate map mode (S idx) rows) as [us | msg] eqn:E; [| discriminate].
    intros [= <-]. destruct (IH _ _ E) as (Hlen & Hall & Hrows). simpl.
    repeat split; auto. constructor; auto. now rewrite Hu.
Qed.

Lemma parseFile_Return (headers : list string) (rows : list RawRow)
    (mode : TruthSource.Mode) (out : list (UploadRow Date)) :
  parseFile newDate headers rows mode = Return out ->
  List.length out = List.length rows /\
  Forall (fun u => nonempty (orderNumber u) = true) out /\
  Forall (fun r => nonempty (orderCell (mapHeaders headers) r) = true) rows.
Proof.
  unfold StrictParse.parseFile.
  destruct (CrossFile.is_nil rows); [discriminate |].
  destruct (negb (truthy (m_orderNumber (mapHeaders headers)))); [discriminate |].
  apply mapRows_Return.
Qed.

End Strict.

(** C5 (amended) — The flexible parser returns only rows with a non-empty
    order number or tracking number; the rows it returns are the usable input
    rows, in order, so a row with neither identifier produces no output row.
    Such rows are skipped without error while some row of the file is usable;
    a non-empty file with no usable row makes the parser throw.  The
    cross-file parser returns one row per input row, whatever its
    identifiers.  The strict parser returns only when every row has an order
    number. *)
Theorem parse_identifiers :
  (forall (Date : Type) (parseDateText : string -> option Date)
          (rows : list Parse.RawRow),
      let hs := Parse.headersOf (Parse.headerRow rows) in
      (forall out,
          Parse.parseFile parseDateText rows = Return out ->
          Forall (@Parse.identified Date) out /\
          map (@Parse._raw Date) out = filter (Parse.usable hs) rows) /\
      ((exists r, In r rows /\ Parse.usable hs r = true) ->
       Parse.parseFile parseDateText rows
       = Return (flat_map (Parse.parseRow parseDateText hs) rows)) /\
      (rows <> [] -> (forall r, In r rows -> Parse.usable hs r = false) ->
       exists msg, Parse.parseFile parseDateText rows = Throw msg)) /\
  (forall (normalizeDate : string -> option string) (rows : list CrossFile.RawRow)
          (mode : CrossFile.SourceMode),
      List.length (CrossFile.parseUploadToRows normalizeDate rows mode)
      = List.length rows) /\
  (forall (Date : Type) (newDate : string -> Date) (headers : list string)
          (rows : list StrictParse.RawRow) (mode : TruthSource.Mode)
          (out : list (StrictParse.UploadRow Date)),
      StrictParse.parseFile newDate headers rows mode = Return out ->
      List.length out = List.length rows /\
      Forall (fun u => nonempty (StrictParse.orderNumber u) = true) out /\
      Forall (fun r => nonempty (StrictParse.orderCell (StrictParse.mapHeaders headers) r) = true)
             rows).
Proof.
  split; [| split].
  - intros Date parseDateText rows hs.
    pose proof (parseRows_usable parseDateText hs rows) as [Hid Hraw].
    pose proof (parseFile_cases parseDateText rows) as Hcases.
    cbv zeta in Hcases. fold hs in Hcases.
    destruct Hcases as [(Hne & Hout & msg & E) | [Hok E]]; rewrite E.
    + split; [discriminate |]. split; [| eauto].
      intros (r & Hr & Hu). exfalso.
      assert (In r (filter (Parse.usable hs) rows)) as Hin by now apply filter_In.
      rewrite <- Hraw, Hout in Hin. exact Hin.
    + split; [now intros out [= <-] |]. split; [reflexivity |].
      intros Hne Hall. exfalso. destruct Hok as [-> | Hout]; [congruence |].
      apply Hout. destruct (flat_map _ rows) as [| u us]; [reflexivity |].
      assert (In (Parse._raw u) (filter (Parse.usable hs) rows)) as Hin
        by (rewrite <- Hraw; now left).
      apply filter_In in Hin. destruct Hin as [Hr Hu]. rewrite (Hall _ Hr) in Hu.
      discriminate.
  - intros normalizeDate rows mode. apply parseUploadRows_from_all.
  - intros Date newDate headers rows mode out. apply parseFile_Return.
Qed.

Lemma parse_identifiers_witness :
  exists out,
    Parse.parseFile (fun _ => @None string) Parse.ex_sheet = Return out /\
    map (@Parse.orderNumber string) out = [Some "PO-100"; None] /\
    map (@Parse.trackingNumber string) out = [None; Some "1Z999AA10123456784"].
Proof.
  destruct parse_identifiers as [Hflex _].
  destruct (Hflex string (fun _ => None) Parse.ex_sheet) as (_ & Hsome & _).
  eexists. split.
  - apply Hsome. eexists. split; [left; reflexivity | reflexivity].
  - split; reflexivity.
Defined.

(** C5 as stated fails: the flexible parser throws on a sheet whose only
    row has no identifier, the cross-file parser keeps that row, and the
    strict parser throws on a row without an order number. *)
Lemma parse_identifiers_counterexample :
  Parse.parseFile (fun _ => @None string) Parse.cx_note_sheet
  = Throw "Missing required column(s): orderNumber or trackingNumber. Found headers: Notes" /\
  CrossFile.parseUploadToRows (fun s => Some s) Parse.cx_note_sheet CrossFile.UPS
  = [ CrossFile.mkUploadRow 1 None None None None None None CrossFile.UPS ] /\
  StrictParse.parseFile (fun s => s) ["PO Number"; "Notes"] Parse.cx_blank_sheet TruthSource.PO
  = Throw "Row 1: missing orderNumber".
Proof.
  split; [reflexivity |]. split; reflexivity.
Qed.

End ParseFacts.

(* ================================================================== *)
(** * Further facts: strings                                            *)
(* ================================================================== *)

Module StringFacts.

Ltac by_char c := destruct c as [[] [] [] [] [] [] [] []]; vm_compute; congruence.

Lemma upper_upper (c : ascii) : upper_char (upper_char c) = upper_char c.
Proof. by_char c. Qed.

Lemma lower_upper (c : ascii) : lower_char (upper_char c) = lower_char c.
Proof. by_char c. Qed.

Lemma upper_lower (c : ascii) : upper_char (lower_char c) = upper_char c.
Proof. by_char c. Qed.

Lemma is_lower_upper (c : ascii) : is_lower (upper_char c) = false.
Proof. by_char c. Qed.

Lemma is_alnum_upper (c : ascii) : is_alnum (upper_char c) = is_alnum c.
Proof. by_char c. Qed.

Lemma is_upper_digit_upper (c : ascii) : is_upper_digit (upper_char c) = is_alnum c.
Proof. by_char c. Qed.

Lemma upper_digit_upper (c : ascii) : is_upper_digit c = true -> upper_char c = c.
Proof. by_char c. Qed.

Lemma upper_digit_alnum (c : ascii) : is_upper_digit c = true -> is_alnum c = true.
Proof. by_char c. Qed.

Lemma alnum_not_space (c : ascii) : is_alnum c = true -> is_space c = false.
Proof. by_char c. Qed.

Lemma smap_smap (f g : ascii -> ascii) (s : string) :
  smap f (smap g s) = smap (fun c => f (g c)) s.
Proof. induction s as [| c s IH]; simpl; congruence. Qed.

Lemma smap_ext (f g : ascii -> ascii) (s : string) :
  (forall c, f c = g c) -> smap f s = smap g s.
Proof. intros H. induction s as [| c s IH]; simpl; congruence. Qed.

Lemma smap_length (f : ascii -> ascii) (s : string) :
  String.length (smap f s) = String.length s.
Proof. induction s as [| c s IH]; simpl; congruence. Qed.

Lemma smap_fixed (f : ascii -> ascii) (p : ascii -> bool) (s : string) :
  (forall c, p c = true -> f c = c) -> sforall p s = true -> smap f s = s.
Proof.
  intros H. induction s as [| c s IH]; simpl; auto.
  rewrite andb_true_iff. intros [Hc Hs]. now rewrite H, IH.
Qed.

Lemma sfilter_smap (p : ascii -> bool) (f : ascii -> ascii) (s : string) :
  (forall c, p (f c) = p c) -> sfilter p (smap f s) = smap f (sfilter p s).
Proof.
  intros H. induction s as [| c s IH]; simpl; auto.
  rewrite H. destruct (p c); simpl; congruence.
Qed.

Lemma sfilter_sforall (p : ascii -> bool) (s : string) : sforall p (sfilter p s) = true.
Proof.
  induction s as [| c s IH]; simpl; auto.
  destruct (p c) eqn:E; simpl; auto. now rewrite E.
Qed.

Lemma sfilter_fixed (p : ascii -> bool) (s : string) :
  sforall p s = true -> sfilter p s = s.
Proof.
  induction s as [| c s IH]; simpl; auto.
  rewrite andb_true_iff. intros [-> Hs]. now rewrite IH.
Qed.

Lemma sforall_smap (p q : ascii -> bool) (f : ascii -> ascii) (s : string) :
  (forall c, q c = true -> p (f c) = true) -> sforall q s = true ->
  sforall p (smap f s) = true.
Proof.
  intros H. induction s as [| c s IH]; simpl; auto.
  rewrite andb_true_iff. intros [Hc Hs]. now rewrite H, IH.
Qed.

Lemma sforall_impl (p q : ascii -> bool) (s : string) :
  (forall c, p c = true -> q c = true) -> sforall p s = true -> sforall q s = true.
Proof.
  intros H. induction s as [| c s IH]; simpl; auto.
  rewrite !andb_true_iff. intros [Hc Hs]. auto.
Qed.

Lemma smap_empty (f : ascii -> ascii) (s : string) : smap f s = "" <-> s = "".
Proof. destruct s; simpl; split; congruence. Qed.

Lemma nonempty_smap (f : ascii -> ascii) (s : string) : nonempty (smap f s) = nonempty s.
Proof. now destruct s. Qed.

Lemma nonempty_true (s : string) : nonempty s = true <-> s <> "".
Proof. unfold nonempty. now rewrite negb_true_iff, String.eqb_neq. Qed.

Lemma nonempty_false (s : string) : nonempty s = false <-> s = "".
Proof. unfold nonempty. now rewrite negb_false_iff, String.eqb_eq. Qed.

Lemma toUpperCase_idem (s : string) : toUpperCase (toUpperCase s) = toUpperCase s.
Proof.
  unfold toUpperCase. rewrite smap_smap. apply smap_ext, upper_upper.
Qed.

Lemma toUpperCase_upper_digit (s : string) :
  sforall is_alnum s = true -> sforall is_upper_digit (toUpperCase s) = true.
Proof.
  apply sforall_smap. intros c Hc. now rewrite is_upper_digit_upper.
Qed.

Lemma upper_digit_fixed (s : string) :
  sforall is_upper_digit s = true ->
  toUpperCase s = s /\ strip_non_alnum s = s.
Proof.
  intros H. split.
  - apply smap_fixed with is_upper_digit; auto using upper_digit_upper.
  - apply sfilter_fixed. revert H. apply sforall_impl, upper_digit_alnum.
Qed.

(** Upper-casing and stripping commute. *)
Lemma strip_upper_comm (s : string) :
  strip_non_alnum (toUpperCase s) = toUpperCase (strip_non_alnum s).
Proof. apply sfilter_smap, is_alnum_upper. Qed.

End StringFacts.

(* ================================================================== *)
(** * Further facts: maps filled by assignment                          *)
(* ================================================================== *)

Module MapMore.

Local Open Scope list_scope.

Lemma map_get_map_set {V} (k k' : string) (v : V) (m : JsMap V) :
  map_get k (map_set k' v m) = if (k' =? k)%string then Some v else map_get k m.
Proof.
  induction m as [| [k0 v0] m IH]; simpl; auto.
  destruct (String.eqb_spec k0 k') as [-> | Hne]; simpl.
  - now destruct (k' =? k)%string.
  - rewrite IH. destruct (String.eqb_spec k0 k) as [-> | Hk]; auto.
    destruct (String.eqb_spec k' k); congruence.
Qed.


Lemma find_snoc {A} (p : A -> bool) (l : list A) (x : A) :
  find p (l ++ [x])
  = match find p l with
    | Some y => Some y
    | None => if p x then Some x else None
    end.
Proof. induction l as [| y l IH]; simpl; auto. now destruct (p y). Qed.

Section Assigned.

Variables (X V : Type) (kf : X -> string) (vf : X -> V).

(** [for (const x of xs) m[kf(x)] = vf(x)] *)
Local Abbreviation assign xs m := (fold_left (fun m x => map_set (kf x) (vf x) m) xs m).

(** After the loop a key holds what the last element filed under it
    brought. *)
Lemma assign_get (xs : list X) (k : string) :
  forall m,
    map_get k (assign xs m)
    = match find (fun x => (kf x =? k)%string) (rev xs) with
      | Some x => Some (vf x)
      | None => map_get k m
      end.
Proof.
  induction xs as [| x xs IH]; intros m; cbn [fold_left rev find]; auto.
  rewrite IH, find_snoc, map_get_map_set.
  destruct (find _ (rev xs)); auto. now destruct (kf x =? k)%string.
Qed.


End Assigned.

End MapMore.

(* ================================================================== *)
(** * Further facts: the cross-file route                               *)
(* ================================================================== *)

Module CrossFileMore.

Import CrossFile CrossFileFacts StringFacts MapMore.
Local Open Scope list_scope.

Lemma normTracking_Some (s : string) :
  normTracking (Some s) = toUpperCase (strip_non_alnum s).
Proof.
  simpl. destruct (nonempty s) eqn:E; auto.
  apply nonempty_false in E. now subst.
Qed.

Lemma normTracking_upper_digit (v : option string) :
  sforall is_upper_digit (normTracking v) = true.
Proof.
  destruct v as [s |]; [| reflexivity]. rewrite normTracking_Some.
  apply toUpperCase_upper_digit, sfilter_sforall.
Qed.

Lemma normTracking_fixed (t : string) :
  sforall is_upper_digit t = true -> normTracking (Some t) = t.
Proof.
  intros H. rewrite normTracking_Some.
  destruct (upper_digit_fixed _ H) as [Hu Hs]. now rewrite Hs.
Qed.

(** X1 — [normTracking] returns only digits and upper-case letters, is
    idempotent, and depends on its argument only through the letters and
    digits it holds, whatever their case: two spellings with the same
    upper-cased alphanumeric content get the same key. *)
Theorem normTracking_canonical (s : string) :
  sforall is_upper_digit (normTracking (Some s)) = true /\
  normTracking (Some (normTracking (Some s))) = normTracking (Some s) /\
  (forall s',
      strip_non_alnum (toUpperCase s) = strip_non_alnum (toUpperCase s') <->
      normTracking (Some s) = normTracking (Some s')).
Proof.
  split; [apply normTracking_upper_digit |]. split.
  - apply normTracking_fixed, normTracking_upper_digit.
  - intros s'. now rewrite !normTracking_Some, !strip_upper_comm.
Qed.

(* ------------------------------------------------------------------ *)
(** ** The order of the results                                          *)

Lemma filter_filter {A} (p q : A -> bool) (l : list A) :
  filter p (filter q l) = filter (fun x => q x && p x) l.
Proof.
  induction l as [| x l IH]; simpl; auto.
  destruct (q x); simpl; [destruct (p x) |]; congruence.
Qed.

Lemma filter_true {A} (p : A -> bool) (l : list A) :
  (forall x, p x = true) -> filter p l = l.
Proof. intros H. induction l as [| x l IH]; simpl; [| rewrite H]; congruence. Qed.

(** [k] is among the keys [ks]. *)
Local Abbreviation mem k ks := (existsb (fun y => (y =? k)%string) ks).

Lemma map_set_fst {V} (k : string) (v : V) (m : JsMap V) :
  map fst (map_set k v m) = if mem k (map fst m) then map fst m else map fst m ++ [k].
Proof.
  induction m as [| [k' v'] m IH]; simpl; auto.
  destruct (k' =? k)%string; simpl; auto.
  rewrite IH. now destruct (mem k (map fst m)).
Qed.

Lemma add_fst (m : JsMap Bucket) (r : UploadRow) :
  map fst (add m r)
  = if nonempty (keyOf r) && negb (mem (keyOf r) (map fst m))
    then map fst m ++ [keyOf r] else map fst m.
Proof.
  unfold add. destruct (nonempty (keyOf r)); simpl; auto.
  rewrite map_set_fst. now destruct (mem (keyOf r) (map fst m)).
Qed.

Lemma fold_add_fst (rs : list UploadRow) (m : JsMap Bucket) :
  map fst (fold_left add rs m)
  = map fst m ++ filter (fun x => negb (mem x (map fst m))) (firstKeys (map keyOf rs)).
Proof.
  revert m. induction rs as [| r rs IH]; intros m; cbn [fold_left map firstKeys].
  - now rewrite app_nil_r.
  - rewrite IH, add_fst. destruct (nonempty (keyOf r)) eqn:Hk; cbn [andb]; auto.
    destruct (mem (keyOf r) (map fst m)) eqn:Hm; cbn [negb filter]; rewrite ?Hm; cbn [negb].
    + f_equal. rewrite filter_filter. apply filter_ext_in. intros x _.
      destruct (String.eqb_spec x (keyOf r)) as [-> | Hne]; simpl; [now rewrite Hm | reflexivity].
    + rewrite <- app_assoc. cbn [app]. do 2 f_equal.
      rewrite filter_filter. apply filter_ext. intros x.
      rewrite existsb_app. cbn [existsb]. rewrite orb_false_r, negb_orb.
      rewrite (String.eqb_sym (keyOf r) x). apply andb_comm.
Qed.

Lemma group_firstKeys (poRows shipRows upsRows : list UploadRow) :
  map fst (group poRows shipRows upsRows)
  = firstKeys (map keyOf (poRows ++ shipRows ++ upsRows)).
Proof.
  unfold group. rewrite <- !fold_left_app, fold_add_fst.
  cbn [map app]. apply filter_true. reflexivity.
Qed.

(** X2 — The results come in the order in which the tracking numbers first
    occur in the upload, reading the PO rows, then the ShipDocs rows, then
    the UPS rows. *)
Theorem results_in_first_occurrence_order (poRows shipRows upsRows : list UploadRow) :
  map trackingUpload (reconcileByTrackingPreferPO poRows shipRows upsRows)
  = firstKeys (map keyOf (poRows ++ shipRows ++ upsRows)).
Proof.
  rewrite reconcile_keys. unfold group. rewrite <- !fold_left_app, fold_add_fst.
  cbn [map app]. apply filter_true. reflexivity.
Qed.

(* ------------------------------------------------------------------ *)
(** ** The summary                                                       *)

(** Some row of source [mode] carries [k], as a test. *)
Local Abbreviation hasSource mode k rows := (existsb (sel k mode) rows).

Lemma hasSource_fromSource (mode : SourceMode) (k : string) (rows : list UploadRow) :
  hasSource mode k rows = true <-> fromSource mode k rows.
Proof.
  rewrite existsb_exists. unfold fromSource.
  split; intros (r & Hr & H); exists r; split; auto; now apply sel_true.
Qed.

Lemma verdict_tests (poRows shipRows upsRows : list UploadRow) (d : DetailRow) :
  In d (reconcileByTrackingPreferPO poRows shipRows upsRows) ->
  let rows := poRows ++ shipRows ++ upsRows in
  let k := trackingUpload d in
  (verdict d =? "MATCH_PO")%string = hasSource PO k rows /\
  (verdict d =? "MATCH_SHIPDOCS")%string
  = negb (hasSource PO k rows) && hasSource ShipDocs k rows /\
  (verdict d =? "UNMATCHED_UPS")%string
  = negb (hasSource PO k rows) && negb (hasSource ShipDocs k rows).
Proof.
  intros Hd rows k.
  destruct (verdict_by_source _ _ _ _ Hd) as (Hpo & Hship & Hups). fold rows k in Hpo, Hship, Hups.
  pose proof (hasSource_fromSource PO k rows) as Tpo.
  pose proof (hasSource_fromSource ShipDocs k rows) as Tship.
  destruct (hasSource PO k rows).
  - rewrite Hpo by now apply Tpo. repeat split.
  - assert (~ fromSource PO k rows) as Npo by (intros H; apply Tpo in H; discriminate).
    destruct (hasSource ShipDocs k rows).
    + rewrite (Hship Npo) by now apply Tship. repeat split.
    + assert (~ fromSource ShipDocs k rows) as Nship
        by (intros H; apply Tship in H; discriminate).
      destruct (Hups Npo Nship) as [_ ->]. repeat split.
Qed.

Lemma count_filter_map {A B} (p : A -> bool) (q : B -> bool) (f : A -> B) (l : list A) :
  (forall x, In x l -> p x = q (f x)) ->
  List.length (filter p l) = List.length (filter q (map f l)).
Proof.
  induction l as [| x l IH]; simpl; auto. intros H.
  rewrite <- (H x) by now left. destruct (p x); simpl; rewrite IH; auto.
Qed.

Lemma three_way_count {A} (p q r : A -> bool) (l : list A) :
  (forall x, In x l ->
     (p x = true /\ q x = false /\ r x = false) \/
     (p x = false /\ q x = true /\ r x = false) \/
     (p x = false /\ q x = false /\ r x = true)) ->
  List.length l
  = List.length (filter p l) + List.length (filter q l) + List.length (filter r l).
Proof.
  induction l as [| x l IH]; simpl; auto. intros H.
  rewrite IH by auto.
  destruct (H x) as [(-> & -> & ->) | [(-> & -> & ->) | (-> & -> & ->)]]; auto; simpl; lia.
Qed.

(** X3 — The summary of the merge accounts for every result: the total is
    the number of distinct tracking numbers, and it is the sum of the three
    counts.  [MATCH_PO] counts the tracking numbers found on a PO row,
    [MATCH_SHIPDOCS] those found on a ShipDocs row and on no PO row,
    [UNMATCHED_UPS] the others. *)
Theorem summary_accounts_for_all (poRows shipRows upsRows : list UploadRow) :
  let rows := poRows ++ shipRows ++ upsRows in
  let keys := firstKeys (map keyOf rows) in
  let s := buildSummary (reconcileByTrackingPreferPO poRows shipRows upsRows) in
  totalRowsReturned s = List.length keys /\
  totalRowsReturned s = count_MATCH_PO s + count_MATCH_SHIPDOCS s + count_UNMATCHED_UPS s /\
  count_MATCH_PO s = List.length (filter (fun k => hasSource PO k rows) keys) /\
  count_MATCH_SHIPDOCS s
  = List.length (filter (fun k => negb (hasSource PO k rows) && hasSource ShipDocs k rows)
                        keys) /\
  count_UNMATCHED_UPS s
  = List.length (filter (fun k => negb (hasSource PO k rows)
                                  && negb (hasSource ShipDocs k rows)) keys).
Proof.
  intros rows keys s. subst s keys rows. unfold buildSummary, count_verdict.
  cbn [totalRowsReturned count_MATCH_PO count_MATCH_SHIPDOCS count_UNMATCHED_UPS].
  rewrite <- group_firstKeys, <- reconcile_keys.
  pose proof (verdict_tests poRows shipRows upsRows) as Ht.
  set (out := reconcileByTrackingPreferPO poRows shipRows upsRows) in *.
  split; [now rewrite length_map |]. split; [| split; [| split]].
  - apply three_way_count. intros d Hd.
    destruct (Ht d Hd) as (-> & -> & ->).
    destruct (hasSource PO (trackingUpload d) (poRows ++ shipRows ++ upsRows)),
             (hasSource ShipDocs (trackingUpload d) (poRows ++ shipRows ++ upsRows));
      simpl; auto.
  - apply count_filter_map. intros d Hd. apply (Ht d Hd).
  - apply count_filter_map. intros d Hd. apply (Ht d Hd).
  - apply count_filter_map. intros d Hd. apply (Ht d Hd).
Qed.

(* ------------------------------------------------------------------ *)
(** ** The shape of a result                                             *)

Lemma or_str_nonempty (v : option string) (dflt : string) :
  dflt <> "" -> or_str v dflt <> "".
Proof.
  intros H. destruct v as [x |]; simpl; auto.
  destruct (nonempty x) eqn:E; auto. now apply nonempty_true.
Qed.

Lemma tracked_upper_digit (k : string) (rows : list UploadRow) :
  tracked k rows -> k <> "" /\ sforall is_upper_digit k = true.
Proof.
  intros (Hk & r & _ & <-). split; auto. apply normTracking_upper_digit.
Qed.

(** X4 — Every result of the merge is keyed by a non-empty tracking number
    made of digits and upper-case letters, is labelled ["trk:"] followed by
    that number, carries no day difference, and has either no party or a
    non-empty one.  Its mode, file label, verdict and per-mode fields agree,
    and its order number is empty exactly when it is a UPS result. *)
Theorem result_shape (poRows shipRows upsRows : list UploadRow) (d : DetailRow) :
  In d (reconcileByTrackingPreferPO poRows shipRows upsRows) ->
  d_row d = ("trk:" ++ trackingUpload d)%string /\
  trackingUpload d <> "" /\
  sforall is_upper_digit (trackingUpload d) = true /\
  dayDelta d = None /\
  (partyUpload d = None \/ truthy (partyUpload d) = true) /\
  ((chosenMode d = PO /\ d_sourceMode d = PO_file /\ verdict d = "MATCH_PO" /\
    poVerdict d = Some "match" /\ shipVerdict d = None /\ orderNumber d <> "") \/
   (chosenMode d = ShipDocs /\ d_sourceMode d = ShipDocs_file /\
    verdict d = "MATCH_SHIPDOCS" /\
    poVerdict d = None /\ shipVerdict d = Some "match" /\ orderNumber d <> "") \/
   (chosenMode d = UPS /\ d_sourceMode d = UPS_file /\ verdict d = "UNMATCHED_UPS" /\
    poVerdict d = None /\ shipVerdict d = None /\ orderNumber d = "")).
Proof.
  intros Hd. apply reconcile_emitted in Hd. destruct Hd as [Ht He].
  apply tracked_upper_digit in Ht. destruct Ht as [Hk Hu].
  revert Hk Hu He. generalize (trackingUpload d) at 1 2 3 4 as k.
  generalize (bucketOf (trackingUpload d) (poRows ++ shipRows ++ upsRows)) as b.
  intros b k Hk Hu He.
  destruct He as [pick rest Hp E | pick rest Hp Hs E | u rest Hp Hs Hu' E];
    cbn [d_row trackingUpload dayDelta partyUpload chosenMode d_sourceMode verdict
         poVerdict shipVerdict orderNumber poDetail shipDetail upsDetail];
    (split; [reflexivity |]); (split; [exact Hk |]); (split; [exact Hu |]);
    (split; [reflexivity |]); (split; [apply or_null_cases |]).
  - left. repeat (split; [reflexivity |]). now apply or_str_nonempty.
  - right. left. repeat (split; [reflexivity |]). now apply or_str_nonempty.
  - right. right. repeat (split; [reflexivity |]). reflexivity.
Qed.

Lemma result_shape_witness :
  In ex_detail (reconcileByTrackingPreferPO [ex_po1; ex_po2] [] [ex_ups1]) /\
  d_row ex_detail = "trk:1Z999AA10123456784" /\
  trackingUpload ex_detail = "1Z999AA10123456784" /\
  orderNumber ex_detail <> "".
Proof.
  assert (In ex_detail (reconcileByTrackingPreferPO [ex_po1; ex_po2] [] [ex_ups1])) as Hin
    by (vm_compute; left; reflexivity).
  split; [exact Hin |].
  destruct (result_shape [ex_po1; ex_po2] [] [ex_ups1] ex_detail Hin)
    as (Hrow & _ & _ & _ & _ & [H | [H | H]]).
  - split; [exact Hrow |]. split; [reflexivity |]. apply H.
  - destruct H as (H & _). discriminate H.
  - destruct H as (H & _). discriminate H.
Defined.

(* ------------------------------------------------------------------ *)
(** ** Parsed rows                                                       *)

Section Parsed.

Variable normalizeDate : string -> option string.

Lemma parseUploadRow_tracking (mode : SourceMode) (i : nat) (r : RawRow) :
  exists t1,
    tracking (parseUploadRow normalizeDate mode i r)
    = if truthy t1 then Some (normTracking t1) else t1.
Proof. unfold parseUploadRow. cbn [tracking]. eexists. reflexivity. Qed.

Lemma parseUploadRow_key (mode : SourceMode) (i : nat) (r : RawRow) :
  let u := parseUploadRow normalizeDate mode i r in
  keyOf u = or_str (tracking u) "" /\
  sforall is_upper_digit (or_str (tracking u) "") = true.
Proof.
  cbv zeta. unfold keyOf.
  destruct (parseUploadRow_tracking mode i r) as (t1 & ->).
  destruct (truthy t1) eqn:Ht.
  - assert (or_str (Some (normTracking t1)) "" = normTracking t1) as ->.
    { simpl. destruct (nonempty (normTracking t1)) eqn:E; auto.
      apply nonempty_false in E. congruence. }
    split; [apply normTracking_fixed |]; apply normTracking_upper_digit.
  - assert (or_str t1 "" = "") as -> by now apply or_str_empty.
    split; reflexivity.
Qed.

Lemma parseUploadRows_from_rows (mode : SourceMode) (rows : list RawRow) :
  forall i,
    map row (parseUploadRows_from normalizeDate mode i rows) = seq (i + 1) (List.length rows).
Proof.
  induction rows as [| r rows IH]; intros i; cbn [parseUploadRows_from map List.length seq];
    [reflexivity |].
  f_equal. rewrite IH. f_equal; lia.
Qed.

(** X5 — [parseUploadToRows] returns one row per sheet row, numbered from
    1 in sheet order and tagged with the role of the file.  The tracking
    number of a parsed row is already normalized (digits and upper-case
    letters only), so the key under which the merge files the row is its
    tracking field itself. *)
Theorem parsed_rows_are_normalized (rows : list RawRow) (mode : SourceMode) :
  let out := parseUploadToRows normalizeDate rows mode in
  map row out = seq 1 (List.length rows) /\
  Forall (fun u =>
            sourceMode u = mode /\
            keyOf u = or_str (tracking u) "" /\
            sforall is_upper_digit (or_str (tracking u) "") = true) out.
Proof.
  cbv zeta. unfold parseUploadToRows. split; [apply parseUploadRows_from_rows |].
  generalize 0. induction rows as [| r rows IH]; intros i; cbn [parseUploadRows_from];
    constructor; auto.
  split; [reflexivity | apply parseUploadRow_key].
Qed.

End Parsed.

(* ------------------------------------------------------------------ *)
(** ** Headers and the fallback scan                                     *)

(** A header that is not an array index. *)
Local Abbreviation named := (fun kv : string * string => negb (is_array_index (fst kv))).

(** Without array-index keys the properties are enumerated as they were
    added. *)
Lemma entries_named (o : RawRow) : forallb named o = true -> entries o = o.
Proof.
  intros H. rewrite forallb_forall in H. unfold entries.
  rewrite (filter_all_false (fun kv => is_array_index (fst kv)) o).
  - cbn [sort app]. induction o as [| kv o IH]; [reflexivity |]. cbn [filter].
    rewrite (H kv) by now left. f_equal. apply IH. intros x Hx. apply H. now right.
  - intros x Hx. specialize (H x Hx). now apply negb_true_iff in H.
Qed.



Lemma take_while_sforall (p : ascii -> bool) (s : string) :
  sforall p (take_while p s) = true.
Proof.
  induction s as [| c s IH]; simpl; auto.
  destruct (p c) eqn:E; simpl; auto. now rewrite E.
Qed.

Lemma match_run_here_spec (n : nat) (s run : string) :
  match_run_here n s = Some run ->
  sforall is_alnum run = true /\ n <= String.length run.
Proof.
  unfold match_run_here.
  destruct (n <=? String.length (take_while is_alnum s))%nat eqn:E; [| discriminate].
  intros [= <-]. split; [apply take_while_sforall | now apply Nat.leb_le].
Qed.

Lemma code_inj (c : ascii) (n : nat) : code c = n -> c = ascii_of_nat n.
Proof. intros <-. unfold code. now rewrite ascii_nat_embedding. Qed.

(** A match of the UPS pattern, before upper-casing. *)
Local Abbreviation raw_1Z m :=
  (exists c2 run,
      m = String "1" (String c2 run) /\ (c2 = "Z"%char \/ c2 = "z"%char) /\
      sforall is_alnum run = true /\ 16 <= String.length run).

Lemma match_1Z_here_spec (s m : string) : match_1Z_here s = Some m -> raw_1Z m.
Proof.
  unfold match_1Z_here. destruct s as [| c1 [| c2 rest]]; try discriminate.
  destruct ((code c1 =? 49)%nat && ((code c2 =? 90)%nat || (code c2 =? 122)%nat)) eqn:E;
    [| discriminate].
  apply andb_true_iff in E. destruct E as [E1 E2].
  apply Nat.eqb_eq, code_inj in E1. subst c1.
  destruct (match_run_here 16 rest) as [run |] eqn:Er; [| discriminate].
  intros [= <-]. apply match_run_here_spec in Er. destruct Er as [Ha Hl].
  exists c2, run. split; [reflexivity |]. split; [| auto].
  apply orb_true_iff in E2. destruct E2 as [E2 | E2]; apply Nat.eqb_eq, code_inj in E2; auto.
Qed.

Lemma match_1Z_spec (s m : string) : match_1Z s = Some m -> raw_1Z m.
Proof.
  induction s as [| c s IH]; cbn [match_1Z]; [discriminate |].
  destruct (match_1Z_here (String c s)) as [m' |] eqn:E; auto.
  intros [= <-]. now apply match_1Z_here_spec in E.
Qed.

Lemma raw_1Z_upper (m : string) :
  raw_1Z m -> ups_shaped (toUpperCase m) /\ strip_non_alnum m = m.
Proof.
  intros (c2 & run & -> & Hc & Ha & Hl). split.
  - exists (toUpperCase run). split.
    + destruct Hc as [-> | ->]; reflexivity.
    + unfold toUpperCase at 1. rewrite smap_length. split; auto.
      now apply toUpperCase_upper_digit.
  - apply sfilter_fixed. cbn [sforall]. rewrite Ha.
    destruct Hc as [-> | ->]; reflexivity.
Qed.

Lemma findUpsInString_shaped (s t : string) :
  findUpsInString s = Some t -> ups_shaped t.
Proof.
  unfold findUpsInString. destruct (negb (nonempty s)); [discriminate |].
  destruct (match_1Z s) as [direct |] eqn:Ed.
  - rewrite normTracking_Some. intros [= <-].
    apply match_1Z_spec, raw_1Z_upper in Ed. destruct Ed as [Hs Hf]. now rewrite Hf.
  - destruct (test_1Z_whole (strip_non_alnum s)) eqn:Et.
    + intros [= <-]. unfold test_1Z_whole in Et.
      destruct (match_1Z_here (strip_non_alnum s)) as [m |] eqn:Em; [| discriminate].
      apply String.eqb_eq in Et. subst m.
      now apply match_1Z_here_spec, raw_1Z_upper in Em.
    + destruct (match_1Z (strip_non_alnum s)) as [embedded |] eqn:Ee; [| discriminate].
      intros [= <-]. now apply match_1Z_spec, raw_1Z_upper in Ee.
Qed.

Lemma ups_shaped_truthy (t : string) : ups_shaped t -> truthy (Some t) = true.
Proof. intros (rest & -> & _). reflexivity. Qed.

(** X7 — What the fallback scan returns has the shape of a UPS tracking
    number: ["1Z"] followed by at least sixteen digits or upper-case
    letters.  It is the number found in the first cell that holds one, in
    the order of [Object.values]: the cells under array-index headers first,
    by ascending index, then the others in column order. *)
Theorem fallback_scan_finds_ups_numbers (rawLower : RawRow) (t : string) :
  fallbackTrackingFromAnyCell rawLower = Some t ->
  ups_shaped t /\
  (exists before v after,
      map snd (entries rawLower) = before ++ v :: after /\
      findUpsInString v = Some t /\
      Forall (fun x => findUpsInString x = None) before) /\
  (forallb named rawLower = true ->
   exists before v after,
     map snd rawLower = before ++ v :: after /\
     findUpsInString v = Some t /\
     Forall (fun x => findUpsInString x = None) before).
Proof.
  intros H.
  assert (ups_shaped t /\
          exists before v after,
            map snd (entries rawLower) = before ++ v :: after /\
            findUpsInString v = Some t /\
            Forall (fun x => findUpsInString x = None) before) as [Hs Hfirst].
  { revert H. unfold fallbackTrackingFromAnyCell. generalize (map snd (entries rawLower)) as vs.
    induction vs as [| v vs IH]; cbn [fallbackTrackingFromAnyCell_values]; [discriminate |].
    destruct (findUpsInString v) as [hit |] eqn:Ev.
    - rewrite (ups_shaped_truthy (findUpsInString_shaped _ Ev)). intros [= <-]. split.
      + now apply findUpsInString_shaped in Ev.
      + exists [], v, vs. auto.
    - cbn [truthy]. intros H. destruct (IH H) as (Hs & before & v' & after & -> & Hv & Hb).
      split; auto. exists (v :: before), v', after. auto. }
  split; [exact Hs |]. split; [exact Hfirst |].
  intros Hn. now rewrite <- (entries_named _ Hn).
Qed.

(** A row with two UPS numbers, under the headers ["b"] and ["7"]: the scan
    returns the one under ["7"], the second column. *)
Lemma fallback_scan_finds_ups_numbers_witness :
  fallbackTrackingFromAnyCell
    [("b", "1z 999-aa1 0123456784"); ("7", "ref 1Z12345E0205271688")]
  = Some "1Z12345E0205271688" /\
  ups_shaped "1Z12345E0205271688" /\
  map snd (entries [("b", "1z 999-aa1 0123456784"); ("7", "ref 1Z12345E0205271688")])
  = ["ref 1Z12345E0205271688"; "1z 999-aa1 0123456784"].
Proof.
  assert (fallbackTrackingFromAnyCell
            [("b", "1z 999-aa1 0123456784"); ("7", "ref 1Z12345E0205271688")]
          = Some "1Z12345E0205271688") as E by (vm_compute; reflexivity).
  split; [exact E |].
  split; [exact (proj1 (fallback_scan_finds_ups_numbers _ E)) | vm_compute; reflexivity].
Defined.

(* ------------------------------------------------------------------ *)
(** ** Rows without a tracking number                                  *)

Local Abbreviation keyed := (fun r : UploadRow => nonempty (keyOf r)).

Lemma fold_add_keyed (rows : list UploadRow) :
  forall m, fold_left add (filter keyed rows) m = fold_left add rows m.
Proof.
  induction rows as [| r rows IH]; intros m; [reflexivity |].
  cbn [filter fold_left]. destruct (nonempty (keyOf r)) eqn:E.
  - cbn [fold_left]. apply IH.
  - rewrite IH. f_equal. unfold add. cbv zeta. now rewrite E.
Qed.

(** X8 — Rows without a tracking number take no part in the merge: the
    results are those of the uploads with such rows removed, and uploads
    with no tracking number at all give no result. *)
Theorem untracked_rows_are_ignored (poRows shipRows upsRows : list UploadRow) :
  reconcileByTrackingPreferPO poRows shipRows upsRows
  = reconcileByTrackingPreferPO (filter keyed poRows) (filter keyed shipRows)
                                (filter keyed upsRows) /\
  ((forall r, In r (poRows ++ shipRows ++ upsRows) -> keyOf r = "") ->
   reconcileByTrackingPreferPO poRows shipRows upsRows = []).
Proof.
  assert (reconcileByTrackingPreferPO poRows shipRows upsRows
          = reconcileByTrackingPreferPO (filter keyed poRows) (filter keyed shipRows)
                                        (filter keyed upsRows)) as H.
  { unfold reconcileByTrackingPreferPO, group. now rewrite !fold_add_keyed. }
  split; [exact H |]. intros Hall. rewrite H.
  rewrite !filter_all_false; [reflexivity | | |];
    intros r Hr; (rewrite Hall; [reflexivity |]); rewrite !in_app_iff; auto.
Qed.

Lemma untracked_rows_are_ignored_witness :
  let blank := mkUploadRow 1 (Some " - ") (Some "PO-9") None None None None PO in
  (forall r, In r ([blank] ++ [] ++ []) -> keyOf r = "") /\
  reconcileByTrackingPreferPO [blank] [] [] = [].
Proof.
  intros blank.
  assert (forall r, In r ([blank] ++ [] ++ []) -> keyOf r = "") as Hall.
  { intros r [<- | []]. reflexivity. }
  split; [exact Hall |].
  exact (proj2 (untracked_rows_are_ignored [blank] [] []) Hall).
Defined.

End CrossFileMore.

(* ================================================================== *)
(** * Further facts: the flexible parser                                *)
(* ================================================================== *)

Module ParseMore.

Import Parse StringFacts MapMore CrossFileMore.
Local Open Scope list_scope.

(* ------------------------------------------------------------------ *)
(** ** Choosing the headers                                              *)

Lemma keyify_empty : keyify "" = "".
Proof. reflexivity. Qed.

(** The header that [pickHeaders] finds for a candidate. *)
Local Abbreviation headerFor headers c :=
  (find (fun h => (keyify h =? c)%string) (rev headers)).

Lemma pickHeaders_unfold (headers candidates : list string) :
  pickHeaders headers candidates
  = flat_map (fun c => match headerFor headers c with
                       | Some real => if nonempty real then [real] else []
                       | None => []
                       end) candidates.
Proof.
  unfold pickHeaders. apply flat_map_ext. intros c.
  rewrite (assign_get keyify (fun h => h) headers c []).
  destruct (headerFor headers c) as [real |]; reflexivity.
Qed.

Lemma headerFor_Some (headers : list string) (c real : string) :
  headerFor headers c = Some real -> In real headers /\ keyify real = c.
Proof.
  intros H. apply find_some in H. destruct H as [Hin E].
  split; [now apply in_rev | now apply String.eqb_eq].
Qed.

Lemma headerFor_None (headers : list string) (c : string) :
  headerFor headers c = None -> forall h, In h headers -> keyify h <> c.
Proof.
  intros H h Hh. apply in_rev in Hh. apply (find_none _ _ H h) in Hh.
  now apply String.eqb_neq.
Qed.

Lemma find_split {A} (p : A -> bool) (l : list A) (x : A) :
  find p l = Some x ->
  exists l1 l2, l = l1 ++ x :: l2 /\ p x = true /\ Forall (fun y => p y = false) l1.
Proof.
  induction l as [| y l IH]; cbn [find]; [discriminate |].
  destruct (p y) eqn:E.
  - intros [= <-]. exists [], l. auto.
  - intros H. destruct (IH H) as (l1 & l2 & -> & Hx & Hall).
    exists (y :: l1), l2. auto.
Qed.

(** The header found for a candidate is the last column with that key. *)
Lemma headerFor_last (headers : list string) (c real : string) :
  headerFor headers c = Some real ->
  exists before after,
    headers = before ++ real :: after /\ Forall (fun h => keyify h <> c) after.
Proof.
  intros H. apply find_split in H. destruct H as (l1 & l2 & E & _ & Hall).
  exists (rev l2), (rev l1). split.
  - rewrite <- (rev_involutive headers), E, rev_app_distr. cbn [rev].
    now rewrite <- app_assoc.
  - apply Forall_rev. revert Hall. apply Forall_impl. intros h Hh.
    now apply String.eqb_neq.
Qed.

(** X9 — [pickHeaders] returns headers of the sheet whose normalized form
    is one of the candidates, never the empty header.  A returned header is
    the last of the given headers with its normalized form: none after it
    has the same.
    Every candidate that names a column is served, and the headers come in
    the order of the candidate list, not in column order. *)
Theorem pickHeaders_by_candidate (headers candidates : list string) :
  (forall h, In h (pickHeaders headers candidates) ->
             In h headers /\ In (keyify h) candidates /\ h <> "") /\
  (forall h, In h (pickHeaders headers candidates) ->
             exists before after,
               headers = before ++ h :: after /\
               Forall (fun h' => keyify h' <> keyify h) after) /\
  (forall h, In h headers -> In (keyify h) candidates -> keyify h <> "" ->
             exists h', In h' (pickHeaders headers candidates) /\ keyify h' = keyify h) /\
  (Forall (fun c => c <> "") candidates ->
   map keyify (pickHeaders headers candidates)
   = filter (fun c => existsb (fun h => (keyify h =? c)%string) headers) candidates).
Proof.
  rewrite pickHeaders_unfold. split; [| split; [| split]].
  - intros h Hin. apply in_flat_map in Hin. destruct Hin as (c & Hc & Hh).
    destruct (headerFor headers c) as [real |] eqn:E; [| destruct Hh].
    destruct (nonempty real) eqn:Hn; [| destruct Hh]. destruct Hh as [<- | []].
    apply headerFor_Some in E. destruct E as [Hin <-].
    split; [exact Hin |]. split; [exact Hc | now apply nonempty_true].
  - intros h Hin. apply in_flat_map in Hin. destruct Hin as (c & Hc & Hh).
    destruct (headerFor headers c) as [real |] eqn:E; [| destruct Hh].
    destruct (nonempty real) eqn:Hn; [| destruct Hh]. destruct Hh as [<- | []].
    pose proof (@headerFor_Some _ _ _ E) as [_ <-]. now apply headerFor_last.
  - intros h Hh Hc Hne.
    destruct (headerFor headers (keyify h)) as [real |] eqn:E.
    + pose proof (@headerFor_Some _ _ _ E) as [Hin Hk]. exists real. split; [| exact Hk].
      apply in_flat_map. exists (keyify h). split; [exact Hc |]. rewrite E.
      assert (nonempty real = true) as ->; [| now left].
      apply nonempty_true. intros ->. rewrite keyify_empty in Hk. congruence.
    + exfalso. now apply (@headerFor_None _ _ E h Hh).
  - induction candidates as [| c cs IH]; intros Hall; [reflexivity |].
    inversion_clear Hall as [| ? ? Hc Hcs]. cbn [flat_map filter].
    rewrite map_app, (IH Hcs).
    destruct (headerFor headers c) as [real |] eqn:E.
    + pose proof (@headerFor_Some _ _ _ E) as [Hin Hk].
      assert (nonempty real = true) as ->.
      { apply nonempty_true. intros ->. rewrite keyify_empty in Hk. congruence. }
      assert (existsb (fun h => (keyify h =? c)%string) headers = true) as ->.
      { apply existsb_exists. exists real. split; [exact Hin | now apply String.eqb_eq]. }
      cbn [map app]. now rewrite Hk.
    + assert (existsb (fun h => (keyify h =? c)%string) headers = false) as ->; [| reflexivity].
      apply not_true_is_false. intros H. apply existsb_exists in H.
      destruct H as (h & Hh & Hk). apply String.eqb_eq in Hk.
      now apply (@headerFor_None _ _ E h Hh).
Qed.

(** Two columns with the key ["tracking no"]: the second one is picked. *)
Lemma pickHeaders_by_candidate_witness :
  let headers := ["Tracking No"; "UPS Tracking"; "PO_Number"; "tracking__no"] in
  Forall (fun c => c <> "") H.TRACKING /\
  pickHeaders headers H.TRACKING = ["tracking__no"; "UPS Tracking"] /\
  map keyify (pickHeaders headers H.TRACKING)
  = filter (fun c => existsb (fun h => (keyify h =? c)%string) headers) H.TRACKING /\
  exists before after,
    headers = before ++ "tracking__no" :: after /\
    Forall (fun h' => keyify h' <> keyify "tracking__no") after.
Proof.
  intros headers.
  assert (Forall (fun c => c <> "") H.TRACKING) as Hall
    by (repeat constructor; discriminate).
  assert (pickHeaders headers H.TRACKING = ["tracking__no"; "UPS Tracking"]) as E
    by (vm_compute; reflexivity).
  split; [exact Hall |]. split; [exact E |].
  destruct (pickHeaders_by_candidate headers H.TRACKING) as (_ & Hlast & _ & Horder).
  split; [exact (Horder Hall) |].
  apply Hlast. rewrite E. left. reflexivity.
Defined.

(* ------------------------------------------------------------------ *)
(** ** Whitespace after [replace(/\s+/g, " ")] and [trim]               *)

Lemma spaced_weaken (s : string) : spaced true s = true -> spaced false s = true.
Proof.
  destruct s as [| c s]; auto. cbn [spaced].
  destruct (is_space c); cbn [negb andb]; [discriminate | auto].
Qed.

Lemma collapse_spaced_in (cls : ascii -> bool) (s : string) (prev : bool) :
  (forall c, is_space c = true -> cls c = true) ->
  (prev = true -> match s with String c _ => cls c = false | EmptyString => True end) ->
  spaced prev (collapse cls s) = true.
Proof.
  intros Hcls. revert prev. induction s as [| c s IH]; intros prev Hp; [reflexivity |].
  cbn [collapse]. destruct (cls c) eqn:Hc.
  - assert (prev = false) as -> by (destruct prev; auto; discriminate (Hp eq_refl)).
    destruct s as [| c' s'].
    + reflexivity.
    + destruct (cls c') eqn:Hc'.
      * apply IH. discriminate.
      * cbn [spaced]. change (is_space " ") with true. cbn [negb andb].
        change (code " " =? 32)%nat with true. cbn [andb]. apply IH. auto.
  - cbn [spaced]. destruct (is_space c) eqn:Hs; [now rewrite (Hcls _ Hs) in Hc |].
    apply IH. discriminate.
Qed.

Lemma trimStart_spaced (s : string) :
  spaced false s = true -> spaced true (trimStart s) = true.
Proof.
  induction s as [| c s IH]; [reflexivity |]. cbn [trimStart].
  destruct (is_space c) eqn:Hc.
  - cbn [spaced]. rewrite Hc. cbn [negb andb]. intros H.
    apply andb_true_iff in H. destruct H as [_ H]. apply IH. now apply spaced_weaken.
  - cbn [spaced]. rewrite Hc. auto.
Qed.

Lemma trimEnd_single (s : string) (prev : bool) :
  spaced prev s = true -> trimEnd s <> "" ->
  single_spaced_from prev (trimEnd s) = true.
Proof.
  revert prev. induction s as [| c s IH]; intros prev Hs Hne; [now elim Hne |].
  cbn [trimEnd] in *. cbn [spaced] in Hs.
  destruct (trimEnd s) as [| d t] eqn:Et.
  - destruct (is_space c) eqn:Hc; [now elim Hne |].
    cbn [single_spaced_from]. now rewrite Hc.
  - cbn [single_spaced_from]. destruct (is_space c) eqn:Hc.
    + apply andb_true_iff in Hs. destruct Hs as [-> Hs]. cbn [andb].
      apply IH; [exact Hs | discriminate].
    + apply IH; [exact Hs | discriminate].
Qed.

(** A collapsed and trimmed text is single-spaced. *)
Lemma trim_collapse_single_in (cls : ascii -> bool) (s : string) :
  (forall c, is_space c = true -> cls c = true) ->
  single_spaced (trim (collapse cls s)) = true.
Proof.
  intros Hcls. unfold trim, single_spaced.
  destruct (trimEnd (trimStart (collapse cls s))) as [| c t] eqn:E; [reflexivity |].
  rewrite <- E. apply trimEnd_single; [| rewrite E; discriminate].
  apply trimStart_spaced, collapse_spaced_in; [exact Hcls | discriminate].
Qed.

Lemma trim_collapse_single (s : string) :
  single_spaced (trim (collapse is_space s)) = true.
Proof. apply trim_collapse_single_in. auto. Qed.

(* ------------------------------------------------------------------ *)
(** ** The fields of a parsed row                                        *)

Lemma match_run_spec (n : nat) (s m : string) :
  match_run n s = Some m -> sforall is_alnum m = true /\ n <= String.length m.
Proof.
  induction s as [| c s IH]; cbn [match_run].
  - destruct (match_run_here n "") as [m' |] eqn:E; [| discriminate].
    intros [= <-]. now apply match_run_here_spec in E.
  - destruct (match_run_here n (String c s)) as [m' |] eqn:E; auto.
    intros [= <-]. now apply match_run_here_spec in E.
Qed.

(** X10 — The tracking token that [extractFirstTracking] recovers from the
    tracking cells of a row has at least ten characters, all digits or
    upper-case letters. *)
Theorem extractFirstTracking_token (raw : RawRow) (t : string) :
  extractFirstTracking raw = Some t ->
  10 <= String.length t /\ sforall is_upper_digit t = true.
Proof.
  unfold extractFirstTracking.
  destruct (negb (nonempty (String.concat " " _))); [discriminate |].
  destruct (match_run 10 _) as [m |] eqn:E; [| discriminate].
  intros [= <-]. apply match_run_spec in E. destruct E as [Ha Hl].
  unfold toUpperCase at 1. rewrite smap_length. split; [exact Hl |].
  now apply toUpperCase_upper_digit.
Qed.

Lemma extractFirstTracking_token_witness :
  extractFirstTracking [("Tracking Details", "shipped via ups 1z999aa10123456784")]
  = Some "1Z999AA10123456784" /\
  10 <= String.length "1Z999AA10123456784" /\
  sforall is_upper_digit "1Z999AA10123456784" = true.
Proof.
  split; [reflexivity |].
  apply (extractFirstTracking_token
           [("Tracking Details", "shipped via ups 1z999aa10123456784")]).
  reflexivity.
Defined.

Lemma firstCell_cases (raw : RawRow) (hs : list string) :
  firstCell raw hs = None \/
  exists v, firstCell raw hs = Some v /\ v <> "" /\ exists h, In h hs /\ v = norm (prop raw h).
Proof.
  unfold firstCell. destruct (find nonempty _) as [v |] eqn:E; [right | now left].
  apply find_some in E. destruct E as [Hin Hv]. exists v. split; [reflexivity |].
  split; [now apply nonempty_true |].
  apply in_map_iff in Hin. destruct Hin as (h & <- & Hh). eauto.
Qed.

Section Fields.

Variable Date : Type.
Variable parseDateText : string -> option Date.

Lemma parseRow_fields (hs : Headers) (r : RawRow) (u : UploadRow Date) :
  In u (parseRow parseDateText hs r) ->
  orderNumber u = orderNumberOf hs r /\
  trackingNumber u = trackingNumberOf hs r /\
  partyName u = firstCell r (partyHeaders hs) /\
  _raw u = r.
Proof.
  unfold parseRow. cbv zeta.
  destruct (negb (truthy (orderNumberOf hs r)) && negb (truthy (trackingNumberOf hs r)));
    [intros [] |].
  intros [<- | []]. repeat split.
Qed.

Lemma orderNumberOf_single (hs : Headers) (r : RawRow) :
  truthy (orderNumberOf hs r) = true ->
  exists o, orderNumberOf hs r = Some o /\ o <> "" /\ single_spaced o = true.
Proof.
  unfold orderNumberOf. cbv zeta.
  generalize (fold_left (orderFallback r) orderFallbackKeys (firstCell r (orderHeaders hs))).
  intros o1. destruct (truthy o1) eqn:E1.
  - destruct o1 as [s |]; [| discriminate]. cbn [option_map]. intros Ht.
    eexists. split; [reflexivity |]. split; [| apply trim_collapse_single].
    cbn [truthy] in Ht. now apply nonempty_true.
  - congruence.
Qed.

Lemma trackingNumberOf_upper (hs : Headers) (r : RawRow) :
  option_map toUpperCase (trackingNumberOf hs r) = trackingNumberOf hs r.
Proof.
  unfold trackingNumberOf. cbv zeta.
  generalize (if truthy (firstCell r (trackingHeaders hs))
              then firstCell r (trackingHeaders hs) else extractFirstTracking r).
  intros t1. destruct (truthy t1) eqn:E.
  - destruct t1 as [t |]; [| discriminate]. cbn [option_map]. now rewrite toUpperCase_idem.
  - destruct t1 as [t |]; [| reflexivity]. cbn [truthy] in E.
    apply nonempty_false in E. now subst.
Qed.

(** X11 — In every row that [parseFile] returns, an order number that is
    present is single-spaced (no leading or trailing whitespace, and every
    run of whitespace inside replaced by one space), the tracking number
    holds no lower-case letter, and the party name is absent or non-empty. *)
Theorem parsed_fields_normalized (rows : list RawRow) (out : list (UploadRow Date))
    (u : UploadRow Date) :
  parseFile parseDateText rows = Return out ->
  In u out ->
  (truthy (orderNumber u) = true ->
   exists o, orderNumber u = Some o /\ o <> "" /\ single_spaced o = true) /\
  option_map toUpperCase (trackingNumber u) = trackingNumber u /\
  (partyName u = None \/ exists p, partyName u = Some p /\ p <> "").
Proof.
  intros Hparse Hu.
  assert (exists hs r, In u (parseRow parseDateText hs r)) as (hs & r & Hin).
  { pose proof (ParseFacts.parseFile_cases parseDateText rows) as Hc. cbv zeta in Hc.
    destruct Hc as [(_ & _ & msg & E) | (_ & E)]; [congruence |].
    rewrite E in Hparse. injection Hparse as <-.
    apply in_flat_map in Hu. destruct Hu as (r & _ & Hr).
    exists (headersOf (headerRow rows)), r. exact Hr. }
  apply parseRow_fields in Hin. destruct Hin as (-> & -> & -> & _).
  split; [apply orderNumberOf_single |]. split; [apply trackingNumberOf_upper |].
  destruct (firstCell_cases r (partyHeaders hs)) as [-> | (v & -> & Hv & _)]; eauto.
Qed.

(** X12 — A row whose cells are all empty or whitespace is never returned
    by the flexible parser, whatever the headers: it has no order number and
    no tracking number. *)
Theorem blank_rows_are_dropped (hs : Headers) (r : RawRow) :
  Forall (fun kv => trim (snd kv) = "") r ->
  usable hs r = false /\ parseRow parseDateText hs r = [].
Proof.
  intros Hblank.
  assert (forall h, norm (prop r h) = "") as Hnorm.
  { intros h. unfold norm, prop. destruct (map_get h r) as [v |] eqn:E; [| reflexivity].
    apply map_get_In in E. rewrite Forall_forall in Hblank. exact (Hblank _ E). }
  assert (forall keys, firstCell r keys = None) as Hcell.
  { intros keys. destruct (firstCell_cases r keys) as [-> | (v & _ & Hv & h & _ & ->)]; auto.
    now rewrite Hnorm in Hv. }
  assert (truthy (orderNumberOf hs r) = false) as Ho.
  { unfold orderNumberOf. cbv zeta. rewrite Hcell.
    assert (forall keys o, truthy o = false ->
                           truthy (fold_left (orderFallback r) keys o) = false) as Hfold.
    { induction keys as [| k keys IH]; intros o Hf; cbn [fold_left]; auto.
      apply IH. unfold orderFallback.
      destruct (negb (truthy o) && truthy (prop r k)); auto. now rewrite Hnorm. }
    rewrite (Hfold orderFallbackKeys None eq_refl). now apply Hfold. }
  assert (truthy (trackingNumberOf hs r) = false) as Ht.
  { unfold trackingNumberOf. cbv zeta. rewrite Hcell. cbn [truthy].
    assert (extractFirstTracking r = None) as ->; [| reflexivity].
    unfold extractFirstTracking.
    assert (filter nonempty (map (fun k => norm (prop r k)) trackingPool) = []) as ->.
    { apply CrossFileFacts.filter_all_false. intros x Hx.
      apply in_map_iff in Hx. destruct Hx as (k & <- & _). now rewrite Hnorm. }
    reflexivity. }
  split; [unfold usable; now rewrite Ho, Ht |].
  unfold parseRow. cbv zeta. now rewrite Ho, Ht.
Qed.

Lemma firstDate_app (raw : RawRow) (ks ks' : list string) :
  firstDate parseDateText raw (ks ++ ks')
  = match firstDate parseDateText raw ks with
    | Some d => Some d
    | None => firstDate parseDateText raw ks'
    end.
Proof.
  induction ks as [| k ks IH]; [reflexivity |]. cbn [app firstDate].
  destruct (parseDateLike parseDateText (prop raw k)); auto.
Qed.

Lemma firstDate_Some (raw : RawRow) (ks : list string) (d : Date) :
  firstDate parseDateText raw ks = Some d ->
  exists h s, In h ks /\ prop raw h = Some s /\ trim s <> "" /\ parseDateText (trim s) = Some d.
Proof.
  induction ks as [| k ks IH]; [discriminate |]. cbn [firstDate].
  destruct (parseDateLike parseDateText (prop raw k)) as [d' |] eqn:E.
  - intros [= ->]. unfold parseDateLike in E.
    destruct (prop raw k) as [s |] eqn:Es; [| discriminate].
    destruct (negb (nonempty s)); [discriminate |]. cbv zeta in E. change (norm (Some s)) with (trim s) in E.
    destruct (nonempty (trim s)) eqn:En; cbn [negb] in E; [| discriminate].
    exists k, s. split; [now left |]. split; [exact Es |].
    split; [now apply nonempty_true | exact E].
  - intros H. destruct (IH H) as (h & s & Hin & Hrest). exists h, s. split; [now right | exact Hrest].
Qed.

(** X13 — The asserted date of a row is read from the first cell that
    parses as a date, looking first under the recognized date headers and
    then under the fixed fallback names; it is always the parse of the
    trimmed text of a non-blank cell. *)
Theorem asserted_date_source (hs : Headers) (raw : RawRow) :
  assertedDateOf parseDateText hs raw
  = firstDate parseDateText raw (dateHeaders hs ++ dateFallbackKeys) /\
  (forall d, assertedDateOf parseDateText hs raw = Some d ->
             exists h s, In h (dateHeaders hs ++ dateFallbackKeys) /\
                         prop raw h = Some s /\ trim s <> "" /\
                         parseDateText (trim s) = Some d).
Proof.
  assert (assertedDateOf parseDateText hs raw
          = firstDate parseDateText raw (dateHeaders hs ++ dateFallbackKeys)) as H.
  { unfold assertedDateOf. now rewrite firstDate_app. }
  split; [exact H |]. rewrite H. intros d. apply firstDate_Some.
Qed.

End Fields.

Lemma parsed_fields_normalized_witness :
  let sheet :=
    [ [("PO Number", "  PO   100 "); ("Tracking", "1z999aa10123456784"); ("Vendor", "Acme")] ] in
  let u := {| orderNumber := Some "PO 100";
              partyName := Some "Acme";
              trackingNumber := Some "1Z999AA10123456784";
              assertedDate := @None string;
              _raw := hd [] sheet |} in
  parseFile ex_parseDateText sheet = Return [u] /\
  In u [u] /\
  (truthy (orderNumber u) = true ->
   exists o, orderNumber u = Some o /\ o <> "" /\ single_spaced o = true) /\
  option_map toUpperCase (trackingNumber u) = trackingNumber u /\
  (partyName u = None \/ exists p, partyName u = Some p /\ p <> "").
Proof.
  intros sheet u.
  assert (parseFile ex_parseDateText sheet = Return [u]) as H1 by (vm_compute; reflexivity).
  assert (In u [u]) as H2 by (left; reflexivity).
  split; [exact H1 |]. split; [exact H2 |].
  exact (@parsed_fields_normalized string ex_parseDateText sheet [u] u H1 H2).
Defined.

Lemma blank_rows_are_dropped_witness :
  let r := [("PO Number", ""); ("Tracking", "   "); ("Notes", "")] in
  let hs := headersOf ["PO Number"; "Tracking"; "Notes"] in
  Forall (fun kv => trim (snd kv) = "") r /\
  usable hs r = false /\ parseRow ex_parseDateText hs r = [].
Proof.
  intros r hs.
  assert (Forall (fun kv => trim (snd kv) = "") r) as Hb by (repeat constructor).
  split; [exact Hb |].
  exact (@blank_rows_are_dropped string ex_parseDateText hs r Hb).
Defined.

Lemma asserted_date_source_witness :
  let hs := headersOf ["Tracking"; "Ship Date"] in
  let raw := [("Tracking", "1z999aa10123456784"); ("Ship Date", " 2024-02-01 ")] in
  assertedDateOf ex_parseDateText hs raw = Some "2024-02-01T00:00:00.000Z" /\
  exists h s, In h (dateHeaders hs ++ dateFallbackKeys) /\
              prop raw h = Some s /\ trim s <> "" /\
              ex_parseDateText (trim s) = Some "2024-02-01T00:00:00.000Z".
Proof.
  intros hs raw.
  assert (assertedDateOf ex_parseDateText hs raw = Some "2024-02-01T00:00:00.000Z") as E
    by (vm_compute; reflexivity).
  split; [exact E |].
  exact (proj2 (asserted_date_source ex_parseDateText hs raw) _ E).
Defined.

End ParseMore.

(* ================================================================== *)
(** * Further facts: the order system and the verification route       *)
(* ================================================================== *)

Module TruthSourceMore.

Import TruthSource TruthSourceFacts StringFacts MapMore.
Local Open Scope list_scope.

(* ------------------------------------------------------------------ *)
(** ** Packages of the order system                                      *)

Local Abbreviation plain c := (negb (is_space c || is_hyphen c || is_lower c)).

Lemma strip_upper_plain (s : string) :
  sforall (fun c => plain c) (strip_space_hyphen (toUpperCase s)) = true.
Proof.
  unfold strip_space_hyphen, toUpperCase.
  induction s as [| c s IH]; cbn [smap sfilter sforall]; auto.
  destruct (negb (is_space (upper_char c) || is_hyphen (upper_char c))) eqn:E; auto.
  cbn [sforall]. rewrite IH, andb_true_r.
  apply negb_true_iff in E. apply negb_true_iff. now rewrite E, is_lower_upper.
Qed.

Lemma plain_fixed (t : string) :
  sforall (fun c => plain c) t = true -> strip_space_hyphen (toUpperCase t) = t.
Proof.
  intros H. unfold toUpperCase.
  rewrite (@smap_fixed upper_char (fun c => plain c) t); auto.
  - apply sfilter_fixed. revert H. apply sforall_impl. intros c Hc.
    apply negb_true_iff in Hc. apply negb_true_iff.
    now destruct (is_space c || is_hyphen c).
  - intros c Hc. unfold upper_char. apply negb_true_iff in Hc.
    destruct (is_lower c); auto. now rewrite orb_true_r in Hc.
Qed.

(** The tracking number read from a package of the answer. *)
Local Abbreviation readTracking rp :=
  (strip_space_hyphen
     (toUpperCase (or_str' (nullish (p_trackingNumber rp) (p_tracking rp))))).

(** The date read from a document of the answer. *)
Local Abbreviation dateOf doc :=
  (nullish (doc_date doc) (nullish (doc_shipDate doc) (doc_receiptDate doc))).

(** X14 — The packages that [extractPackages] returns are those of the
    documents of the answer whose tracking number, upper-cased and without
    whitespace and hyphens, is not empty.  Each carries that tracking number
    and the date of the document that lists it: the first of [date],
    [shipDate] and [receiptDate] present on that document.  The
    normalization of the route leaves the tracking number unchanged: it has
    no whitespace, hyphen or lower-case letter. *)
Theorem extracted_packages_normal (activity : option Activity) (p : Package) :
  (In p (extractPackages activity) <->
   exists a doc rp,
     activity = Some a /\
     In doc (or_nil (docs a)) /\
     In rp (or_nil (doc_packages doc)) /\
     tracking p = readTracking rp /\
     tracking p <> "" /\
     date p = dateOf doc) /\
  (In p (extractPackages activity) ->
   sforall (fun c => plain c) (tracking p) = true /\
   strip_space_hyphen (toUpperCase (tracking p)) = tracking p).
Proof.
  assert (In p (extractPackages activity) <->
          exists a doc rp,
            activity = Some a /\
            In doc (or_nil (docs a)) /\
            In rp (or_nil (doc_packages doc)) /\
            tracking p = readTracking rp /\
            tracking p <> "" /\
            date p = dateOf doc) as Hiff.
  { destruct activity as [a |]; cbn [extractPackages].
    - rewrite in_flat_map. split.
      + intros (doc & Hdoc & Hin). cbv zeta in Hin. apply in_flat_map in Hin.
        destruct Hin as (rp & Hrp & Hin).
        destruct (nonempty (strip_space_hyphen (toUpperCase _))) eqn:E in Hin;
          [| destruct Hin].
        destruct Hin as [<- | []]. cbn [tracking date]. apply nonempty_true in E.
        exists a, doc, rp. split; [reflexivity |]. split; [exact Hdoc |].
        split; [exact Hrp |]. split; [reflexivity |]. split; [exact E | reflexivity].
      + intros (a' & doc & rp & [= <-] & Hdoc & Hrp & Ht & Hne & Hd).
        exists doc. split; [exact Hdoc |]. cbv zeta. apply in_flat_map.
        exists rp. split; [exact Hrp |].
        change (match nullish (p_trackingNumber rp) (p_tracking rp) with
                | Some s => s
                | None => ""
                end) with (or_str' (nullish (p_trackingNumber rp) (p_tracking rp))).
        rewrite <- Ht. apply nonempty_true in Hne. rewrite Hne. left.
        destruct p as [t d]. cbn [tracking date] in *. now subst.
    - split; [intros [] | intros (a & _ & _ & [=] & _)]. }
  split; [exact Hiff |].
  intros Hin. apply Hiff in Hin. destruct Hin as (a & doc & rp & _ & _ & _ & -> & _ & _).
  split; [apply strip_upper_plain | apply plain_fixed, strip_upper_plain].
Qed.

(** An answer with two documents: the package of the second document
    carries the date of the second document. *)
Lemma extracted_packages_normal_witness :
  let doc1 := mkDoc (Some "2024-02-01") None None
                    (Some [ mkRawPackage (Some "1z 999-aa1 0123456784") None;
                            mkRawPackage (Some " - ") None ]) in
  let doc2 := mkDoc None (Some "2024-02-03") None
                    (Some [ mkRawPackage None (Some "1Z12345E0205271688") ]) in
  let a := Some (mkActivity (Some [doc1; doc2])) in
  let p := mkPackage "1Z12345E0205271688" (Some "2024-02-03") in
  extractPackages a
  = [ mkPackage "1Z999AA10123456784" (Some "2024-02-01"); p ] /\
  (exists a' doc rp,
      a = Some a' /\ In doc (or_nil (docs a')) /\ In rp (or_nil (doc_packages doc)) /\
      tracking p = readTracking rp /\ tracking p <> "" /\ date p = dateOf doc) /\
  strip_space_hyphen (toUpperCase (tracking p)) = tracking p.
Proof.
  intros doc1 doc2 a p.
  assert (extractPackages a
          = [ mkPackage "1Z999AA10123456784" (Some "2024-02-01"); p ]) as E by reflexivity.
  split; [exact E |].
  assert (In p (extractPackages a)) as Hin by (rewrite E; right; left; reflexivity).
  destruct (extracted_packages_normal a p) as [Hiff Hnorm].
  split; [exact (proj1 Hiff Hin) | exact (proj2 (Hnorm Hin))].
Defined.

Section Route.

Variable Date : Type.
Variable toISOString : Date -> string.
Variable decide : DecideInput Date -> Decision.
Variable thrown : Client -> Mode -> Row Date -> option (option string).

Local Abbreviation lookup := (lookup toISOString).
Local Abbreviation reconcileOne := (reconcileOne toISOString decide).
Local Abbreviation reconcileRow := (reconcileRow toISOString decide thrown).
Local Abbreviation reconcileRows := (reconcileRows toISOString decide thrown).

Lemma reconcileOne_calls (ot : Client) (mode : Mode) (r : Row Date) :
  calls (reconcileOne ot mode r) = calls (lookup ot mode r).
Proof. now rewrite reconcileOne_lookup. Qed.

Lemma lookup_order (ot : Client) (mode : Mode) (r : Row Date) :
  truthy (orderNumber r) = true ->
  let n := or_str (orderNumber r) "" in
  let order := catch_null (getOrder ot mode n) in
  lookup ot mode r
  = match order with
    | Some o =>
        ((true, extractPackages (catch_null (getActivity ot mode n)),
          nullish (o_partyName o) (nullish (o_vendorName o) (o_customerName o))),
         [CallGetOrder mode n; CallGetActivity mode n])
    | None => ((false, [], None), [CallGetOrder mode n])
    end.
Proof.
  intros Ho n order. unfold TruthSource.lookup, bind, ret, await_getOrder, await_getActivity.
  rewrite Ho. fold n. cbn [fst snd]. fold order. now destruct order.
Qed.

(** X15 — For a row with an order number the order is requested by that
    number, and its activity only when the order was found; the tracking
    search is never used, whatever tracking number the row carries.  The
    order exists exactly when the request returned one; a failed or empty
    activity request leaves a found order without packages. *)
Theorem order_rows_lookup (ot : Client) (mode : Mode) (r : Row Date) :
  truthy (orderNumber r) = true ->
  let n := or_str (orderNumber r) "" in
  let order := catch_null (getOrder ot mode n) in
  let found := value (lookup ot mode r) in
  calls (reconcileOne ot mode r)
  = CallGetOrder mode n :: match order with Some _ => [CallGetActivity mode n] | None => [] end /\
  (fst (fst found) = true <-> order <> None) /\
  (order = None -> found = (false, [], None)) /\
  (catch_null (getActivity ot mode n) = None -> snd (fst found) = []).
Proof.
  intros Ho n order found. subst found.
  rewrite reconcileOne_calls, (lookup_order ot mode r Ho). fold n. fold order.
  destruct order as [o |]; cbn [value calls fst snd].
  - split; [reflexivity |]. split; [split; congruence |]. split; [discriminate |].
    now intros ->.
  - split; [reflexivity |]. split; [split; congruence |]. auto.
Qed.

(** X16 — A row with neither an order number nor a tracking number causes
    no request: it is decided as a missing order with no packages and no
    party, the same whatever the order system holds. *)
Theorem unidentified_rows_ask_nothing (ot ot' : Client) (mode : Mode) (r : Row Date) :
  truthy (orderNumber r) = false ->
  truthy (trackingNumber r) = false ->
  lookup ot mode r = ((false, [], None), []) /\
  calls (reconcileOne ot mode r) = [] /\
  reconcileOne ot mode r = reconcileOne ot' mode r.
Proof.
  intros Ho Ht.
  assert (forall c, lookup c mode r = ((false, [], None), [])) as H.
  { intros c. unfold TruthSource.lookup. now rewrite Ho, Ht. }
  split; [apply H |]. rewrite !reconcileOne_lookup, !H. auto.
Qed.

Lemma lookup_calls_bound (ot : Client) (mode : Mode) (r : Row Date) :
  List.length (calls (lookup ot mode r)) <= 2.
Proof.
  destruct (truthy (orderNumber r)) eqn:Ho.
  - rewrite (lookup_order ot mode r Ho).
    destruct (catch_null _); cbn [calls snd List.length]; lia.
  - unfold TruthSource.lookup. rewrite Ho.
    destruct (truthy (trackingNumber r)); cbn; lia.
Qed.

(* ------------------------------------------------------------------ *)
(** ** The loop                                                          *)

(** The requests of one row: those of the evaluation under its own mode,
    then, unless that evaluation throws, those of the evaluation under the
    other mode. *)
Local Abbreviation rowCalls ot :=
  (fun r : Row Date =>
     calls (lookup ot (declared r) r)
     ++ match thrown ot (declared r) r with
        | Some _ => []
        | None => calls (lookup ot (opposite (declared r)) r)
        end).

(** The first evaluation of [r] that throws, throws [message]. *)
Local Abbreviation throws ot r message :=
  (thrown ot (declared r) r = Some message \/
   (thrown ot (declared r) r = None /\ thrown ot (opposite (declared r)) r = Some message)).

Lemma reconcileRow_eq (ot : Client) (i : nat) (r : Row Date) :
  reconcileRow ot i r
  = (value (reconcileRow ot i r), rowCalls ot r) /\
  d_row (value (reconcileRow ot i r)) = i + 1 /\
  d_sourceMode (value (reconcileRow ot i r))
  = Some (match sourceMode r with Some m => mode_str m | None => "" end) /\
  d_orderNumber (value (reconcileRow ot i r)) = or_str' (orderNumber r) /\
  trackingUpload (value (reconcileRow ot i r)) = or_str' (trackingNumber r).
Proof.
  unfold TruthSource.reconcileRow. cbv zeta.
  rewrite (TruthSourceFacts.attempts_cases toISOString decide thrown).
  change (preferOf r) with (declared r).
  change (otherOf (declared r)) with (opposite (declared r)).
  destruct (thrown ot (declared r) r) as [m |];
    [| destruct (thrown ot (opposite (declared r)) r) as [m |]];
    unfold bind, ret, value, calls; cbn [fst snd]; rewrite ?app_nil_r; repeat split.
Qed.

Lemma reconcileRow_threw (ot : Client) (i : nat) (r : Row Date) (message : option string) :
  throws ot r message ->
  let d := value (reconcileRow ot i r) in
  chosenMode d = None /\
  d_verdict d = "ERROR" /\
  d_reason d = match message with Some m => m | None => "Unknown error" end /\
  d_dayDelta d = None /\
  poVerdict d = None /\
  soVerdict d = None.
Proof.
  intros H. cbv zeta. unfold TruthSource.reconcileRow. cbv zeta.
  rewrite (TruthSourceFacts.attempts_cases toISOString decide thrown).
  change (preferOf r) with (declared r).
  change (otherOf (declared r)) with (opposite (declared r)).
  destruct H as [-> | [-> ->]]; repeat split.
Qed.

Lemma ranked_max (ot : Client) (vFirst vSecond : ModeResult) (nFirst nSecond : nat) :
  ranked (verdict vFirst) nFirst -> ranked (verdict vSecond) nSecond ->
  ranked (verdict (pick vFirst vSecond)) (Nat.max nFirst nSecond).
Proof.
  intros R1 R2. unfold pick.
  rewrite (TruthSourceFacts.ranked_score R1), (TruthSourceFacts.ranked_score R2).
  destruct (Nat.ltb_spec nFirst nSecond).
  - now rewrite Nat.max_r by lia.
  - now rewrite Nat.max_l by lia.
Qed.

(** X17 — When both evaluations of a row return, its detail reports under
    [poVerdict] the verdict of the purchase-order evaluation and under
    [soVerdict] that of the sales-order evaluation, whichever was made
    first; the reported verdict is the one of the chosen mode, and its rank
    is the higher of the two.  When an evaluation throws, the detail is an
    error detail: verdict ERROR, the message of the thrown value as reason
    (["Unknown error"] when it has none), an empty chosen mode, and no
    [dayDelta], [poVerdict] or [soVerdict]. *)
Theorem detail_verdicts (ot : Client) (i : nat) (r : Row Date) :
  let d := value (reconcileRow ot i r) in
  (thrown ot PO r = None -> thrown ot SO r = None ->
   let vPO := verdict (value (reconcileOne ot PO r)) in
   let vSO := verdict (value (reconcileOne ot SO r)) in
   poVerdict d = Some vPO /\
   soVerdict d = Some vSO /\
   (chosenMode d = Some PO /\ d_verdict d = vPO \/
    chosenMode d = Some SO /\ d_verdict d = vSO) /\
   (forall nPO nSO, ranked vPO nPO -> ranked vSO nSO ->
                    ranked (d_verdict d) (Nat.max nPO nSO))) /\
  (forall message,
      throws ot r message ->
      chosenMode d = None /\
      d_verdict d = "ERROR" /\
      d_reason d = match message with Some m => m | None => "Unknown error" end /\
      d_dayDelta d = None /\
      poVerdict d = None /\
      soVerdict d = None /\
      json_field "chosenMode" (detailJson d) = Some (JString "") /\
      json_field "dayDelta" (detailJson d) = None /\
      json_field "poVerdict" (detailJson d) = None /\
      json_field "soVerdict" (detailJson d) = None).
Proof.
  cbv zeta. split.
  - intros HPO HSO.
    assert (thrown ot (preferOf r) r = None) as H1 by (destruct (preferOf r); assumption).
    assert (thrown ot (otherOf (preferOf r)) r = None) as H2
      by (destruct (preferOf r); assumption).
    destruct (@TruthSourceFacts.reconcileRow_returned _ toISOString decide thrown ot i r H1 H2)
      as (Hm & Hv & Hp & Hs & _).
    rewrite Hm, Hv, Hp, Hs.
    pose proof (TruthSourceFacts.reconcileOne_mode toISOString decide ot (preferOf r) r) as M1.
    pose proof (TruthSourceFacts.reconcileOne_mode toISOString decide ot (otherOf (preferOf r)) r)
      as M2.
    destruct (preferOf r); cbn [otherOf] in *.
    + split; [reflexivity |]. split; [reflexivity |]. split.
      * unfold pick. destruct (_ <? _)%nat; rewrite ?M1, ?M2; auto.
      * intros nPO nSO R1 R2. exact (ranked_max ot _ _ R1 R2).
    + split; [reflexivity |]. split; [reflexivity |]. split.
      * unfold pick. destruct (_ <? _)%nat; rewrite ?M1, ?M2; auto.
      * intros nPO nSO R1 R2. rewrite Nat.max_comm. exact (ranked_max ot _ _ R2 R1).
  - intros message H.
    destruct (@reconcileRow_threw ot i r message H) as (Hc & Hv & Hr & Hd & Hp & Hs).
    repeat (split; [assumption |]).
    unfold detailJson. rewrite Hc, Hd, Hp, Hs.
    destruct (d_sourceMode _); repeat split.
Qed.

Lemma reconcileRows_unfold (ot : Client) (i : nat) (r : Row Date) (rows : list (Row Date)) :
  reconcileRows ot i (r :: rows)
  = (value (reconcileRow ot i r) :: value (reconcileRows ot (S i) rows),
     calls (reconcileRow ot i r) ++ calls (reconcileRows ot (S i) rows)).
Proof.
  cbn [TruthSource.reconcileRows]. unfold bind, ret, value, calls.
  destruct (TruthSource.reconcileRow toISOString decide thrown ot i r).
  destruct (TruthSource.reconcileRows toISOString decide thrown ot (S i) rows).
  cbn [fst snd]. now rewrite app_nil_r.
Qed.

Lemma rowCalls_bound (ot : Client) (r : Row Date) : List.length (rowCalls ot r) <= 4.
Proof.
  cbv beta. rewrite length_app.
  pose proof (lookup_calls_bound ot (declared r) r).
  pose proof (lookup_calls_bound ot (opposite (declared r)) r).
  destruct (thrown ot (declared r) r); cbn [List.length]; lia.
Qed.

Lemma reconcileRows_from (ot : Client) (rows : list (Row Date)) :
  forall i,
    let details := value (reconcileRows ot i rows) in
    map (@d_row) details = seq (i + 1) (List.length rows) /\
    map (@d_sourceMode) details
    = map (fun r => Some (match sourceMode r with Some m => mode_str m | None => "" end))
          rows /\
    map (@d_orderNumber) details = map (fun r => or_str' (orderNumber r)) rows /\
    map (@trackingUpload) details = map (fun r => or_str' (trackingNumber r)) rows /\
    calls (reconcileRows ot i rows) = flat_map (rowCalls ot) rows /\
    List.length (calls (reconcileRows ot i rows)) <= 4 * List.length rows.
Proof.
  induction rows as [| r rows IH]; intros i; cbv zeta.
  - cbn. repeat split; auto.
  - rewrite reconcileRows_unfold. cbn [value calls fst snd map List.length seq flat_map].
    destruct (IH (S i)) as (H1 & Hs & H2 & H3 & H5 & H4).
    destruct (reconcileRow_eq ot i r) as (Hc & Hr & Hsm & Ho & Ht).
    rewrite H1, Hs, H2, H3, Hr, Hsm, Ho, Ht.
    replace (S i + 1) with (S (i + 1)) by lia.
    assert (calls (reconcileRow ot i r) = rowCalls ot r) as -> by (now rewrite Hc).
    rewrite H5 in *. rewrite length_app.
    pose proof (rowCalls_bound ot r).
    repeat split; lia.
Qed.

(** X18 — The loop returns one detail per row, numbered from one in row
    order and echoing the row's order number and tracking number.  The
    requests are made row by row: those of the evaluation under the row's
    own mode, then, unless that evaluation throws, those of the evaluation
    under the other mode; there are at most four per row. *)
Theorem details_follow_rows (ot : Client) (rows : list (Row Date)) :
  let details := value (reconcileRows ot 0 rows) in
  map (@d_row) details = seq 1 (List.length rows) /\
  map (@d_orderNumber) details = map (fun r => or_str' (orderNumber r)) rows /\
  map (@trackingUpload) details = map (fun r => or_str' (trackingNumber r)) rows /\
  calls (reconcileRows ot 0 rows) = flat_map (rowCalls ot) rows /\
  List.length (calls (reconcileRows ot 0 rows)) <= 4 * List.length rows.
Proof.
  destruct (reconcileRows_from ot rows 0) as (H1 & _ & H2 & H3 & H4 & H5).
  cbv zeta. auto.
Qed.

(* ------------------------------------------------------------------ *)
(** ** The summary and the handler                                       *)

Local Abbreviation tally v ds :=
  (List.length (filter (fun d : Detail => (d_verdict d =? v)%string) ds)).

Local Abbreviation counted ds counts :=
  (fold_left (fun counts (d : Detail) => bump counts (d_verdict d)) ds counts).

Lemma bump_get (counts : JsMap nat) (v k : string) :
  map_get k (bump counts v)
  = if (v =? k)%string
    then Some (match map_get v counts with Some n => n | None => 0 end + 1)
    else map_get k counts.
Proof. unfold bump. apply map_get_map_set. Qed.

Lemma bump_sum (counts : JsMap nat) (v : string) :
  list_sum (map snd (bump counts v)) = list_sum (map snd counts) + 1.
Proof.
  unfold bump. induction counts as [| [k n] m IH]; cbn [map_get map_set]; [reflexivity |].
  destruct (k =? v)%string; unfold list_sum in *; cbn [map snd fold_right] in *; [lia |].
  rewrite IH. lia.
Qed.

Lemma counted_get (ds : list Detail) (k : string) :
  forall counts,
    map_get k (counted ds counts)
    = match tally k ds with
      | 0 => map_get k counts
      | S n => Some (match map_get k counts with Some c => c | None => 0 end + S n)
      end.
Proof.
  induction ds as [| d ds IH]; intros counts; [reflexivity |].
  cbn [fold_left filter]. rewrite IH, bump_get.
  destruct (String.eqb_spec (d_verdict d) k) as [-> | Hne]; [| reflexivity].
  cbn [List.length]. destruct (tally k ds); f_equal; lia.
Qed.

Lemma counted_sum (ds : list Detail) :
  forall counts,
    list_sum (map snd (counted ds counts)) = list_sum (map snd counts) + List.length ds.
Proof.
  induction ds as [| d ds IH]; intros counts; cbn [fold_left List.length]; [lia |].
  rewrite IH, bump_sum. lia.
Qed.

(** X19 — The summary holds, for each verdict, the number of details with
    that verdict, and no entry for a verdict that no detail has; its counts
    add up to the number of details. *)
Theorem summary_counts_verdicts (details : list Detail) :
  (forall v, map_get v (summaryOf details)
             = match tally v details with 0 => None | S n => Some (S n) end) /\
  list_sum (map snd (summaryOf details)) = List.length details.
Proof.
  unfold summaryOf. split.
  - intros v. rewrite counted_get. now destruct (tally v details).
  - now rewrite counted_sum.
Qed.

Variable parseDateText : string -> option Date.

Local Abbreviation POST := (POST toISOString decide thrown parseDateText).
Local Abbreviation parseAndTag := (parseAndTag parseDateText).

Lemma POST_unfold (ot : Client) (poFile soFile : option (list Parse.RawRow)) :
  poFile <> None \/ soFile <> None ->
  POST ot poFile soFile
  = match parseAndTag poFile PO with
    | Throw msg => ret (Status500 ("Fatal error: " ++ msg))
    | Return poRows =>
        match parseAndTag soFile SO with
        | Throw msg => ret (Status500 ("Fatal error: " ++ msg))
        | Return soRows =>
            if CrossFile.is_nil (poRows ++ soRows)
            then ret (Status400 "No data rows found in uploads.")
            else
              (Status200 (summaryOf (value (reconcileRows ot 0 (poRows ++ soRows))))
                         (value (reconcileRows ot 0 (poRows ++ soRows))),
               calls (reconcileRows ot 0 (poRows ++ soRows)))
        end
    end.
Proof.
  intros H. unfold TruthSource.POST.
  assert (forall rows, (details <- reconcileRows ot 0 rows ;;
                        ret (Status200 (summaryOf details) details))
                       = (Status200 (summaryOf (value (reconcileRows ot 0 rows)))
                                    (value (reconcileRows ot 0 rows)),
                          calls (reconcileRows ot 0 rows))) as Hb.
  { intros rows. unfold bind, ret, value, calls.
    destruct (TruthSource.reconcileRows toISOString decide thrown ot 0 rows). cbn [fst snd].
    now rewrite app_nil_r. }
  destruct poFile, soFile; cbv beta iota zeta;
    try (destruct H as [H | H]; now elim H);
    destruct (parseAndTag _ PO); auto; destruct (parseAndTag _ SO); auto;
    now rewrite Hb.
Qed.

(** X20 — The handler answers 400 without reading anything when neither
    file is present.  It calls the order system only on the way to a 200
    answer: a 400 or 500 answer comes with no request made.  A 200 answer
    carries at least one detail, error details included, numbered from one,
    the summary of these details, and at most four requests per detail. *)
Theorem POST_answers (ot : Client) (poFile soFile : option (list Parse.RawRow)) :
  POST ot None None
  = (Status400 "Upload at least one file: 'poFile' and/or 'soFile'", []) /\
  ((forall summary details, value (POST ot poFile soFile) <> Status200 summary details) ->
   calls (POST ot poFile soFile) = []) /\
  (forall summary details,
      value (POST ot poFile soFile) = Status200 summary details ->
      details <> [] /\
      summary = summaryOf details /\
      map (@d_row) details = seq 1 (List.length details) /\
      List.length (calls (POST ot poFile soFile)) <= 4 * List.length details).
Proof.
  split; [reflexivity |].
  destruct poFile as [p |] eqn:Ep, soFile as [s |] eqn:Es;
    try (split; [reflexivity | intros ? ? [=]]).
  all: rewrite <- ?Ep, <- ?Es; rewrite POST_unfold by (subst; auto; (left + right); discriminate).
  all: destruct (parseAndTag _ PO) as [poRows | msg];
    [| split; [reflexivity | intros ? ? [=]]].
  all: destruct (parseAndTag _ SO) as [soRows | msg];
    [| split; [reflexivity | intros ? ? [=]]].
  all: destruct (CrossFile.is_nil (poRows ++ soRows)) eqn:En;
    [split; [reflexivity | intros ? ? [=]] |].
  all: cbn [value calls fst snd]; split; [intros H; now elim (H _ _ eq_refl) |].
  all: intros summary details [= <- <-].
  all: destruct (reconcileRows_from ot (poRows ++ soRows) 0) as (Hrow & _ & _ & _ & _ & Hc).
  all: assert (List.length (value (reconcileRows ot 0 (poRows ++ soRows)))
               = List.length (poRows ++ soRows)) as Hlen
      by (rewrite <- (length_map (@d_row)), Hrow; apply length_seq).
  all: rewrite Hlen; split; [| auto].
  all: intros E; rewrite E in Hlen; destruct (poRows ++ soRows); discriminate.
Qed.

Local Abbreviation identified r :=
  (truthy (orderNumber r) = true \/ truthy (trackingNumber r) = true).

Lemma lookup_calls_identified (ot : Client) (mode : Mode) (r : Row Date) :
  identified r -> 1 <= List.length (calls (lookup ot mode r)).
Proof.
  intros Hid. destruct (truthy (orderNumber r)) eqn:Ho.
  - rewrite (lookup_order ot mode r Ho).
    destruct (catch_null _); cbn [calls snd List.length]; lia.
  - destruct Hid as [Hid | Ht]; [discriminate |].
    unfold TruthSource.lookup. rewrite Ho, Ht. cbn. lia.
Qed.

Lemma rowCalls_identified (ot : Client) (rows : list (Row Date)) :
  Forall (fun r => identified r) rows ->
  List.length rows <= List.length (flat_map (rowCalls ot) rows) /\
  (Forall (fun r => thrown ot (declared r) r = None) rows ->
   2 * List.length rows <= List.length (flat_map (rowCalls ot) rows)).
Proof.
  induction 1 as [| r rows Hr _ [IH1 IH2]]; cbn [flat_map List.length]; [split; auto |].
  rewrite !length_app.
  pose proof (lookup_calls_identified ot (declared r) r Hr).
  pose proof (lookup_calls_identified ot (opposite (declared r)) r Hr).
  split; [lia |].
  intros Hall. inversion_clear Hall as [| ? ? Hnone Hrest]. rewrite Hnone in *.
  specialize (IH2 Hrest). lia.
Qed.

Lemma parseAndTag_rows (file : option (list Parse.RawRow)) (tag : Mode)
    (rows : list (Row Date)) :
  parseAndTag file tag = Return rows ->
  Forall (fun r => sourceMode r = Some tag /\ identified r) rows.
Proof.
  unfold TruthSource.parseAndTag. destruct file as [sheet |]; [| intros [= <-]; constructor].
  destruct (Parse.parseFile parseDateText sheet) as [parsed | msg] eqn:E; [| discriminate].
  intros [= <-]. apply ParseFacts.parseFile_identified in E.
  rewrite Forall_forall in *. intros r Hr. apply in_map_iff in Hr.
  destruct Hr as (u & <- & Hu). split; [reflexivity | exact (E u Hu)].
Qed.

(** X21 — In the two-file route the rows of the PO file come first and are
    evaluated as purchase orders first, the rows of the SO file follow and
    are evaluated as sales orders first; each detail names the file of its
    row.  Every row has an identifier, so its first evaluation makes at
    least one request, and so does the second when the first does not
    throw. *)
Theorem rows_keep_their_file
    (ot : Client) (poFile soFile : option (list Parse.RawRow)) (poRows soRows : list (Row Date)) :
  parseAndTag poFile PO = Return poRows ->
  parseAndTag soFile SO = Return soRows ->
  poRows ++ soRows <> [] ->
  let rows := poRows ++ soRows in
  let details := value (reconcileRows ot 0 rows) in
  POST ot poFile soFile
  = (Status200 (summaryOf details) details, flat_map (rowCalls ot) rows) /\
  map (@d_sourceMode) details
  = map (fun _ => Some "PO") poRows ++ map (fun _ => Some "SO") soRows /\
  Forall (fun r => declared r = PO) poRows /\
  Forall (fun r => declared r = SO) soRows /\
  List.length rows <= List.length (calls (POST ot poFile soFile)) /\
  (Forall (fun r => thrown ot (declared r) r = None) rows ->
   2 * List.length rows <= List.length (calls (POST ot poFile soFile))).
Proof.
  intros Hpo Hso Hne.
  assert (CrossFile.is_nil (poRows ++ soRows) = false) as Hnil.
  { revert Hne. destruct (poRows ++ soRows); [intros Hne; now elim Hne | reflexivity]. }
  intros rows details.
  pose proof (parseAndTag_rows _ _ Hpo) as Tpo. pose proof (parseAndTag_rows _ _ Hso) as Tso.
  destruct (reconcileRows_from ot rows 0) as (_ & Hsm & _ & _ & Hcalls & _).
  assert (POST ot poFile soFile
          = (Status200 (summaryOf details) details, flat_map (rowCalls ot) rows)) as HP.
  { rewrite POST_unfold.
    - rewrite Hpo, Hso, Hnil. fold rows. now rewrite Hcalls.
    - destruct poFile; [left; discriminate |]. destruct soFile; [right; discriminate |].
      cbn in Hpo, Hso. injection Hpo as <-. injection Hso as <-. now elim Hne. }
  assert (forall tag (l : list (Row Date)),
             Forall (fun r => sourceMode r = Some tag /\ identified r) l ->
             map (fun r => Some (match sourceMode r with Some m => mode_str m | None => "" end))
                 l
             = map (fun _ => Some (mode_str tag)) l /\
             Forall (fun r => declared r = tag) l /\
             Forall (fun r => identified r) l) as Htag.
  { intros tag l. induction 1 as [| r l [Hr Hid] _ (IH1 & IH2 & IH3)]; cbn [map];
      [repeat split; constructor |].
    rewrite Hr, IH1. repeat split; constructor; auto. unfold declared. now rewrite Hr. }
  destruct (Htag PO poRows Tpo) as (Hm1 & Hp1 & Hi1).
  destruct (Htag SO soRows Tso) as (Hm2 & Hp2 & Hi2).
  assert (Forall (fun r => identified r) rows) as Hid
    by (unfold rows; apply Forall_app; now split).
  destruct (rowCalls_identified ot Hid) as [Hone Htwo].
  split; [exact HP |]. split.
  - fold details in Hsm. rewrite Hsm. unfold rows. now rewrite map_app, Hm1, Hm2.
  - split; [exact Hp1 |]. split; [exact Hp2 |]. rewrite HP. cbn [calls snd]. auto.
Qed.

(* ------------------------------------------------------------------ *)
(** ** The single-file route                                             *)

Local Abbreviation reconcileRow1 := (SingleFile.reconcileRow toISOString decide thrown).
Local Abbreviation reconcileRows1 := (SingleFile.reconcileRows toISOString decide thrown).
Local Abbreviation POST1 := (SingleFile.POST toISOString decide thrown parseDateText).

(** The requests of one row: those of its evaluation as a purchase order,
    then, unless that evaluation throws, those of its evaluation as a sales
    order. *)
Local Abbreviation rowCalls1 ot :=
  (fun r : Row Date =>
     calls (lookup ot PO r)
     ++ match thrown ot PO r with
        | Some _ => []
        | None => calls (lookup ot SO r)
        end).

Lemma reconcileRow1_eq (ot : Client) (i : nat) (r : Row Date) :
  reconcileRow1 ot i r = (value (reconcileRow1 ot i r), rowCalls1 ot r) /\
  d_row (value (reconcileRow1 ot i r)) = i + 1 /\
  d_sourceMode (value (reconcileRow1 ot i r)) = None.
Proof.
  unfold SingleFile.reconcileRow.
  rewrite (TruthSourceFacts.attempts_cases toISOString decide thrown).
  destruct (thrown ot PO r) as [m |]; [| destruct (thrown ot SO r) as [m |]];
    unfold bind, ret, value, calls; cbn [fst snd]; rewrite ?app_nil_r; repeat split.
Qed.

Lemma reconcileRows1_from (ot : Client) (rows : list (Row Date)) :
  forall i,
    reconcileRows1 ot i rows
    = (value (reconcileRows1 ot i rows), flat_map (rowCalls1 ot) rows) /\
    map (@d_row) (value (reconcileRows1 ot i rows)) = seq (i + 1) (List.length rows) /\
    Forall (fun d => d_sourceMode d = None) (value (reconcileRows1 ot i rows)).
Proof.
  induction rows as [| r rows IH]; intros i.
  - cbn. repeat split; auto.
  - destruct (IH (S i)) as (Hc & Hrow & Hsm).
    destruct (reconcileRow1_eq ot i r) as (Hc1 & Hr1 & Hs1).
    cbn [SingleFile.reconcileRows]. rewrite Hc, Hc1.
    unfold bind, ret. cbn [fst snd value map seq List.length flat_map].
    fold (value (reconcileRow1 ot i r)) (value (reconcileRows1 ot (S i) rows)).
    rewrite Hrow, Hr1, app_nil_r. replace (S i + 1) with (S (i + 1)) by lia.
    repeat split. constructor; assumption.
Qed.

(** X22 — The single-file route answers 400 when the file is missing or
    cannot be parsed, without asking the order system.  Otherwise it answers
    200 with one detail per parsed row, numbered from one, none of which has
    a [sourceMode] key.  Each row is evaluated as a purchase order and then,
    unless that evaluation throws, as a sales order.  A sheet without rows
    gives a 200 answer with no detail and an empty summary. *)
Theorem single_file_answers (ot : Client) :
  POST1 ot None = (SingleFile.Status400 "Missing file (form field 'file')", []) /\
  POST1 ot (Some []) = (SingleFile.Status200 [] [], []) /\
  (forall sheet msg,
      Parse.parseFile parseDateText sheet = Throw msg ->
      POST1 ot (Some sheet) = (SingleFile.Status400 ("Parse error: " ++ msg), [])) /\
  (forall sheet parsed,
      Parse.parseFile parseDateText sheet = Return parsed ->
      let rows := map (@SingleFile.rowOf Date) parsed in
      let details := value (reconcileRows1 ot 0 rows) in
      POST1 ot (Some sheet)
      = (SingleFile.Status200 (summaryOf details) details, flat_map (rowCalls1 ot) rows) /\
      map (@d_row) details = seq 1 (List.length parsed) /\
      Forall (fun d => json_field "sourceMode" (detailJson d) = None) details).
Proof.
  split; [reflexivity |]. split; [reflexivity |]. split.
  - intros sheet msg E. unfold SingleFile.POST. now rewrite E.
  - intros sheet parsed E rows details. unfold SingleFile.POST. rewrite E. fold rows.
    destruct (reconcileRows1_from ot rows 0) as (Hc & Hrow & Hsm).
    fold details in Hc, Hrow, Hsm. split; [| split].
    + rewrite Hc. unfold bind, ret. cbn [fst snd]. now rewrite app_nil_r.
    + rewrite Hrow. unfold rows. now rewrite length_map.
    + revert Hsm. apply Forall_impl. intros d Hd. unfold detailJson. rewrite Hd.
      destruct (d_dayDelta d), (poVerdict d), (soVerdict d); reflexivity.
Qed.

End Route.
Lemma order_rows_lookup_witness :
  truthy (orderNumber ex_undated_row) = true /\
  calls (reconcileOne ex_toISOString ex_decide soOnlyClient SO ex_undated_row)
  = [CallGetOrder SO "SO-7"; CallGetActivity SO "SO-7"] /\
  calls (reconcileOne ex_toISOString ex_decide soOnlyClient PO ex_undated_row)
  = [CallGetOrder PO "SO-7"].
Proof.
  assert (truthy (orderNumber ex_undated_row) = true) as Ho by reflexivity.
  split; [exact Ho |]. split.
  - exact (proj1 (order_rows_lookup ex_toISOString ex_decide soOnlyClient SO ex_undated_row Ho)).
  - exact (proj1 (order_rows_lookup ex_toISOString ex_decide soOnlyClient PO ex_undated_row Ho)).
Defined.

Lemma unidentified_rows_ask_nothing_witness :
  let r := mkRow None (Some "Acme") (Some "") (@None string) None in
  truthy (orderNumber r) = false /\
  truthy (trackingNumber r) = false /\
  calls (reconcileOne ex_toISOString ex_decide soOnlyClient SO r) = [] /\
  reconcileOne ex_toISOString ex_decide soOnlyClient SO r
  = reconcileOne ex_toISOString ex_decide downClient SO r.
Proof.
  intros r.
  assert (truthy (orderNumber r) = false) as Ho by reflexivity.
  assert (truthy (trackingNumber r) = false) as Ht by reflexivity.
  split; [exact Ho |]. split; [exact Ht |].
  exact (proj2 (unidentified_rows_ask_nothing ex_toISOString ex_decide
                  soOnlyClient downClient SO r Ho Ht)).
Defined.

(** A PO row whose evaluation as a sales order throws: an error detail
    after the requests of both evaluations. *)
Lemma detail_verdicts_witness :
  let d := value (reconcileRow ex_toISOString ex_decide ex_so_throws soOnlyClient 0
                               ex_order_row) in
  (ex_so_throws soOnlyClient (declared ex_order_row) ex_order_row = None /\
   ex_so_throws soOnlyClient (opposite (declared ex_order_row)) ex_order_row
   = Some (Some "docs is not iterable")) /\
  chosenMode d = None /\
  d_verdict d = "ERROR" /\
  d_reason d = "docs is not iterable" /\
  json_field "poVerdict" (detailJson d) = None.
Proof.
  intros d.
  destruct (detail_verdicts ex_toISOString ex_decide ex_so_throws soOnlyClient 0 ex_order_row)
    as [_ H].
  assert (ex_so_throws soOnlyClient (declared ex_order_row) ex_order_row = None /\
          ex_so_throws soOnlyClient (opposite (declared ex_order_row)) ex_order_row
          = Some (Some "docs is not iterable")) as Hs by (split; reflexivity).
  split; [exact Hs |].
  destruct (H (Some "docs is not iterable") (or_intror Hs))
    as (Hc & Hv & Hr & _ & _ & _ & _ & _ & Hp & _).
  split; [exact Hc |]. split; [exact Hv |]. split; [exact Hr | exact Hp].
Defined.

Lemma POST_answers_witness :
  match value (POST ex_toISOString ex_decide ex_so_throws Parse.ex_parseDateText emptyClient
                    (Some Parse.ex_sheet) None) with
  | Status200 summary details =>
      details <> [] /\
      summary = summaryOf details /\
      map (@d_row) details = seq 1 (List.length details) /\
      List.length (calls (POST ex_toISOString ex_decide ex_so_throws Parse.ex_parseDateText
                               emptyClient (Some Parse.ex_sheet) None))
      <= 4 * List.length details
  | _ => False
  end.
Proof.
  destruct (POST_answers ex_toISOString ex_decide ex_so_throws Parse.ex_parseDateText
                         emptyClient (Some Parse.ex_sheet) None) as (_ & _ & H).
  destruct (value (POST ex_toISOString ex_decide ex_so_throws Parse.ex_parseDateText
                        emptyClient (Some Parse.ex_sheet) None)) as [b | b | s ds] eqn:E.
  - vm_compute in E. discriminate.
  - vm_compute in E. discriminate.
  - exact (H s ds eq_refl).
Defined.

Lemma rows_keep_their_file_witness :
  let poRows := [ mkRow (Some "PO-100") None None (@None string) (Some PO);
                  mkRow None None (Some "1Z999AA10123456784") (@None string) (Some PO) ] in
  let details :=
    value (reconcileRows ex_toISOString ex_decide ex_no_throw emptyClient 0 (poRows ++ [])) in
  parseAndTag Parse.ex_parseDateText (Some Parse.ex_sheet) PO = Return poRows /\
  map (@d_sourceMode) details
  = map (fun _ => Some "PO") poRows ++ map (fun _ => Some "SO") (@nil (Row string)) /\
  2 * List.length (poRows ++ [])
  <= List.length (calls (POST ex_toISOString ex_decide ex_no_throw Parse.ex_parseDateText
                              emptyClient (Some Parse.ex_sheet) None)).
Proof.
  intros poRows details.
  assert (parseAndTag Parse.ex_parseDateText (Some Parse.ex_sheet) PO = Return poRows) as Hpo
    by (vm_compute; reflexivity).
  assert (parseAndTag Parse.ex_parseDateText None SO = Return (@nil (Row string))) as Hso
    by reflexivity.
  assert (poRows ++ [] <> []) as Hne by discriminate.
  split; [exact Hpo |].
  destruct (@rows_keep_their_file string ex_toISOString ex_decide ex_no_throw
              Parse.ex_parseDateText emptyClient (Some Parse.ex_sheet) None poRows []
              Hpo Hso Hne)
    as (_ & Hsm & _ & _ & _ & Hc).
  split; [exact Hsm |]. apply Hc. repeat constructor.
Defined.

Lemma single_file_answers_witness :
  SingleFile.POST ex_toISOString ex_decide ex_so_throws Parse.ex_parseDateText emptyClient
                  (Some Parse.cx_note_sheet)
  = (SingleFile.Status400
       ("Parse error: Missing required column(s): orderNumber or trackingNumber. " ++
        "Found headers: Notes"), []) /\
  Forall (fun d => json_field "sourceMode" (detailJson d) = None /\ d_verdict d = "ERROR")
         (value (SingleFile.reconcileRows ex_toISOString ex_decide ex_so_throws emptyClient 0
                   (map (@SingleFile.rowOf string)
                        [ Parse.mkUploadRow (Some "PO-100") None None None [] ]))).
Proof.
  destruct (single_file_answers ex_toISOString ex_decide ex_so_throws Parse.ex_parseDateText
                                emptyClient) as (_ & _ & H & _).
  split; [apply H; reflexivity |].
  repeat constructor.
Defined.

End TruthSourceMore.

(* ================================================================== *)
(** * Further facts: header keys                                        *)
(* ================================================================== *)

Module HeaderFacts.

Import StringFacts.
Local Open Scope list_scope.

Lemma sforall_trimStart (p : ascii -> bool) (s : string) :
  sforall p s = true -> sforall p (trimStart s) = true.
Proof.
  induction s as [| c s IH]; cbn [trimStart]; auto.
  destruct (is_space c); auto. cbn [sforall]. intros H.
  apply andb_true_iff in H. now apply IH.
Qed.

Lemma sforall_trimEnd (p : ascii -> bool) (s : string) :
  sforall p s = true -> sforall p (trimEnd s) = true.
Proof.
  induction s as [| c s IH]; cbn [trimEnd]; auto.
  cbn [sforall]. intros H. apply andb_true_iff in H. destruct H as [Hc Hs].
  specialize (IH Hs). destruct (trimEnd s) as [| d t].
  - destruct (is_space c); cbn [sforall]; auto. now rewrite Hc.
  - cbn [sforall] in *. now rewrite Hc.
Qed.

Lemma sforall_trim (p : ascii -> bool) (s : string) :
  sforall p s = true -> sforall p (trim s) = true.
Proof. intros H. now apply sforall_trimEnd, sforall_trimStart. Qed.

(** What [replace(/C+/g, " ")] leaves: the characters of the text outside
    the class, and spaces. *)
Lemma collapse_alphabet (cls q : ascii -> bool) (s : string) :
  sforall q s = true ->
  sforall (fun c => q c && negb (cls c) || (code c =? 32)%nat) (collapse cls s) = true.
Proof.
  induction s as [| c s IH]; [reflexivity |]. cbn [collapse sforall].
  intros H. apply andb_true_iff in H. destruct H as [Hq Hs]. specialize (IH Hs).
  destruct (cls c) eqn:Hc.
  - destruct s as [| c' s'].
    + cbn [sforall]. change (code " " =? 32)%nat with true. now rewrite orb_true_r.
    + destruct (cls c'); [exact IH |]. cbn [sforall]. rewrite IH.
      change (code " " =? 32)%nat with true. now rewrite orb_true_r.
  - cbn [sforall]. now rewrite Hq, Hc, IH.
Qed.

Lemma toLowerCase_no_upper (s : string) :
  sforall (fun c => negb (is_upper c)) (toLowerCase s) = true.
Proof.
  unfold toLowerCase. induction s as [| c s IH]; [reflexivity |].
  cbn [smap sforall]. rewrite IH, andb_true_r.
  destruct c as [[] [] [] [] [] [] [] []]; reflexivity.
Qed.

Lemma sforall_true (s : string) : sforall (fun _ => true) s = true.
Proof. induction s; auto. Qed.

Lemma toLowerCase_upper (s : string) : toLowerCase (toUpperCase s) = toLowerCase s.
Proof. unfold toLowerCase, toUpperCase. rewrite smap_smap. apply smap_ext, lower_upper. Qed.

Lemma space_not_key (c : ascii) : is_space c = true -> negb (is_lower c || is_digit c) = true.
Proof. by_char c. Qed.

(** X23 — Header matching ignores case: [normalizeHeader] and [keyify] give
    the same key for a header and its upper-cased form.  Both keys are
    single-spaced.  A key of [normalizeHeader] holds only lower-case letters,
    digits and spaces, so the entry ["order #"] of [HEADER_MAP] is never
    looked up; a key of [keyify] holds no upper-case letter and no
    underscore. *)
Theorem header_keys (h : string) :
  StrictParse.normalizeHeader (toUpperCase h) = StrictParse.normalizeHeader h /\
  Parse.keyify (toUpperCase h) = Parse.keyify h /\
  single_spaced (StrictParse.normalizeHeader h) = true /\
  single_spaced (Parse.keyify h) = true /\
  sforall is_key_char (StrictParse.normalizeHeader h) = true /\
  StrictParse.normalizeHeader h <> "order #" /\
  sforall (fun c => negb (is_upper c || is_underscore c)) (Parse.keyify h) = true.
Proof.
  assert (sforall is_key_char (StrictParse.normalizeHeader h) = true) as Hkey.
  { unfold StrictParse.normalizeHeader. apply sforall_trim.
    generalize (collapse_alphabet (fun c => negb (is_lower c || is_digit c)) (fun _ => true)
                                  (toLowerCase h) (sforall_true _)).
    apply sforall_impl. intros c Hc. unfold is_key_char.
    now rewrite negb_involutive in Hc. }
  unfold StrictParse.normalizeHeader, Parse.keyify in *. rewrite !toLowerCase_upper.
  split; [reflexivity |]. split; [reflexivity |].
  split; [apply ParseMore.trim_collapse_single_in, space_not_key |].
  split; [apply ParseMore.trim_collapse_single_in; intros c ->; reflexivity |].
  split; [exact Hkey |]. split.
  - intros E. rewrite E in Hkey. discriminate.
  - apply sforall_trim.
    generalize (collapse_alphabet (fun c => is_space c || is_underscore c)
                                  (fun c => negb (is_upper c))
                                  (toLowerCase h) (toLowerCase_no_upper h)).
    apply sforall_impl. intros c. by_char c.
Qed.

End HeaderFacts.

(* ================================================================== *)
(** * Further facts: the strict parser                                  *)
(* ================================================================== *)

Module StrictParseMore.

Import StrictParse StringFacts MapMore.
Local Open Scope list_scope.

(* ------------------------------------------------------------------ *)
(** ** The header mapping                                                *)

Local Abbreviation step :=
  (fun mapping h =>
     match map_get (normalizeHeader h) HEADER_MAP with
     | Some std => setField std h mapping
     | None => mapping
     end).

Lemma fieldOf_setField (f g : Field) (h : string) (m : Mapping) :
  fieldOf f (setField g h m) = if Field_eqb g f then Some h else fieldOf f m.
Proof. now destruct f, g. Qed.

Lemma mapHeaders_from (f : Field) (hs : list string) (m0 : Mapping) :
  fieldOf f (fold_left step hs m0)
  = match find (names f) (rev hs) with
    | Some h => Some h
    | None => fieldOf f m0
    end.
Proof.
  induction hs as [| h hs IH] using rev_ind; [reflexivity |].
  rewrite fold_left_app, rev_app_distr. cbn [fold_left rev app find].
  unfold names at 1.
  destruct (map_get (normalizeHeader h) HEADER_MAP) as [g |]; [| exact IH].
  rewrite fieldOf_setField. destruct (Field_eqb g f); [reflexivity | exact IH].
Qed.

(** X24 — [mapHeaders] maps each field to the last header of the header
    row that is one of its names, and leaves it unset when no header is. *)
Theorem mapHeaders_last_name_wins (f : Field) (rawHeaders : list string) :
  fieldOf f (mapHeaders rawHeaders) = find (names f) (rev rawHeaders).
Proof.
  unfold mapHeaders. rewrite mapHeaders_from.
  destruct (find (names f) (rev rawHeaders)); [reflexivity | now destruct f].
Qed.

(* ------------------------------------------------------------------ *)
(** ** Rows                                                              *)

Section Rows.

Variable Date : Type.
Variable newDate : string -> Date.

Local Abbreviation parseRow := (parseRow newDate).
Local Abbreviation mapRows := (mapRows newDate).
Local Abbreviation parseFile := (parseFile newDate).

Lemma mapRows_first_missing (map : Mapping) (mode : TruthSource.Mode) (rows : list RawRow) :
  forall (idx k : nat) (r : RawRow),
    nth_error rows k = Some r ->
    nonempty (orderCell map r) = false ->
    (forall j r', j < k -> nth_error rows j = Some r' -> nonempty (orderCell map r') = true) ->
    mapRows map mode idx rows
    = Throw ("Row " ++ decimal (idx + k + 1) ++ ": missing orderNumber")%string.
Proof.
  induction rows as [| r0 rows IH]; intros idx k r Hk Hr Hbefore.
  - destruct k; discriminate.
  - cbn [StrictParse.mapRows]. destruct k as [| k].
    + injection Hk as ->.
      destruct (ParseFacts.parseRow_order newDate map mode idx r) as [[_ ->] | [Hn _]];
        [| congruence].
      now rewrite Nat.add_0_r.
    + destruct (ParseFacts.parseRow_order newDate map mode idx r0)
        as [[Hn _] | (_ & u & -> & _)].
      * rewrite (Hbefore 0 r0) in Hn; [discriminate | lia | reflexivity].
      * rewrite (IH (S idx) k r Hk Hr).
        -- now replace (S idx + k + 1) with (idx + S k + 1) by lia.
        -- intros j r' Hj. apply (Hbefore (S j)). lia.
Qed.

(** X25 — When the header row names an order column and some row has an
    empty order cell, the strict parser throws, and the message names the
    first such row, counted from one. *)
Theorem first_missing_order_reported
    (headers : list string) (rows : list RawRow) (mode : TruthSource.Mode)
    (k : nat) (r : RawRow) :
  let map := mapHeaders headers in
  truthy (m_orderNumber map) = true ->
  nth_error rows k = Some r ->
  nonempty (orderCell map r) = false ->
  (forall j r', j < k -> nth_error rows j = Some r' -> nonempty (orderCell map r') = true) ->
  parseFile headers rows mode
  = Throw ("Row " ++ decimal (k + 1) ++ ": missing orderNumber")%string.
Proof.
  intros map Hmap Hk Hr Hbefore. unfold StrictParse.parseFile. fold map.
  destruct rows as [| r0 rows]; [destruct k; discriminate |].
  cbn [CrossFile.is_nil]. rewrite Hmap. cbn [negb].
  apply (@mapRows_first_missing map mode (r0 :: rows) 0 k r Hk Hr Hbefore).
Qed.

Lemma strict_parseRow_fields (map : Mapping) (mode0 : TruthSource.Mode) (idx : nat) (r : RawRow)
    (u : UploadRow Date) :
  parseRow map mode0 idx r = Return u ->
  mode u = mode0 /\
  orderNumber u = orderCell map r /\
  partyName u <> Some "" /\
  trackingNumber u <> Some "" /\
  (assertedDate u = None <->
   truthy (nullish (cell r (m_assertedDate map)) (map_get "assertedDate" r)) = false).
Proof.
  unfold StrictParse.parseRow. fold (orderCell map r). cbv zeta.
  destruct (negb (nonempty (orderCell map r))); [discriminate |].
  intros [= <-]. cbn [mode orderNumber partyName trackingNumber assertedDate].
  split; [reflexivity |]. split; [reflexivity |].
  assert (forall s, or_null (Some s) <> Some "") as Hnull.
  { intros s. unfold or_null. cbn [truthy]. destruct (nonempty s) eqn:E; [| discriminate].
    apply nonempty_true in E. congruence. }
  split; [apply Hnull |]. split; [apply Hnull |].
  destruct (truthy _) eqn:E; [| tauto].
  destruct (nullish _ _); [| discriminate]. cbn [option_map]. split; discriminate.
Qed.

Lemma mapRows_fields (map : Mapping) (mode0 : TruthSource.Mode) (rows : list RawRow) :
  forall idx out,
    mapRows map mode0 idx rows = Return out ->
    List.map (@orderNumber Date) out = List.map (orderCell map) rows /\
    Forall (fun u => mode u = mode0 /\ partyName u <> Some "" /\ trackingNumber u <> Some "")
           out.
Proof.
  induction rows as [| r rows IH]; intros idx out; cbn [StrictParse.mapRows].
  - intros [= <-]. auto.
  - destruct (StrictParse.parseRow newDate map mode0 idx r) as [u | msg] eqn:Eu; [| discriminate].
    destruct (StrictParse.mapRows newDate map mode0 (S idx) rows) as [us | msg] eqn:Eus;
      [| discriminate].
    intros [= <-]. destruct (IH _ _ Eus) as [Ho Hall].
    apply strict_parseRow_fields in Eu. destruct Eu as (Hm & Hn & Hp & Ht & _).
    cbn [List.map]. rewrite Ho, Hn. split; auto.
Qed.

(** X26 — The rows that the strict parser returns carry the mode of the
    upload and, in order, the trimmed order cells of the input rows; their
    party name and tracking number are absent or non-empty, never the empty
    text. *)
Theorem strict_rows_fields (headers : list string) (rows : list RawRow)
    (mode0 : TruthSource.Mode) (out : list (UploadRow Date)) :
  parseFile headers rows mode0 = Return out ->
  truthy (m_orderNumber (mapHeaders headers)) = true /\
  List.map (@orderNumber Date) out = List.map (orderCell (mapHeaders headers)) rows /\
  Forall (fun u => mode u = mode0 /\ partyName u <> Some "" /\ trackingNumber u <> Some "")
         out.
Proof.
  unfold StrictParse.parseFile.
  destruct (CrossFile.is_nil rows); [discriminate |].
  destruct (truthy (m_orderNumber (mapHeaders headers))); [| discriminate].
  cbn [negb]. intros H. split; [reflexivity |]. exact (mapRows_fields _ _ _ _ H).
Qed.

End Rows.

Lemma first_missing_order_reported_witness :
  let headers := ["PO Number"; "Vendor"] in
  let rows := [ [("PO Number", "PO-1"); ("Vendor", "Acme")];
                [("PO Number", "  "); ("Vendor", "Acme")];
                [("PO Number", ""); ("Vendor", "")] ] in
  parseFile (fun s : string => s) headers rows TruthSource.PO
  = Throw "Row 2: missing orderNumber".
Proof.
  intros headers rows.
  apply (@first_missing_order_reported string (fun s => s) headers rows TruthSource.PO 1
           [("PO Number", "  "); ("Vendor", "Acme")]).
  - reflexivity.
  - reflexivity.
  - reflexivity.
  - intros j r' Hj. assert (j = 0) as -> by lia. intros [= <-]. reflexivity.
Defined.

Lemma strict_rows_fields_witness :
  let headers := ["PO Number"; "Vendor"; "Tracking"] in
  let rows := [ [("PO Number", " PO-1 "); ("Vendor", "Acme"); ("Tracking", "")] ] in
  let out := [ @mkUploadRow string TruthSource.SO "PO-1" (Some "Acme") None None ] in
  parseFile (fun s : string => s) headers rows TruthSource.SO = Return out /\
  List.map (@orderNumber string) out = List.map (orderCell (mapHeaders headers)) rows /\
  Forall (fun u => mode u = TruthSource.SO /\ partyName u <> Some "" /\
                   trackingNumber u <> Some "") out.
Proof.
  intros headers rows out.
  assert (parseFile (fun s : string => s) headers rows TruthSource.SO = Return out) as E
    by reflexivity.
  split; [exact E |].
  exact (proj2 (@strict_rows_fields string (fun s => s) headers rows TruthSource.SO out E)).
Defined.

End StrictParseMore.
